(** * SMURF helper scripts (pol2ip, configmeld, pol2stack, tounimap)

    A shallow embedding of the Python scripts under
    [applications/smurf/scripts], and the properties their specification
    states about them.

    Conventions of the embedding:
    - a Python [float] is a real number ([R]); rounding is not modelled,
      but the exceptions of float arithmetic that the code can meet
      ([ZeroDivisionError], [ValueError] of [math.sqrt]) are;
    - a Python list is a [list]; [l[i]] is [getitem], which raises
      [IndexError] out of range;
    - a statement sequence that may raise is a computation in the
      [result] monad; the module-level lists of pol2ip are the fields of
      the record [globals], threaded explicitly;
    - external programs (the Starlink tasks, [scipy.optimize.minimize])
      are inputs of the model: what they returned, or that they raised. *)

From Stdlib Require Import String Ascii Reals Lra Lia ZArith Bool List Sorted.
Import ListNotations.

Open Scope R_scope.

(** ** Exceptions and the result monad *)

Inductive exn : Type :=
| IndexError
| ZeroDivisionError
| ValueError
| StarUtilError (msg : string)  (* starutil.StarUtilError and its subclasses *)
| KeyboardInterrupt
| OtherError (name : string).

Inductive result (A : Type) : Type :=
| Ok (a : A)
| Raise (e : exn).

Arguments Ok {A} a.
Arguments Raise {A} e.

Definition bind {A B : Type} (c : result A) (k : A -> result B) : result B :=
  match c with
  | Ok a => k a
  | Raise e => Raise e
  end.

Notation "x <- c ;; k" := (bind c (fun x => k))
  (at level 61, c at next level, right associativity).
Notation "' p <- c ;; k" := (bind c (fun x => let p := x in k))
  (at level 61, p pattern, c at next level, right associativity).

(** [for a in l: s = body(a, s)], stopping at the first exception. *)
Fixpoint foldM {A S : Type} (body : A -> S -> result S) (l : list A) (s : S)
  : result S :=
  match l with
  | [] => Ok s
  | a :: l' =>
      match body a s with
      | Ok s' => foldM body l' s'
      | Raise e => Raise e
      end
  end.

(** [range(n)] and [range(lo, hi)]. *)
Definition range (n : nat) : list nat := seq 0 n.
Definition range2 (lo hi : nat) : list nat := seq lo (hi - lo).

(** [l[i]] for a non-negative index. *)
Definition getitem {A : Type} (l : list A) (i : nat) : result A :=
  match nth_error l i with
  | Some a => Ok a
  | None => Raise IndexError
  end.

(** [l.append(a)]. *)
Definition append {A : Type} (l : list A) (a : A) : list A := l ++ [a].

(** [del l[-1]]: raises [IndexError] on the empty list. *)
Definition del_last {A : Type} (l : list A) : result (list A) :=
  match l with
  | [] => Raise IndexError
  | _ :: _ => Ok (removelast l)
  end.

(** [x / n] for a float [x] and an int [n]. *)
Definition py_div (x : R) (n : nat) : result R :=
  match n with
  | O => Raise ZeroDivisionError
  | S _ => Ok (x / INR n)
  end.

(** [math.sqrt]: a negative argument is a [ValueError]. *)
Definition py_sqrt (x : R) : result R :=
  if Rlt_dec x 0 then Raise ValueError else Ok (sqrt x).

(** [math.radians]. *)
Definition radians (d : R) : R := d * (PI / 180).

(** [a < b] on floats, as a boolean. *)
Definition Rltb (a b : R) : bool := if Rlt_dec a b then true else false.

(** [a <= b] on floats, as a boolean. *)
Definition Rleb (a b : R) : bool := if Rle_dec a b then true else false.

(** ** pol2ip.py *)

Module Pol2ip.

(** The module-level variables: the seven lists and the total intensity. *)
Record globals : Type := mkGlobals {
  elist : list R;
  alist : list R;
  qlist : list R;
  ulist : list R;
  utlist : list Z;
  obsnumlist : list Z;
  wvmlist : list R;
  ival : R
}.

(** The model parameters [x = (a, b, c)]. *)
Definition params : Type := (R * R * R)%type.

Definition model2 (g : globals) (el : R) (x : params) : R * R :=
  let '(a, b, c) := x in
  let elval := radians el in
  let pi := a + b * elval + c * elval * elval in
  let qfp := ival g * pi * cos (-2 * elval) in
  let ufp := ival g * pi * sin (-2 * elval) in
  (qfp, ufp).

Definition model (g : globals) (i : nat) (x : params) : result (R * R) :=
  el <- getitem (elist g) i ;;
  Ok (model2 g el x).

(** The Q or U residual of observation [i], as [resid] and [reject]
    compute it. *)
Definition dqu_at (g : globals) (useq : bool) (x : params) (i : nat)
  : result R :=
  '(qfp, ufp) <- model g i x ;;
  if useq then
    q <- getitem (qlist g) i ;; Ok (qfp - q)
  else
    u <- getitem (ulist g) i ;; Ok (ufp - u).

Definition objfun (g : globals) (x : params) : result R :=
  foldM (fun i res =>
           '(qfp, ufp) <- model g i x ;;
           q <- getitem (qlist g) i ;;
           let dq := qfp - q in
           u <- getitem (ulist g) i ;;
           let du := ufp - u in
           Ok (res + (dq * dq + du * du)))
        (range (length (elist g))) 0.

Definition resid (g : globals) (useq : bool) (x : params) : result R :=
  res <- foldM (fun i res =>
                  dqu <- dqu_at g useq x i ;;
                  Ok (res + dqu * dqu))
               (range (length (elist g))) 0 ;;
  m <- py_div res (length (elist g)) ;;
  py_sqrt m.

(** The three lists [reject] builds. *)
Record newlists : Type := mkNew {
  newqlist : list R;
  newulist : list R;
  newelist : list R
}.

Definition reject_step (g : globals) (useq : bool) (lim : R) (x : params)
  (i : nat) (n : newlists) : result newlists :=
  dqu <- dqu_at g useq x i ;;
  if Rltb (Rabs dqu) lim then
    q <- getitem (qlist g) i ;;
    u <- getitem (ulist g) i ;;
    e <- getitem (elist g) i ;;
    Ok (mkNew (append (newqlist n) q) (append (newulist n) u)
              (append (newelist n) e))
  else Ok n.

Definition reject (g : globals) (useq : bool) (lim : R) (x : params)
  : result globals :=
  n <- foldM (reject_step g useq lim x) (range (length (elist g)))
             (mkNew [] [] []) ;;
  Ok (mkGlobals (newelist n) (alist g) (newqlist n) (newulist n)
                (utlist g) (obsnumlist g) (wvmlist g) (ival g)).

(** *** The observation loop (script lines 428-574)

    What the external tasks gave for one observation: the FITS headers of
    the Q map (after every task run before them), the peak fitted by
    kappa:beamfit, and the aperture means of kappa:aperadd.  Each is the
    value returned or the exception raised. *)
Record headers : Type := mkHeaders {
  ELSTART : R; ELEND : R;
  AZSTART : R; AZEND : R;
  WVMTAUST : R; WVMTAUEN : R;
  UTDATE : Z; OBSNUM : Z
}.

Record observation : Type := mkObs {
  fits : result headers;
  beamfit : result R;
  aperadd_q : result R;
  aperadd_u : result R
}.

(** The body of [for obs in obslist], from the first [elist.append]. *)
Definition gather_obs (diam : R) (o : observation) (g : globals)
  : result globals :=
  h <- fits o ;;
  let el := (1 / 2) * (ELSTART h + ELEND h) in
  let az := (1 / 2) * (AZSTART h + AZEND h) in
  let w := (1 / 2) * (WVMTAUST h + WVMTAUEN h) in
  let elist1 := append (elist g) el in
  let alist1 := append (alist g) az in
  let wvmlist1 := append (wvmlist g) w in
  let utlist1 := append (utlist g) (UTDATE h) in
  let obsnumlist1 := append (obsnumlist g) (OBSNUM h) in
  if Rleb diam 0 then
    match beamfit o with
    | Ok pipeak =>
        let elval := -2 * radians el in
        Ok (mkGlobals elist1 alist1
              (append (qlist g) (pipeak * cos elval))
              (append (ulist g) (pipeak * sin elval))
              utlist1 obsnumlist1 wvmlist1 (ival g))
    | Raise (StarUtilError _) =>
        obsnumlist2 <- del_last obsnumlist1 ;;
        wvmlist2 <- del_last wvmlist1 ;;
        alist2 <- del_last alist1 ;;
        elist2 <- del_last elist1 ;;
        utlist2 <- del_last utlist1 ;;
        Ok (mkGlobals elist2 alist2 (qlist g) (ulist g)
              utlist2 obsnumlist2 wvmlist2 (ival g))
    | Raise e => Raise e
    end
  else
    q <- aperadd_q o ;;
    u <- aperadd_u o ;;
    Ok (mkGlobals elist1 alist1 (append (qlist g) q) (append (ulist g) u)
          utlist1 obsnumlist1 wvmlist1 (ival g)).

(** The lists as the script initialises them. *)
Definition initial : globals := mkGlobals [] [] [] [] [] [] [] 0.

Definition gather (diam : R) (obslist : list observation) : result globals :=
  foldM (gather_obs diam) obslist initial.

(** [ival = get_task_par(...)], once all observations are done. *)
Definition set_ival (g : globals) (i : R) : globals :=
  mkGlobals (elist g) (alist g) (qlist g) (ulist g)
            (utlist g) (obsnumlist g) (wvmlist g) i.

(** *** The fit (script lines 625-648)

    [scipy.optimize.minimize] is an input of the model: a function from
    the objective and the initial guess to the point it returns. *)
Definition minimizer : Type := (params -> result R) -> params -> params.

Definition x0 : params := (1 / 100, 0, 0).

(** What one pass of the loop leaves behind: the current lists, the
    variables [res.x], [qrms], [urms] once they are bound, and the
    "Iteration i: Fitting to n data points" messages so far. *)
Record fitstate : Type := mkFit {
  fit_globals : globals;
  fit_res : option (params * R * R);
  fit_msgs : list (nat * nat)
}.

(** The loop body after the call of [minimize], given [res.x]. *)
Definition reject_round (g : globals) (x : params)
  : result (globals * R * R) :=
  qrms <- resid g true x ;;
  g1 <- reject g true (2 * qrms) x ;;
  urms <- resid g1 false x ;;
  g2 <- reject g1 false (2 * urms) x ;;
  Ok (g2, qrms, urms).

Definition fit_iteration (minimize : minimizer) (i : nat) (st : fitstate)
  : result fitstate :=
  let g := fit_globals st in
  let msgs := append (fit_msgs st) ((i + 1)%nat, length (elist g)) in
  let x := minimize (objfun g) x0 in
  '(g2, qrms, urms) <- reject_round g x ;;
  Ok (mkFit g2 (Some (x, qrms, urms)) msgs).

(** [for i in range(0,3)]. *)
Definition fit_loop (minimize : minimizer) (g : globals) : result fitstate :=
  foldM (fit_iteration minimize) (range2 0 3) (mkFit g None []).

(** The same loop with another number of passes, to state what holds
    after each of them. *)
Definition fit_rounds (minimize : minimizer) (k : nat) (g : globals)
  : result fitstate :=
  foldM (fit_iteration minimize) (range2 0 k) (mkFit g None []).

(** [if dofit: ... else: msg_out("Skipping fit ...")]. *)
Definition fit (dofit : bool) (minimize : minimizer) (g : globals)
  : result fitstate :=
  if dofit then fit_loop minimize g else Ok (mkFit g None []).

End Pol2ip.

(** ** configmeld.py: the choice of wavebands (script lines 146-258) *)

Module Configmeld.

Definition nl : string := String (ascii_of_nat 10) EmptyString.

(** Python's [needle in text] on strings. *)
Definition contains (text needle : string) : bool :=
  match index 0 needle text with
  | Some _ => true
  | None => false
  end.

(** What the external probes of one config gave:
    [starutil.get_fits_header(config, "SUBARRAY")] and, when that is
    [None], the text of kappa:provshow. *)
Record probe : Type := mkProbe {
  fits_header : result (option string);
  provshow : result string
}.

(** The [try: ... except: isndf = False] block: [(isndf, subarray)].  The
    bare [except] catches every exception. *)
Definition find_subarray (p : probe) : bool * option string :=
  match fits_header p with
  | Raise _ => (false, None)
  | Ok (Some s) => (true, Some s)
  | Ok None =>
      match provshow p with
      | Raise _ => (false, None)
      | Ok text =>
          if contains text "s4a" || contains text "s4b"
             || contains text "s4c" || contains text "s4d"
          then (true, Some "s4"%string)
          else if contains text "s8a" || contains text "s8b"
                  || contains text "s8c" || contains text "s8d"
          then (true, Some "s8"%string)
          else (true, None)
      end
  end.

(** [str.format] of a waveband, which may be [None]. *)
Definition show (w : option string) : string :=
  match w with
  | Some s => s
  | None => "None"
  end.

(** The [if isndf: ... else: waveband = None] block: the waveband and the
    messages it displays. *)
Definition waveband_of (config : string) (isndf : bool)
  (subarray : option string) : result (option string * list string) :=
  if isndf then
    match subarray with
    | None =>
        Ok (None,
            [("Cannot determine the SCUBA-2 waveband for NDF '" ++ config
              ++ "' - was it really created by MAKEMAP?")%string])
    | Some s =>
        if String.eqb (substring 1 1 s) "4" then Ok (Some "450"%string, [])
        else if String.eqb (substring 1 1 s) "8" then Ok (Some "850"%string, [])
        else Raise (StarUtilError
                      ("Unexpected value '" ++ s
                       ++ "' found for SUBARRAY FITS Header in " ++ config
                       ++ "."))
    end
  else Ok (None, []).

Definition opt_eqb (a b : option string) : bool :=
  match a, b with
  | Some x, Some y => String.eqb x y
  | None, None => true
  | _, _ => false
  end.

Definition is_none (a : option string) : bool :=
  match a with None => true | Some _ => false end.

(** The [if / elif] chain that fills in a missing waveband. *)
Definition merge (waveband1 waveband2 : option string) (WAVEBAND : string)
  : option string * option string * list string :=
  if negb (is_none waveband1) && is_none waveband2 then
    (waveband1, waveband1, [])
  else if is_none waveband1 && negb (is_none waveband2) then
    (waveband2, waveband2, [])
  else if is_none waveband1 && is_none waveband2 then
    (Some WAVEBAND, Some WAVEBAND, [])
  else if negb (opt_eqb waveband1 waveband2) then
    (waveband1, waveband2,
     [(nl ++ "  Supplied NDFs are for different wavebands")%string])
  else (waveband1, waveband2, []).

(** "Tell the user what wavebands are being used." *)
Definition report (config1 config2 : string)
  (waveband1 waveband2 : option string) : list string :=
  if opt_eqb waveband1 waveband2 then
    [(nl ++ "  Showing " ++ show waveband1 ++ " um values")%string]
  else
    [(nl ++ "  Showing " ++ show waveband1 ++ " um values from " ++ config1)%string;
     (nl ++ "  Showing " ++ show waveband2 ++ " um values from " ++ config2)%string].

(** The waveband selection specifier passed to kappa:configecho (before
    [starutil.shell_quote]). *)
Definition select (waveband : option string) : string :=
  if opt_eqb waveband (Some "450"%string) then "'850=0,450=1'"
  else "'850=1,450=0'".

Record selection : Type := mkSelection {
  isndf1 : bool;
  isndf2 : bool;
  waveband1 : option string;
  waveband2 : option string;
  select1 : string;
  select2 : string;
  msgs : list string
}.

Definition wavebands (config1 config2 WAVEBAND : string) (p1 p2 : probe)
  : result selection :=
  let '(ndf1, subarray1) := find_subarray p1 in
  '(w1, m1) <- waveband_of config1 ndf1 subarray1 ;;
  let '(ndf2, subarray2) := find_subarray p2 in
  '(w2, m2) <- waveband_of config2 ndf2 subarray2 ;;
  let '(w1', w2', m3) := merge w1 w2 WAVEBAND in
  Ok (mkSelection ndf1 ndf2 w1' w2' (select w1') (select w2')
        (m1 ++ m2 ++ m3 ++ report config1 config2 w1' w2')).

End Configmeld.

(** ** The top-level [try] of the four scripts *)

Module Toplevel.

(** What a run displays or does, as far as the handlers are concerned. *)
Inductive event : Type :=
| Invoke (command : string)   (* a statement of the body that completed *)
| Print (text : string)       (* print( ... ) *)
| Cleanup.                    (* a call of the script's cleanup() *)

Definition trace : Type := list event.

(** The statements of a [try] body, in order: each completes with an event
    or raises.  The run stops at the first exception. *)
Fixpoint run (body : list (result event)) : trace * option exn :=
  match body with
  | [] => ([], None)
  | Ok ev :: rest => let '(tr, r) := run rest in (ev :: tr, r)
  | Raise e :: _ => ([], Some e)
  end.

(** [try: body except StarUtilError as err: on_star(err) except: on_other; raise]. *)
Definition try_except (body : list (result event))
  (on_star : string -> trace) (on_other : trace) : trace * option exn :=
  match run body with
  | (tr, None) => (tr, None)
  | (tr, Some (StarUtilError msg)) => (tr ++ on_star msg, None)
  | (tr, Some e) => (tr ++ on_other, Some e)
  end.

Definition retained_msg (tempdir : string) : string :=
  (Configmeld.nl ++ Configmeld.nl
   ++ "unimap ended prematurely so intermediate files are being retained in "
   ++ tempdir ++ ".")%string.

(** Each script: its statements, then [cleanup()], inside the [try]. *)
Definition pol2ip (steps : list (result event)) : trace * option exn :=
  try_except (steps ++ [Ok Cleanup])
             (fun err => [Print err; Cleanup]) [Cleanup].

Definition pol2stack (steps : list (result event)) : trace * option exn :=
  try_except (steps ++ [Ok Cleanup])
             (fun err => [Print err; Cleanup]) [Cleanup].

Definition configmeld (steps : list (result event)) : trace * option exn :=
  try_except (steps ++ [Ok Cleanup])
             (fun err => [Print err; Cleanup]) [Cleanup].

Definition tounimap (tempdir : string) (steps : list (result event))
  : trace * option exn :=
  try_except (steps ++ [Ok Cleanup])
             (fun err => [Print err; Print (retained_msg tempdir)])
             [Print (retained_msg tempdir)].

Inductive script : Type := Pol2ipPy | Pol2stackPy | ConfigmeldPy | TounimapPy.

Definition main (s : script) (tempdir : string) (steps : list (result event))
  : trace * option exn :=
  match s with
  | Pol2ipPy => pol2ip steps
  | Pol2stackPy => pol2stack steps
  | ConfigmeldPy => configmeld steps
  | TounimapPy => tounimap tempdir steps
  end.

(** How often [cleanup()] was called. *)
Definition cleanups (tr : trace) : nat :=
  List.length (filter (fun ev => match ev with Cleanup => true | _ => false end) tr).

End Toplevel.

(** ** Notions used to state the properties *)

Import Pol2ip.

(** Elevation, Q and U have one entry per observation. *)
Definition aligned (g : globals) : Prop :=
  length (qlist g) = length (elist g) /\ length (ulist g) = length (elist g).

(** All seven lists have one entry per observation. *)
Definition aligned7 (g : globals) : Prop :=
  aligned g
  /\ length (alist g) = length (elist g)
  /\ length (utlist g) = length (elist g)
  /\ length (obsnumlist g) = length (elist g)
  /\ length (wvmlist g) = length (elist g).

(** One retained observation: the entries it contributes to the seven
    lists. *)
Record row : Type := mkRow {
  r_el : R; r_az : R; r_wvm : R;
  r_ut : Z; r_obsnum : Z;
  r_q : R; r_u : R
}.

(** The entries an observation contributes: none when its beam fit
    failed with a [StarUtilError]. *)
Definition row_of (diam : R) (o : observation) : result (option row) :=
  h <- fits o ;;
  let el := (1 / 2) * (ELSTART h + ELEND h) in
  let az := (1 / 2) * (AZSTART h + AZEND h) in
  let w := (1 / 2) * (WVMTAUST h + WVMTAUEN h) in
  if Rleb diam 0 then
    match beamfit o with
    | Ok pipeak =>
        Ok (Some (mkRow el az w (UTDATE h) (OBSNUM h)
                    (pipeak * cos (-2 * radians el))
                    (pipeak * sin (-2 * radians el))))
    | Raise (StarUtilError _) => Ok None
    | Raise e => Raise e
    end
  else
    q <- aperadd_q o ;;
    u <- aperadd_u o ;;
    Ok (Some (mkRow el az w (UTDATE h) (OBSNUM h) q u)).

Definition add_row (r : option row) (rows : list row) : list row :=
  match r with
  | Some x => rows ++ [x]
  | None => rows
  end.

(** The retained observations of an observation list, in order. *)
Definition rows_of (diam : R) (obslist : list observation) : result (list row) :=
  foldM (fun o rows => r <- row_of diam o ;; Ok (add_row r rows)) obslist [].

(** The seven lists as the columns of one table of retained observations. *)
Definition lists_of (rows : list row) (i : R) : globals :=
  mkGlobals (map r_el rows) (map r_az rows) (map r_q rows) (map r_u rows)
            (map r_ut rows) (map r_obsnum rows) (map r_wvm rows) i.

(** The Q or U residual of observation [i], model minus data. *)
Definition residual (g : globals) (useq : bool) (x : params) (i : nat) : R :=
  let '(qfp, ufp) := model2 g (nth i (elist g) 0) x in
  if useq then qfp - nth i (qlist g) 0 else ufp - nth i (ulist g) 0.

(** The sum of the squared residuals of all observations. *)
Definition sumsq (g : globals) (useq : bool) (x : params) : R :=
  fold_left (fun res i => res + residual g useq x i * residual g useq x i)
            (range (length (elist g))) 0.

(** The observations a pass of [reject] keeps, by original index. *)
Definition kept (g : globals) (useq : bool) (lim : R) (x : params) : list nat :=
  filter (fun i => Rltb (Rabs (residual g useq x i)) lim)
         (range (length (elist g))).

(** The entries of [l] at the indices [idx], in that order. *)
Definition pick {A : Type} (d : A) (idx : list nat) (l : list A) : list A :=
  map (fun i => nth i l d) idx.

(** The lists of [g] restricted to the observations [idx]; the four lists
    that [reject] does not rebuild stay as they are. *)
Definition restrict (idx : list nat) (g : globals) : globals :=
  mkGlobals (pick 0 idx (elist g)) (alist g) (pick 0 idx (qlist g))
            (pick 0 idx (ulist g)) (utlist g) (obsnumlist g) (wvmlist g)
            (ival g).

(** [g] holds, in their original order, the elevation, Q and U of some of
    the observations of [g0]: entry [i] of each of its three lists is the
    entry [idx[i]] of the same list of [g0]. *)
Definition selection_of (g0 g : globals) : Prop :=
  exists idx : list nat,
    StronglySorted lt idx
    /\ Forall (fun i => (i < length (elist g0))%nat) idx
    /\ elist g = pick 0 idx (elist g0)
    /\ qlist g = pick 0 idx (qlist g0)
    /\ ulist g = pick 0 idx (ulist g0).

(** [l] without its entry [k]. *)
Definition remove_nth {A : Type} (k : nat) (l : list A) : list A :=
  firstn k l ++ skipn (S k) l.

(** [g] without observation [k] in the three lists of the fit. *)
Definition drop_obs (k : nat) (g : globals) : globals :=
  mkGlobals (remove_nth k (elist g)) (alist g) (remove_nth k (qlist g))
            (remove_nth k (ulist g)) (utlist g) (obsnumlist g) (wvmlist g)
            (ival g).

(** The squared Q and U differences of one observation, as [objfun] adds
    them. *)
Definition sqdiff (g : globals) (x : params) (e q u : R) : R :=
  let '(qfp, ufp) := model2 g e x in
  (qfp - q) * (qfp - q) + (ufp - u) * (ufp - u).

(** The objective as the specification writes it: the polynomial [p], and
    the sum over the observations of the squared Q and U differences. *)
Definition p (x : params) (r : R) : R :=
  let '(A, B, C) := x in A + B * r + C * r ^ 2.

Fixpoint objective_sum (I : R) (x : params) (e q u : list R) : R :=
  match e, q, u with
  | ei :: e', qi :: q', ui :: u' =>
      let ri := radians ei in
      ((I * p x ri * cos (-2 * ri) - qi) ^ 2
       + (I * p x ri * sin (-2 * ri) - ui) ^ 2)
      + objective_sum I x e' q' u'
  | _, _, _ => 0
  end.

(** Q and U are exactly what the model gives at the parameters [x]. *)
Definition generated_from (g : globals) (x : params) : Prop :=
  qlist g = map (fun el => fst (model2 g el x)) (elist g)
  /\ ulist g = map (fun el => snd (model2 g el x)) (elist g).

(** A dataset of observations all taken at elevation 0, with total
    intensity 1: the model gives Q = a and U = 0 for each of them. *)
Definition horizon (q u : list R) : globals :=
  mkGlobals (map (fun _ => 0) q) (map (fun _ => 0) q) q u
            (map (fun _ => 20151009%Z) q) (map (fun _ => 34%Z) q)
            (map (fun _ => 0) q) 1.

(** One observation that the initial guess [x0] fits exactly. *)
Definition exact1 : globals := horizon [1 / 100] [0].

(** Six observations; the first has a large Q, the second a large U. *)
Definition six : globals := horizon [5; -1; -1; -1; -1; -1] [0; 6; 0; 0; 0; 0].

(** Six observations; only the first stands out, in Q. *)
Definition six' : globals := horizon [5; -1; -1; -1; -1; -1] [0; 1; 1; 1; 1; 1].

Definition zero : params := (0, 0, 0).

(** An observation whose beam fit failed. *)
Definition nobeam : observation :=
  mkObs (Ok (mkHeaders 30 32 100 102 (1 / 10) (1 / 10) 20151009 34))
        (Raise (StarUtilError "beamfit failed")) (Ok 0) (Ok 0).

(** An observation measured through the aperture. *)
Definition goodobs : observation :=
  mkObs (Ok (mkHeaders 30 32 100 102 (1 / 10) (1 / 10) 20151009 35))
        (Ok 1) (Ok 2) (Ok 3).

(** Two observations on which the constant answer [zero] rejects
    nothing. *)
Definition pair2 : globals := horizon [1; -1] [1; -1].

(** A minimiser that always answers [x]. *)
Definition constantly (x : params) : minimizer := fun _ _ => x.

(** An NDF with a 450 um SUBARRAY header; an NDF whose header is missing
    and whose provenance names an 850 um subarray; a plain config. *)
Definition ndf450 : Configmeld.probe :=
  Configmeld.mkProbe (Ok (Some "s4a"%string)) (Ok ""%string).

Definition ndf850 : Configmeld.probe :=
  Configmeld.mkProbe (Ok None) (Ok "s8b20130213_00012_0001"%string).

Definition plain : Configmeld.probe :=
  Configmeld.mkProbe (Raise (StarUtilError "not an NDF")) (Ok ""%string).

(** ** More of the scripts

    The parts of the four scripts that decide something by themselves,
    beside the fit: pixel sizes, restart and the output table of pol2ip,
    the cleanup of configmeld, the calibration of pol2stack, the file
    names and headers of tounimap. *)

(** [a == b] on floats. *)
Definition Reqb (a b : R) : bool := if Req_dec_T a b then true else false.

(** [a / b] on floats. *)
Definition py_fdiv (a b : R) : result R :=
  if Reqb b 0 then Raise ZeroDivisionError else Ok (a / b).

Module Pol2ipMain.

(** *** Pixel sizes (script lines 427, 468-474, 486-490, 594-598) *)

(** [actpixsize != actpixsize0], where [actpixsize0] may still be [None]. *)
Definition differs (actpixsize : R) (actpixsize0 : option R) : bool :=
  match actpixsize0 with
  | None => true
  | Some a0 => negb (Reqb actpixsize a0)
  end.

(** One observation: the pixel sizes ndftrace gave for its Q and U maps. *)
Definition pixsize_obs (pix : R * R) (actpixsize0 : option R)
  : result (option R) :=
  let '(qpix, upix) := pix in
  a0 <- match actpixsize0 with
        | None => Ok (Some qpix)
        | Some _ =>
            if differs qpix actpixsize0
            then Raise (StarUtilError "{0} had pixel size {1} - was expecting {2}")
            else Ok actpixsize0
        end ;;
  if differs upix a0
  then Raise (StarUtilError "{0} had pixel size {1} - was expecting {2}")
  else Ok a0.

(** All observations, then the resampled IREF map. *)
Definition pixsize_check (obspix : list (R * R)) (irefpix : R)
  : result (option R) :=
  actpixsize0 <- foldM pixsize_obs obspix None ;;
  if differs irefpix actpixsize0
  then Raise (StarUtilError "IREF map had pixel size {0} - was expecting {1}")
  else Ok actpixsize0.

(** *** Restart (script lines 405-424, 459-466, 709-714)

    The file PARAMS is its list of lines, each already split at "=" and
    its value read as a float. *)

(** [if pixsize:] for a float or [None]. *)
Definition truthy (pixsize : option R) : bool :=
  match pixsize with
  | Some v => negb (Reqb v 0)
  | None => false
  end.

Definition dict : Type := list (string * R).

(** [d[k] = v]: the newest binding of a key is the one found. *)
Definition setitem (d : dict) (k : string) (v : R) : dict := (k, v) :: d.

Fixpoint lookup (d : dict) (k : string) : option R :=
  match d with
  | [] => None
  | (k', v) :: d' => if String.eqb k k' then Some v else lookup d' k
  end.

Definition load_params (lines : list (string * R)) : dict :=
  fold_left (fun d line => let '(par, val) := line in setitem d par val)
            lines [].

(** "Has the pixel size changed?"; [parfile] is [None] when PARAMS does
    not exist. *)
Definition newpixsize (restart : bool) (parfile : option (list (string * R)))
  (pixsize : option R) : bool :=
  if restart then
    match parfile with
    | Some lines =>
        let oldpars := load_params lines in
        match lookup oldpars "pixsize" with
        | Some old =>
            if negb (truthy pixsize)
               || match pixsize with
                  | Some v => negb (Reqb old v)
                  | None => true
                  end
            then true else false
        | None => if truthy pixsize then true else false
        end
    | None => if truthy pixsize then true else false
    end
  else false.

(** The lines written to PARAMS when the files are retained. *)
Definition save_params (diam : R) (pixsize : option R) : list (string * R) :=
  ("diam"%string, diam)
  :: match pixsize with
     | Some v => if truthy pixsize then [("pixsize"%string, v)] else []
     | None => []
     end.

(** [if not os.path.exists( mapfile ) or newpixsize:] make the map again. *)
Definition remake (mapfile_exists newpix : bool) : bool :=
  negb mapfile_exists || newpix.

(** *** The output table (script lines 675-698) *)

(** [a in l] on a list of floats. *)
Definition py_in (a : R) (l : list R) : bool := existsb (Reqb a) l.

(** The "rej" column of row [i]: [g0] holds the lists recorded before the
    fit, [g] the current ones. *)
Definition rej (g0 g : globals) (i : nat) : result nat :=
  el <- getitem (elist g0) i ;;
  if py_in el (elist g) then
    q <- getitem (qlist g0) i ;;
    if py_in q (qlist g) then
      u <- getitem (ulist g0) i ;;
      if py_in u (ulist g) then Ok 0%nat else Ok 1%nat
    else Ok 1%nat
  else Ok 1%nat.

(** The "pifit" and "pfit" columns. *)
Definition pifit (g : globals) (el : R) (x : params) : R :=
  let '(qfp, ufp) := model2 g el x in
  sqrt (qfp * qfp + ufp * ufp).

Definition pfit (g : globals) (el : R) (x : params) : result R :=
  py_fdiv (pifit g el x) (ival g).

(** The "tran" column. *)
Definition tran (tau el : R) : result R :=
  e <- py_fdiv (-(46 / 10) * (tau - 435 / 100000)) (sin (radians el)) ;;
  Ok (exp e).

End Pol2ipMain.

(** *** configmeld.py: [cleanup] (script lines 92-100) *)

Module ConfigmeldCleanup.

(** The files that exist, and whether [ParSys.cleanup()] has run. *)
Record world : Type := mkWorld {
  files : list string;
  parsys_cleaned : bool
}.

(** [os.remove(path)]: an error when the file does not exist. *)
Definition os_remove (path : string) (fs : list string) : result (list string) :=
  if existsb (String.eqb path) fs
  then Ok (filter (fun f => negb (String.eqb path f)) fs)
  else Raise (OtherError "OSError").

(** [try: os.remove(config1.tmp); os.remove(config2.tmp); ParSys.cleanup()
    except: pass]; what was done before an exception stays done. *)
Definition cleanup (w : world) : world :=
  match os_remove "config1.tmp" (files w) with
  | Raise _ => w
  | Ok f1 =>
      match os_remove "config2.tmp" f1 with
      | Raise _ => mkWorld f1 (parsys_cleaned w)
      | Ok f2 => mkWorld f2 true
      end
  end.

End ConfigmeldCleanup.

(** *** pol2stack.py: units, POL2 in the beam, calibration
    (script lines 259-268, 288-338, 381-402) *)

Module Pol2stack.

(** [units.replace(" ", "")]. *)
Fixpoint remove_spaces (s : string) : string :=
  match s with
  | EmptyString => EmptyString
  | String c s' =>
      if Ascii.eqb c " "%char then remove_spaces s'
      else String c (remove_spaces s')
  end.

(** One map: its name and the UNITS that ndftrace gave. *)
Definition check_sdf (sdf : string * string) (_ : unit) : result unit :=
  let '(name, units) := sdf in
  if negb (String.eqb (remove_spaces units) "pW")
  then Raise (StarUtilError
                ("All supplied I, Q and U maps must be in units of 'pW', but '"
                 ++ name ++ "' has units '" ++ remove_spaces units ++ "'."))
  else Ok tt.

(** [for quilist in (qin,uin,iin): for sdf in quilist: ...]. *)
Definition check_units (qin uin iin : list (string * string)) : result unit :=
  foldM (fun quilist _ => foldM check_sdf quilist tt) [qin; uin; iin] tt.

(** The loop over the INBEAM headers of the I maps, with its [break]. *)
Fixpoint ipol2_loop (inbeams : list string) (ipol2 : option bool)
  : option bool :=
  match inbeams with
  | [] => ipol2
  | inbeam :: rest =>
      if Configmeld.contains inbeam "pol" then
        match ipol2 with
        | None => ipol2_loop rest (Some true)
        | Some false => None
        | Some true => ipol2_loop rest ipol2
        end
      else
        match ipol2 with
        | None => ipol2_loop rest (Some false)
        | Some true => None
        | Some false => ipol2_loop rest ipol2
        end
  end.

Definition ipol2_of (inbeams : list string) : result bool :=
  match ipol2_loop inbeams None with
  | None => Raise (StarUtilError
                     "Mixture of POL2 and non-POL2 I maps supplied - all I maps must be the same.")
  | Some b => Ok b
  end.

(** The FILTER header as an integer; [None] when it has no value. *)
Definition filter_of (header : option Z) : Z :=
  match header with
  | Some f => f
  | None => 850%Z
  end.

(** [(fcf_qu, fcf_i)]. *)
Definition fcf (filter : Z) (ipol2 : bool) : result (R * R) :=
  if (filter =? 450)%Z then Ok (962, if ipol2 then 962 else 491)
  else if (filter =? 850)%Z then Ok (725, if ipol2 then 725 else 537)
  else Raise (StarUtilError "Invalid FILTER header value '{0} found in {1}.").

(** The [scalar=] of the kappa:cmult applied to the Q, U and I mosaics;
    [None] for a mosaic that is not multiplied. *)
Definition scalars (jy : bool) (fcf_qu fcf_i : R)
  : result (option R * option R * option R) :=
  if jy then Ok (Some fcf_qu, Some fcf_qu, Some fcf_i)
  else
    r <- py_fdiv fcf_i fcf_qu ;;
    Ok (None, None, Some r).

Definition calibration (header : option Z) (inbeams : list string) (jy : bool)
  : result (option R * option R * option R) :=
  ipol2 <- ipol2_of inbeams ;;
  '(fcf_qu, fcf_i) <- fcf (filter_of header) ipol2 ;;
  scalars jy fcf_qu fcf_i.

End Pol2stack.

(** *** tounimap.py: file names and FITS headers
    (script lines 131-140, 171-175, 201-202, 325-340) *)

Module Tounimap.

(** [s[:-k]] for a positive [k]. *)
Definition drop_end (k : nat) (s : string) : string :=
  substring 0 (String.length s - k) s.

(** [base = path[:-16]]. *)
Definition base_of (path : string) : string := drop_end 16 path.

Definition cleaned (base : string) : string := (base ++ "_con_res_cln.sdf")%string.
Definition lat (base : string) : string := (base ++ "_lat.sdf")%string.
Definition lon (base : string) : string := (base ++ "_lon.sdf")%string.
Definition outdata (base : string) : string := (base ++ "_unimap.fit")%string.

(** A FITS header: its cards, keyword and value, in order. *)
Definition header : Type := list (string * string).

Definition has_key (h : header) (kwd : string) : bool :=
  existsb (fun card => String.eqb kwd (fst card)) h.

(** [del hdu.header[kwd]]: a [KeyError] when the keyword is absent. *)
Definition delitem (kwd : string) (h : header) : result header :=
  if has_key h kwd
  then Ok (filter (fun card => negb (String.eqb kwd (fst card))) h)
  else Raise (OtherError "KeyError").

Definition unwanted : list string :=
  ["HDUCLAS1"; "HDUCLAS2"; "HDSTYPE"; "BLANK"; "BZERO"; "BSCALE";
   "LBOUND1"; "LBOUND2"]%string.

Definition striphdr (h : header) : result header :=
  foldM delitem unwanted h.

(** [myremove]: remove the file if it exists. *)
Definition myremove (path : string) (fs : list string) : list string :=
  if existsb (String.eqb path) fs
  then filter (fun f => negb (String.eqb path f)) fs
  else fs.

(** One pass of the loop that erases the files of previous runs. *)
Definition erase_previous (path : string) (fs : list string) : list string :=
  let fs1 := myremove path fs in
  let base := base_of path in
  let fs2 := myremove (lat base) fs1 in
  myremove (lon base) fs2.

(** "Remove local temp files for this chunk": three [os.remove]. *)
Definition remove_chunk (base : string) (fs : list string)
  : result (list string) :=
  fs1 <- ConfigmeldCleanup.os_remove (cleaned base) fs ;;
  fs2 <- ConfigmeldCleanup.os_remove (lat base) fs1 ;;
  ConfigmeldCleanup.os_remove (lon base) fs2.

End Tounimap.

(** Lists that are not aligned: a Q list one entry short, and Q and U
    lists with entries to spare. *)
Definition short_q : globals := mkGlobals [0; 0] [] [1] [1; 1] [] [] [] 1.

Definition long_qu : globals := mkGlobals [0] [] [1; 7] [1; 7; 9] [] [] [] 1.

(** Three observations at distinct elevations. *)
Definition three : globals :=
  mkGlobals [10; 20; 30] [] [1; 2; 3] [4; 5; 6] [] [] [] 1.

(** An NDF whose SUBARRAY header is not one of SCUBA-2's. *)
Definition ndf_other : Configmeld.probe :=
  Configmeld.mkProbe (Ok (Some "h13"%string)) (Ok ""%string).

(** A FITS header with the eight keywords that tounimap strips. *)
Definition full_header : Tounimap.header :=
  [("SIMPLE", "T"); ("HDUCLAS1", "NDF"); ("HDUCLAS2", "DATA");
   ("HDSTYPE", "NDF"); ("BLANK", "-1"); ("BZERO", "0"); ("BSCALE", "1");
   ("LBOUND1", "1"); ("LBOUND2", "1"); ("NAXIS", "2")]%string.

(** Six observations with total intensity 1, the first two taken at
    elevation 22.5 degrees and the other four at elevation 0. *)
Definition tilted (q u : list R) : globals :=
  mkGlobals [45 / 2; 45 / 2; 0; 0; 0; 0] [0; 0; 0; 0; 0; 0] q u
            [20151009; 20151009; 20151009; 20151009; 20151009; 20151009]%Z
            [34; 35; 36; 37; 38; 39]%Z [0; 0; 0; 0; 0; 0] 1.

(** Parameters, and the Q and U that the model gives for them at these
    elevations, without noise. *)
Definition tilt_true : params := (0, 8 * sqrt 2 / PI, 0).

Definition tilt_exact : globals := tilted [1; 1; 0; 0; 0; 0] [-1; -1; 0; 0; 0; 0].

(** The same data with 4 added to the Q value of the first observation,
    and a least-squares solution for them. *)
Definition tilt_spiked : globals :=
  tilted [1 + 4; 1; 0; 0; 0; 0] [-1; -1; 0; 0; 0; 0].

Definition tilt_fit : params := (0, 16 * sqrt 2 / PI, 0).


(** ** Lists, loops and real numbers *)

Lemma bind_ok {A B : Type} (c : result A) (k : A -> result B) (a : A) :
  c = Ok a -> bind c k = k a.
Proof. intros ->. reflexivity. Qed.

Lemma getitem_nth {A : Type} (d : A) (l : list A) (i : nat) :
  (i < length l)%nat -> getitem l i = Ok (nth i l d).
Proof.
  intros Hi. unfold getitem.
  destruct (nth_error l i) as [a|] eqn:E.
  - f_equal. symmetry. apply nth_error_nth. exact E.
  - apply nth_error_None in E. lia.
Qed.

Lemma getitem_out {A : Type} (l : list A) (i : nat) :
  (length l <= i)%nat -> getitem l i = Raise IndexError.
Proof.
  intros Hi. unfold getitem.
  apply nth_error_None in Hi. rewrite Hi. reflexivity.
Qed.

(** A loop whose body never raises is a plain fold. *)
Lemma foldM_ok {A S : Type} (body : A -> S -> result S) (step : A -> S -> S)
  (l : list A) :
  (forall a s, In a l -> body a s = Ok (step a s)) ->
  forall s, foldM body l s = Ok (fold_left (fun s a => step a s) l s).
Proof.
  induction l as [|a l IH]; intros H s; simpl.
  - reflexivity.
  - rewrite H by (left; reflexivity).
    apply IH. intros b t Hb. apply H. right. exact Hb.
Qed.

Lemma foldM_app {A S : Type} (body : A -> S -> result S) (l1 l2 : list A)
  (s : S) :
  foldM body (l1 ++ l2) s = bind (foldM body l1 s) (foldM body l2).
Proof.
  revert s. induction l1 as [|a l1 IH]; intros s; simpl.
  - reflexivity.
  - destruct (body a s); simpl; [apply IH | reflexivity].
Qed.

Lemma in_range (i n : nat) : In i (range n) <-> (i < n)%nat.
Proof. unfold range. rewrite in_seq. lia. Qed.

Lemma Rltb_true (a b : R) : Rltb a b = true <-> a < b.
Proof. unfold Rltb. destruct (Rlt_dec a b); split; intros; try easy. Qed.

Lemma Rltb_false (a b : R) : Rltb a b = false <-> b <= a.
Proof.
  unfold Rltb. destruct (Rlt_dec a b); split; intros; try easy; lra.
Qed.

Lemma radians_0 : radians 0 = 0.
Proof. unfold radians. lra. Qed.

Lemma model2_horizon (g : globals) (a b c : R) :
  model2 g 0 (a, b, c) = (ival g * a, 0).
Proof.
  unfold model2. rewrite radians_0.
  replace (-2 * 0) with 0 by lra. rewrite cos_0, sin_0.
  f_equal; lra.
Qed.

(** ** What [objfun], [resid] and [reject] compute on aligned lists *)

Lemma model_ok (g : globals) (x : params) (i : nat) :
  (i < length (elist g))%nat ->
  model g i x = Ok (model2 g (nth i (elist g) 0) x).
Proof.
  intros Hi. unfold model. rewrite (getitem_nth 0) by exact Hi. reflexivity.
Qed.

Lemma dqu_at_ok (g : globals) (useq : bool) (x : params) (i : nat) :
  aligned g -> (i < length (elist g))%nat ->
  dqu_at g useq x i = Ok (residual g useq x i).
Proof.
  intros [Hq Hu] Hi. unfold dqu_at, residual.
  rewrite model_ok by exact Hi. simpl.
  destruct (model2 g (nth i (elist g) 0) x) as [qfp ufp].
  destruct useq.
  - rewrite (getitem_nth 0) by lia. reflexivity.
  - rewrite (getitem_nth 0) by lia. reflexivity.
Qed.

Lemma fold_sq_nonneg (f : nat -> R) (l : list nat) (acc : R) :
  0 <= acc -> 0 <= fold_left (fun res i => res + f i * f i) l acc.
Proof.
  revert acc. induction l as [|i l IH]; intros acc Hacc; simpl.
  - exact Hacc.
  - apply IH. pose proof (Rle_0_sqr (f i)) as H. unfold Rsqr in H. lra.
Qed.

Lemma sumsq_nonneg (g : globals) (useq : bool) (x : params) :
  0 <= sumsq g useq x.
Proof. apply fold_sq_nonneg. lra. Qed.

Lemma resid_loop_ok (g : globals) (useq : bool) (x : params) :
  aligned g ->
  foldM (fun i res => dqu <- dqu_at g useq x i ;; Ok (res + dqu * dqu))
        (range (length (elist g))) 0
  = Ok (sumsq g useq x).
Proof.
  intros Hal. unfold sumsq.
  apply (foldM_ok _ (fun i res => res + residual g useq x i * residual g useq x i)).
  intros i res Hi. apply in_range in Hi.
  rewrite dqu_at_ok by assumption. reflexivity.
Qed.

(** [resid] on a non-empty aligned dataset: the root of the mean square. *)
Lemma resid_ok (g : globals) (useq : bool) (x : params) :
  aligned g -> elist g <> [] ->
  resid g useq x = Ok (sqrt (sumsq g useq x / INR (length (elist g)))).
Proof.
  intros Hal Hne. unfold resid. rewrite resid_loop_ok by exact Hal.
  pose proof (sumsq_nonneg g useq x) as Hs.
  destruct (elist g) as [|e es] eqn:E; [congruence|].
  change (length (e :: es)) with (S (length es)).
  assert (Hn : 0 < INR (S (length es))) by (apply lt_0_INR; lia).
  assert (Hq : 0 <= sumsq g useq x / INR (S (length es))).
  { apply Rmult_le_pos; [exact Hs|]. left. apply Rinv_0_lt_compat. exact Hn. }
  cbv [bind py_div py_sqrt].
  destruct (Rlt_dec _ 0) as [Hneg|_]; [lra | reflexivity].
Qed.

(** [resid] on the empty dataset: the division raises. *)
Lemma resid_empty (g : globals) (useq : bool) (x : params) :
  elist g = [] -> resid g useq x = Raise ZeroDivisionError.
Proof. intros E. unfold resid. rewrite E. reflexivity. Qed.

Lemma reject_step_ok (g : globals) (useq : bool) (lim : R) (x : params)
  (i : nat) (n : newlists) :
  aligned g -> (i < length (elist g))%nat ->
  reject_step g useq lim x i n =
  Ok (if Rltb (Rabs (residual g useq x i)) lim
      then mkNew (newqlist n ++ [nth i (qlist g) 0])
                 (newulist n ++ [nth i (ulist g) 0])
                 (newelist n ++ [nth i (elist g) 0])
      else n).
Proof.
  intros Hal Hi. unfold reject_step.
  rewrite dqu_at_ok by assumption. simpl.
  destruct Hal as [Hq Hu].
  destruct (Rltb _ lim); [|reflexivity].
  rewrite (getitem_nth 0) by lia. simpl.
  rewrite (getitem_nth 0) by lia. simpl.
  rewrite (getitem_nth 0) by lia. reflexivity.
Qed.

Lemma reject_loop_ok (g : globals) (useq : bool) (lim : R) (x : params)
  (l : list nat) :
  aligned g -> Forall (fun i => (i < length (elist g))%nat) l ->
  forall n,
    foldM (reject_step g useq lim x) l n =
    let idx := filter (fun i => Rltb (Rabs (residual g useq x i)) lim) l in
    Ok (mkNew (newqlist n ++ pick 0 idx (qlist g))
              (newulist n ++ pick 0 idx (ulist g))
              (newelist n ++ pick 0 idx (elist g))).
Proof.
  intros Hal. induction l as [|i l IH]; intros Hl n; simpl.
  - rewrite !app_nil_r. destruct n; reflexivity.
  - inversion Hl as [|? ? Hi Hl']; subst.
    rewrite reject_step_ok by assumption.
    rewrite (IH Hl'). simpl.
    destruct (Rltb _ lim); simpl.
    + rewrite <- !app_assoc. reflexivity.
    + reflexivity.
Qed.

(** A pass of [reject] never raises on aligned lists, and restricts
    elevation, Q and U to the observations of [kept]. *)
Lemma reject_ok (g : globals) (useq : bool) (lim : R) (x : params) :
  aligned g -> reject g useq lim x = Ok (restrict (kept g useq lim x) g).
Proof.
  intros Hal. unfold reject.
  rewrite reject_loop_ok; [reflexivity | exact Hal |].
  apply Forall_forall. intros i Hi. apply in_range in Hi. exact Hi.
Qed.

Lemma pick_length {A : Type} (d : A) (idx : list nat) (l : list A) :
  length (pick d idx l) = length idx.
Proof. unfold pick. apply length_map. Qed.

Lemma restrict_aligned (idx : list nat) (g : globals) : aligned (restrict idx g).
Proof. unfold aligned, restrict; simpl. rewrite !pick_length. split; reflexivity. Qed.

Lemma fold_left_shift {S : Type} (f : S -> nat -> S) (k n : nat) (s : S) :
  fold_left f (seq (Datatypes.S k) n) s
  = fold_left (fun s i => f s (Datatypes.S i)) (seq k n) s.
Proof.
  revert k s. induction n as [|n IH]; intros k s; simpl.
  - reflexivity.
  - apply IH.
Qed.

Lemma sqdiff_spec (g : globals) (x : params) (e q u : R) :
  sqdiff g x e q u =
  (ival g * p x (radians e) * cos (-2 * radians e) - q) ^ 2
  + (ival g * p x (radians e) * sin (-2 * radians e) - u) ^ 2.
Proof.
  destruct x as [[a b] c]. unfold sqdiff, model2, p. ring.
Qed.

Lemma sqdiff_nonneg (g : globals) (x : params) (e q u : R) :
  0 <= sqdiff g x e q u.
Proof.
  unfold sqdiff. destruct (model2 g e x) as [qfp ufp].
  pose proof (Rle_0_sqr (qfp - q)) as H1.
  pose proof (Rle_0_sqr (ufp - u)) as H2.
  unfold Rsqr in *. lra.
Qed.

Lemma objfun_loop_ok (g : globals) (x : params) :
  aligned g ->
  objfun g x =
  Ok (fold_left (fun res i => res + sqdiff g x (nth i (elist g) 0)
                                      (nth i (qlist g) 0) (nth i (ulist g) 0))
                (range (length (elist g))) 0).
Proof.
  intros [Hq Hu]. unfold objfun.
  apply (foldM_ok _ (fun i res => res + sqdiff g x (nth i (elist g) 0)
                                   (nth i (qlist g) 0) (nth i (ulist g) 0))).
  intros i res Hi. apply in_range in Hi.
  rewrite model_ok by exact Hi. simpl.
  unfold sqdiff. destruct (model2 g (nth i (elist g) 0) x) as [qfp ufp].
  rewrite (getitem_nth 0) by lia. simpl.
  rewrite (getitem_nth 0) by lia. reflexivity.
Qed.

Lemma fold_objective (g : globals) (x : params) (e q u : list R) :
  length q = length e -> length u = length e ->
  forall acc,
    fold_left (fun res i => res + sqdiff g x (nth i e 0) (nth i q 0) (nth i u 0))
              (seq 0 (length e)) acc
    = acc + objective_sum (ival g) x e q u.
Proof.
  revert q u. induction e as [|a e IH]; intros q u Hq Hu acc.
  - simpl. lra.
  - destruct q as [|b q]; [discriminate|]. destruct u as [|c u]; [discriminate|].
    simpl length. cbn [seq fold_left]. rewrite fold_left_shift.
    cbn [nth]. rewrite (IH q u) by (simpl in *; lia).
    cbn [objective_sum]. rewrite sqdiff_spec. lra.
Qed.

Lemma objective_sum_nonneg (I : R) (x : params) (e q u : list R) :
  0 <= objective_sum I x e q u.
Proof.
  revert q u. induction e as [|a e IH]; intros q u; simpl; [lra|].
  destruct q as [|b q]; [lra|]. destruct u as [|c u]; [lra|].
  specialize (IH q u).
  pose proof (pow2_ge_0 (I * p x (radians a) * cos (-2 * radians a) - b)).
  pose proof (pow2_ge_0 (I * p x (radians a) * sin (-2 * radians a) - c)).
  lra.
Qed.

(** [objfun] on aligned lists: the sum the specification writes. *)
Lemma objfun_ok (g : globals) (x : params) :
  aligned g ->
  objfun g x = Ok (objective_sum (ival g) x (elist g) (qlist g) (ulist g)).
Proof.
  intros Hal. rewrite objfun_loop_ok by exact Hal.
  destruct Hal as [Hq Hu]. unfold range.
  rewrite fold_objective by assumption. f_equal. lra.
Qed.

(** ** Selections of observations *)

Lemma sorted_seq (k n : nat) : StronglySorted lt (seq k n).
Proof.
  revert k. induction n as [|n IH]; intros k; simpl; constructor.
  - apply IH.
  - apply Forall_forall. intros i Hi. apply in_seq in Hi. lia.
Qed.

Lemma sorted_filter (f : nat -> bool) (l : list nat) :
  StronglySorted lt l -> StronglySorted lt (filter f l).
Proof.
  induction 1 as [|a l Hl IH Ha]; simpl; [constructor|].
  destruct (f a); [|exact IH].
  constructor; [exact IH|].
  apply Forall_forall. intros i Hi. apply filter_In in Hi.
  rewrite Forall_forall in Ha. apply Ha. tauto.
Qed.

Lemma sorted_nth (l : list nat) :
  StronglySorted lt l ->
  forall i j d, (i < j)%nat -> (j < length l)%nat -> (nth i l d < nth j l d)%nat.
Proof.
  induction 1 as [|a l Hl IH Ha]; intros i j d Hij Hj; simpl in Hj; [lia|].
  destruct j as [|j]; [lia|]. destruct i as [|i]; simpl.
  - rewrite Forall_forall in Ha. apply Ha. apply nth_In. lia.
  - apply IH; lia.
Qed.

Lemma sorted_pick (idx1 idx2 : list nat) :
  StronglySorted lt idx1 -> StronglySorted lt idx2 ->
  Forall (fun j => (j < length idx1)%nat) idx2 ->
  StronglySorted lt (pick 0%nat idx2 idx1).
Proof.
  intros H1 H2. induction H2 as [|j idx2 H2 IH Hj]; intros Hr; simpl.
  - constructor.
  - inversion Hr as [|? ? Hj1 Hr']; subst. constructor; [apply IH; exact Hr'|].
    apply Forall_forall. intros v Hv. unfold pick in Hv.
    apply in_map_iff in Hv. destruct Hv as [j' [<- Hj']].
    rewrite Forall_forall in Hj, Hr'.
    apply sorted_nth; [exact H1 | apply Hj; exact Hj' | apply Hr'; exact Hj'].
Qed.

Lemma pick_in_range (n : nat) (idx1 idx2 : list nat) :
  Forall (fun i => (i < n)%nat) idx1 ->
  Forall (fun j => (j < length idx1)%nat) idx2 ->
  Forall (fun i => (i < n)%nat) (pick 0%nat idx2 idx1).
Proof.
  intros H1 H2. apply Forall_forall. intros v Hv. unfold pick in Hv.
  apply in_map_iff in Hv. destruct Hv as [j [<- Hj]].
  rewrite Forall_forall in H1, H2. apply H1. apply nth_In. apply H2. exact Hj.
Qed.

Lemma pick_pick {A : Type} (d : A) (idx1 idx2 : list nat) (l : list A) :
  Forall (fun j => (j < length idx1)%nat) idx2 ->
  pick d idx2 (pick d idx1 l) = pick d (pick 0%nat idx2 idx1) l.
Proof.
  intros Hr. unfold pick. rewrite map_map. apply map_ext_in.
  intros j Hj. rewrite Forall_forall in Hr. specialize (Hr j Hj).
  rewrite (nth_indep _ d (nth 0 l d)) by (rewrite length_map; exact Hr).
  apply (map_nth (fun i => nth i l d)).
Qed.

Lemma pick_all {A : Type} (d : A) (l : list A) :
  pick d (seq 0 (length l)) l = l.
Proof.
  unfold pick. apply (nth_ext _ _ d d).
  - rewrite length_map, length_seq. reflexivity.
  - intros i Hi. rewrite length_map, length_seq in Hi.
    rewrite (nth_indep _ d (nth 0 l d)) by (rewrite length_map, length_seq; exact Hi).
    rewrite (map_nth (fun i => nth i l d)). rewrite seq_nth by exact Hi.
    reflexivity.
Qed.

Lemma selection_refl (g : globals) : aligned g -> selection_of g g.
Proof.
  intros [Hq Hu]. exists (seq 0 (length (elist g))).
  split; [apply sorted_seq|]. split.
  - apply Forall_forall. intros i Hi. apply in_seq in Hi. lia.
  - repeat split.
    + symmetry. apply pick_all.
    + rewrite <- Hq. symmetry. apply pick_all.
    + rewrite <- Hu. symmetry. apply pick_all.
Qed.

Lemma selection_trans (g0 g1 g2 : globals) :
  selection_of g0 g1 -> selection_of g1 g2 -> selection_of g0 g2.
Proof.
  intros [idx1 [S1 [R1 [E1 [Q1 U1]]]]] [idx2 [S2 [R2 [E2 [Q2 U2]]]]].
  assert (R2' : Forall (fun j => (j < length idx1)%nat) idx2).
  { rewrite E1, pick_length in R2. exact R2. }
  exists (pick 0%nat idx2 idx1).
  split; [apply sorted_pick; assumption|].
  split; [apply pick_in_range; assumption|].
  rewrite E2, Q2, U2, E1, Q1, U1. rewrite !pick_pick by exact R2'. auto.
Qed.

Lemma selection_aligned (g0 g : globals) : selection_of g0 g -> aligned g.
Proof.
  intros [idx [_ [_ [E [Q U]]]]]. unfold aligned.
  rewrite E, Q, U, !pick_length. auto.
Qed.

Lemma kept_sorted (g : globals) (useq : bool) (lim : R) (x : params) :
  StronglySorted lt (kept g useq lim x).
Proof. apply sorted_filter, sorted_seq. Qed.

Lemma kept_in_range (g : globals) (useq : bool) (lim : R) (x : params) :
  Forall (fun i => (i < length (elist g))%nat) (kept g useq lim x).
Proof.
  apply Forall_forall. intros i Hi. apply filter_In in Hi.
  apply in_range. tauto.
Qed.

Lemma restrict_selection (g : globals) (useq : bool) (lim : R) (x : params) :
  selection_of g (restrict (kept g useq lim x) g).
Proof.
  exists (kept g useq lim x).
  split; [apply kept_sorted|]. split; [apply kept_in_range|]. simpl. auto.
Qed.

(** An observation is kept exactly when its residual is below the limit. *)
Lemma kept_iff (g : globals) (useq : bool) (lim : R) (x : params) (i : nat) :
  In i (kept g useq lim x) <->
  (i < length (elist g))%nat /\ Rabs (residual g useq x i) < lim.
Proof.
  unfold kept. rewrite filter_In, in_range, Rltb_true. tauto.
Qed.

(** ** Passes, rounds and the loop *)

Lemma reject_round_inv (g g2 : globals) (x : params) (qrms urms : R) :
  aligned g -> reject_round g x = Ok (g2, qrms, urms) ->
  resid g true x = Ok qrms
  /\ resid (restrict (kept g true (2 * qrms) x) g) false x = Ok urms
  /\ g2 = restrict (kept (restrict (kept g true (2 * qrms) x) g) false
                         (2 * urms) x)
                   (restrict (kept g true (2 * qrms) x) g).
Proof.
  intros Hal. unfold reject_round.
  destruct (resid g true x) as [r|e] eqn:Eq; simpl; [|discriminate].
  rewrite reject_ok by exact Hal. simpl.
  destruct (resid _ false x) as [r'|e] eqn:Eu; simpl; [|discriminate].
  rewrite reject_ok by apply restrict_aligned. simpl.
  intros H. inversion H; subst. auto.
Qed.

Lemma reject_round_selection (g g2 : globals) (x : params) (qrms urms : R) :
  aligned g -> reject_round g x = Ok (g2, qrms, urms) -> selection_of g g2.
Proof.
  intros Hal H. apply reject_round_inv in H; [|exact Hal].
  destruct H as [_ [_ ->]].
  eapply selection_trans; apply restrict_selection.
Qed.

(** A round leaves the four lists of the table untouched. *)
Lemma reject_round_frame (g g2 : globals) (x : params) (qrms urms : R) :
  aligned g -> reject_round g x = Ok (g2, qrms, urms) ->
  alist g2 = alist g /\ wvmlist g2 = wvmlist g
  /\ utlist g2 = utlist g /\ obsnumlist g2 = obsnumlist g /\ ival g2 = ival g.
Proof.
  intros Hal H. apply reject_round_inv in H; [|exact Hal].
  destruct H as [_ [_ ->]]. simpl. auto.
Qed.

Lemma fit_iteration_selection (minimize : minimizer) (i : nat)
  (st st' : fitstate) :
  aligned (fit_globals st) -> fit_iteration minimize i st = Ok st' ->
  selection_of (fit_globals st) (fit_globals st')
  /\ fit_msgs st' = fit_msgs st ++ [((i + 1)%nat, length (elist (fit_globals st)))].
Proof.
  intros Hal. unfold fit_iteration.
  destruct (reject_round _ _) as [[[g2 qrms] urms]|e] eqn:E; simpl; [|discriminate].
  intros H. inversion H; subst; simpl. split; [|reflexivity].
  eapply reject_round_selection; eassumption.
Qed.

Lemma iterations_selection (minimize : minimizer) (l : list nat) :
  forall st st',
    aligned (fit_globals st) -> foldM (fit_iteration minimize) l st = Ok st' ->
    selection_of (fit_globals st) (fit_globals st')
    /\ map fst (fit_msgs st') = map fst (fit_msgs st) ++ map (fun i => (i + 1)%nat) l.
Proof.
  induction l as [|i l IH]; intros st st' Hal H; simpl in H.
  - inversion H; subst. split; [apply selection_refl; exact Hal|].
    simpl. rewrite app_nil_r. reflexivity.
  - destruct (fit_iteration minimize i st) as [st1|e] eqn:E; [|discriminate].
    apply fit_iteration_selection in E; [|exact Hal]. destruct E as [S1 M1].
    apply IH in H; [|eapply selection_aligned; exact S1].
    destruct H as [S2 M2]. split; [eapply selection_trans; eassumption|].
    rewrite M2, M1, map_app, <- app_assoc. reflexivity.
Qed.

(** ** The observation loop keeps the seven lists aligned *)

Lemma del_last_append {A : Type} (l : list A) (a : A) :
  del_last (append l a) = Ok l.
Proof.
  unfold del_last, append.
  destruct (l ++ [a]) as [|b t] eqn:E.
  - destruct l; discriminate.
  - rewrite <- E, removelast_last. reflexivity.
Qed.

Lemma length_append {A : Type} (l : list A) (a : A) :
  length (append l a) = S (length l).
Proof. unfold append. rewrite length_app. simpl. lia. Qed.

Lemma gather_obs_aligned7 (diam : R) (o : observation) (g g' : globals) :
  aligned7 g -> gather_obs diam o g = Ok g' -> aligned7 g'.
Proof.
  intros [[Hq Hu] [Ha [Ht [Ho Hw]]]]. unfold gather_obs.
  destruct (fits o) as [h|e]; simpl; [|discriminate].
  destruct (Rleb diam 0).
  - destruct (beamfit o) as [pipeak|e].
    + intros H. inversion H; subst. unfold aligned7, aligned; simpl.
      rewrite !length_append. lia.
    + destruct e; try discriminate.
      rewrite !del_last_append. simpl.
      intros H. inversion H; subst. unfold aligned7, aligned; simpl. lia.
  - destruct (aperadd_q o) as [q|e]; simpl; [|discriminate].
    destruct (aperadd_u o) as [u|e]; simpl; [|discriminate].
    intros H. inversion H; subst. unfold aligned7, aligned; simpl.
    rewrite !length_append. lia.
Qed.

Lemma gather_obs_rows (diam : R) (o : observation) (rows : list row) (i : R) :
  gather_obs diam o (lists_of rows i)
  = (r <- row_of diam o ;; Ok (lists_of (add_row r rows) i)).
Proof.
  unfold gather_obs, row_of.
  destruct (fits o) as [h|e]; simpl; [|reflexivity].
  destruct (Rleb diam 0).
  - destruct (beamfit o) as [pipeak|e]; simpl.
    + unfold lists_of, append. rewrite !map_app. reflexivity.
    + destruct e; try reflexivity.
      rewrite !del_last_append. reflexivity.
  - destruct (aperadd_q o) as [q|e]; simpl; [|reflexivity].
    destruct (aperadd_u o) as [u|e]; simpl; [|reflexivity].
    unfold lists_of, append. rewrite !map_app. reflexivity.
Qed.

Lemma gather_rows_from (diam : R) (obslist : list observation) :
  forall rows i,
    foldM (gather_obs diam) obslist (lists_of rows i)
    = (rows' <- foldM (fun o rows => r <- row_of diam o ;; Ok (add_row r rows))
                      obslist rows ;;
       Ok (lists_of rows' i)).
Proof.
  induction obslist as [|o l IH]; intros rows i; simpl; [reflexivity|].
  rewrite gather_obs_rows.
  destruct (row_of diam o) as [r|e]; simpl; [apply IH | reflexivity].
Qed.

(** The seven lists are the columns of the table of retained
    observations: entry [i] of each comes from the same observation. *)
Lemma gather_rows (diam : R) (obslist : list observation) :
  gather diam obslist = (rows <- rows_of diam obslist ;; Ok (lists_of rows 0)).
Proof. unfold gather, rows_of. apply (gather_rows_from diam obslist [] 0). Qed.

Lemma foldM_invariant {A S : Type} (body : A -> S -> result S) (P : S -> Prop) :
  (forall a s s', P s -> body a s = Ok s' -> P s') ->
  forall l s s', P s -> foldM body l s = Ok s' -> P s'.
Proof.
  intros Hstep. induction l as [|a l IH]; intros s s' Hs H; simpl in H.
  - inversion H; subst. exact Hs.
  - destruct (body a s) as [s1|e] eqn:E; [|discriminate].
    eapply IH; [|exact H]. eapply Hstep; eassumption.
Qed.

Lemma gather_aligned7 (diam : R) (obslist : list observation) (g : globals) :
  gather diam obslist = Ok g -> aligned7 g.
Proof.
  unfold gather. apply (foldM_invariant (gather_obs diam) aligned7).
  - intros o s s'. apply gather_obs_aligned7.
  - unfold aligned7, aligned, initial; simpl. auto.
Qed.

(** ** Evaluating the code on observations at elevation 0 *)

Lemma residual_at0 (g : globals) (useq : bool) (a b c : R) (i : nat) :
  nth i (elist g) 0 = 0 ->
  residual g useq (a, b, c) i =
  if useq then ival g * a - nth i (qlist g) 0 else 0 - nth i (ulist g) 0.
Proof.
  intros E. unfold residual. rewrite E, model2_horizon.
  destruct useq; reflexivity.
Qed.

Lemma sqrt_between (v lo hi : R) :
  0 <= lo -> lo * lo < v -> v < hi * hi -> 0 <= hi -> lo < sqrt v < hi.
Proof.
  intros Hlo H1 H2 Hhi. split.
  - rewrite <- (sqrt_square lo) at 1 by exact Hlo.
    apply sqrt_lt_1_alt. nra.
  - rewrite <- (sqrt_square hi) at 1 by exact Hhi.
    apply sqrt_lt_1_alt. nra.
Qed.

Lemma Rabs_lt_iff (r lim : R) : Rabs r < lim <-> - lim < r < lim.
Proof.
  unfold Rabs. destruct (Rcase_abs r); split; intros; lra.
Qed.

Ltac abs_lra :=
  unfold Rabs;
  repeat match goal with |- context [Rcase_abs ?r] => destruct (Rcase_abs r) end;
  lra.

Ltac decide_Rltb :=
  repeat match goal with
  | |- context [Rltb ?a ?b] =>
      first [ replace (Rltb a b) with true
                by (symmetry; apply Rltb_true; abs_lra)
            | replace (Rltb a b) with false
                by (symmetry; apply Rltb_false; abs_lra) ]
  end.

Ltac eval_lists :=
  unfold six, six', exact1, horizon, zero, x0;
  cbn [restrict pick kept range
       elist alist qlist ulist utlist obsnumlist wvmlist ival
       map length seq nth filter fold_left].

Ltac eval_residuals :=
  repeat (rewrite residual_at0 by reflexivity);
  cbn [restrict pick map elist alist qlist ulist utlist obsnumlist wvmlist
       ival nth].

Lemma six_aligned7 : aligned7 six.
Proof. unfold aligned7, aligned. simpl. auto 10. Qed.

Lemma six_resid_Q : resid six true zero = Ok (sqrt 5).
Proof.
  rewrite resid_ok; [| split; reflexivity | discriminate].
  do 2 f_equal. unfold sumsq. eval_lists. eval_residuals.
  simpl INR. lra.
Qed.

Lemma resid_value (g : globals) (useq : bool) (x : params) (v : R) :
  aligned g -> elist g <> [] ->
  sumsq g useq x / INR (length (elist g)) = v ->
  resid g useq x = Ok (sqrt v).
Proof. intros Hal Hne <-. apply resid_ok; assumption. Qed.

Lemma reject_round_empty (g : globals) (x : params) :
  elist g = [] -> reject_round g x = Raise ZeroDivisionError.
Proof.
  intros E. unfold reject_round. rewrite resid_empty by exact E. reflexivity.
Qed.

Lemma sqrt5_bounds : 2 < sqrt 5 < 5 / 2.
Proof. apply sqrt_between; lra. Qed.

Lemma sqrt36_5_bounds : 5 / 2 < sqrt (36 / 5) < 3.
Proof. apply sqrt_between; lra. Qed.

Lemma six_kept_Q : kept six true (2 * sqrt 5) zero = [1; 2; 3; 4; 5]%nat.
Proof.
  pose proof sqrt5_bounds as Hb.
  unfold kept. eval_lists. eval_residuals. decide_Rltb. reflexivity.
Qed.

Lemma six_resid_U :
  resid (restrict [1; 2; 3; 4; 5]%nat six) false zero = Ok (sqrt (36 / 5)).
Proof.
  apply resid_value; [apply restrict_aligned | discriminate |].
  unfold sumsq. eval_lists. eval_residuals. simpl INR. lra.
Qed.

Lemma six_kept_U :
  kept (restrict [1; 2; 3; 4; 5]%nat six) false (2 * sqrt (36 / 5)) zero
  = [1; 2; 3; 4]%nat.
Proof.
  pose proof sqrt36_5_bounds as Hb.
  unfold kept. eval_lists. eval_residuals. decide_Rltb. reflexivity.
Qed.

Lemma six_round :
  reject_round six zero
  = Ok (restrict [1; 2; 3; 4]%nat (restrict [1; 2; 3; 4; 5]%nat six),
        sqrt 5, sqrt (36 / 5)).
Proof.
  unfold reject_round. rewrite six_resid_Q. cbn [bind].
  rewrite reject_ok by (split; reflexivity). cbn [bind].
  rewrite six_kept_Q, six_resid_U. cbn [bind].
  rewrite reject_ok by apply restrict_aligned. cbn [bind].
  rewrite six_kept_U. reflexivity.
Qed.

(** [zero] is a least-squares solution for [six]. *)
Lemma six_objfun (a b c : R) :
  objfun six (a, b, c) = Ok (6 * a * a + 66).
Proof.
  rewrite objfun_ok by (split; reflexivity).
  f_equal. unfold six, horizon, p. cbn [elist qlist ulist ival map objective_sum].
  rewrite radians_0. replace (-2 * 0) with 0 by lra. rewrite cos_0, sin_0.
  unfold p. ring.
Qed.

Lemma six'_aligned7 : aligned7 six'.
Proof. unfold aligned7, aligned. simpl. auto 10. Qed.

Lemma six'_resid_Q : resid six' true zero = Ok (sqrt 5).
Proof.
  apply resid_value; [split; reflexivity | discriminate |].
  unfold sumsq. eval_lists. eval_residuals. simpl INR. lra.
Qed.

Lemma six'_resid_U : resid (drop_obs 0 six') false zero = Ok (sqrt 1).
Proof.
  apply resid_value; [split; reflexivity | discriminate |].
  unfold sumsq, drop_obs, remove_nth. eval_lists.
  cbn [firstn skipn app length seq fold_left]. eval_residuals. simpl INR. lra.
Qed.

Lemma exact1_aligned7 : aligned7 exact1.
Proof. unfold aligned7, aligned. simpl. auto 10. Qed.

Lemma exact1_residual_Q (a b c : R) :
  residual exact1 true (a, b, c) 0 = a - 1 / 100.
Proof. rewrite residual_at0 by reflexivity. simpl. lra. Qed.

Lemma exact1_resid_Q (a b c : R) :
  resid exact1 true (a, b, c) = Ok (Rabs (a - 1 / 100)).
Proof.
  rewrite resid_ok; [| split; reflexivity | discriminate ].
  f_equal. rewrite <- sqrt_Rsqr_abs. f_equal.
  unfold sumsq, Rsqr. eval_lists. rewrite exact1_residual_Q. simpl INR. lra.
Qed.

Lemma exact1_kept_Q (a b c : R) :
  kept exact1 true (2 * Rabs (a - 1 / 100)) (a, b, c)
  = if Req_dec_T a (1 / 100) then [] else [0%nat].
Proof.
  unfold kept. eval_lists. rewrite exact1_residual_Q.
  destruct (Req_dec_T a (1 / 100)) as [E|N].
  - replace (Rltb _ _) with false; [reflexivity|].
    symmetry. apply Rltb_false. subst a. abs_lra.
  - replace (Rltb _ _) with true; [reflexivity|].
    symmetry. apply Rltb_true. abs_lra.
Qed.

(** ** Data generated by the model *)

Lemma fold_left_zero (f : nat -> R) (l : list nat) :
  (forall i, In i l -> f i = 0) ->
  fold_left (fun res i => res + f i) l 0 = 0.
Proof.
  induction l as [|i l IH]; intros H; simpl; [reflexivity|].
  rewrite (H i) by (left; reflexivity).
  replace (0 + 0) with 0 by lra. apply IH.
  intros j Hj. apply H. right. exact Hj.
Qed.

Lemma generated_aligned (g : globals) (x : params) :
  generated_from g x -> aligned g.
Proof.
  intros [Hq Hu]. unfold aligned. rewrite Hq at 1. rewrite Hu at 1.
  rewrite !length_map. auto.
Qed.

Lemma nth_map_in {A B : Type} (f : A -> B) (l : list A) (i : nat) (d : A) (d' : B) :
  (i < length l)%nat -> nth i (map f l) d' = f (nth i l d).
Proof.
  intros Hi. rewrite (nth_indep _ d' (f d)) by (rewrite length_map; exact Hi).
  apply map_nth.
Qed.

Lemma generated_residual (g : globals) (x : params) (useq : bool) (i : nat) :
  generated_from g x -> (i < length (elist g))%nat -> residual g useq x i = 0.
Proof.
  intros [Hq Hu] Hi. unfold residual.
  destruct (model2 g (nth i (elist g) 0) x) as [qfp ufp] eqn:E.
  destruct useq.
  - rewrite Hq, (nth_map_in _ _ _ 0) by exact Hi. rewrite E. simpl. lra.
  - rewrite Hu, (nth_map_in _ _ _ 0) by exact Hi. rewrite E. simpl. lra.
Qed.

Lemma generated_sumsq (g : globals) (x : params) (useq : bool) :
  generated_from g x -> sumsq g useq x = 0.
Proof.
  intros Hg. unfold sumsq.
  apply (fold_left_zero (fun i => residual g useq x i * residual g useq x i)).
  intros i Hi. apply in_range in Hi.
  rewrite generated_residual by assumption. lra.
Qed.

Lemma generated_objfun (g : globals) (x : params) :
  generated_from g x -> objfun g x = Ok 0.
Proof.
  intros Hg. rewrite objfun_loop_ok by (eapply generated_aligned; exact Hg).
  f_equal.
  apply (fold_left_zero (fun i => sqdiff g x (nth i (elist g) 0)
                                    (nth i (qlist g) 0) (nth i (ulist g) 0))).
  intros i Hi. apply in_range in Hi.
  pose proof (generated_residual g x true i Hg Hi) as Rq.
  pose proof (generated_residual g x false i Hg Hi) as Ru.
  unfold residual in Rq, Ru. unfold sqdiff.
  destruct (model2 g (nth i (elist g) 0) x) as [qfp ufp].
  rewrite Rq, Ru. lra.
Qed.

Lemma generated_resid (g : globals) (x : params) (useq : bool) :
  elist g <> [] -> generated_from g x -> resid g useq x = Ok 0.
Proof.
  intros Hne Hg. rewrite <- sqrt_0.
  apply resid_value; [eapply generated_aligned; exact Hg | exact Hne |].
  rewrite generated_sumsq by exact Hg. unfold Rdiv. apply Rmult_0_l.
Qed.

Lemma exact1_generated : generated_from exact1 x0.
Proof.
  unfold generated_from, exact1, horizon, x0.
  cbn [elist qlist ulist map]. rewrite model2_horizon.
  cbn [fst snd ival]. split; f_equal. lra.
Qed.

(** ** The claims about the objective and the residuals *)

(** C4: for every parameter triple [x] and every dataset whose elevation,
    Q and U lists are index-aligned, [objfun x] returns the sum over the
    observations of [(I*p(r)*cos(-2r) - q)^2 + (I*p(r)*sin(-2r) - u)^2],
    with [r] the elevation in radians, [p(r) = A + B*r + C*r^2] and [I] the
    total intensity. *)
Theorem objfun_is_sum_of_squared_residuals (g : globals) (x : params) :
  aligned g ->
  objfun g x = Ok (objective_sum (ival g) x (elist g) (qlist g) (ulist g)).
Proof. apply objfun_ok. Qed.

Lemma objfun_is_sum_of_squared_residuals_witness :
  aligned six
  /\ objfun six zero
     = Ok (objective_sum (ival six) zero (elist six) (qlist six) (ulist six)).
Proof.
  assert (H : aligned six) by (split; reflexivity).
  split; [exact H | exact (objfun_is_sum_of_squared_residuals six zero H)].
Defined.

(** C5, as the code has it: for a dataset of at least one observation whose
    Q and U are exactly the model at parameters [xs], [objfun xs] is 0,
    [objfun] is nowhere below 0 (so [xs] is a global minimiser), and both
    RMS residuals [resid(True, xs)] and [resid(False, xs)] are 0. *)
Theorem exact_data_has_zero_residuals (g : globals) (xs : params) :
  elist g <> [] -> generated_from g xs ->
  objfun g xs = Ok 0
  /\ (forall x, exists v, objfun g x = Ok v /\ 0 <= v)
  /\ resid g true xs = Ok 0
  /\ resid g false xs = Ok 0.
Proof.
  intros Hne Hg. split; [apply generated_objfun; exact Hg|].
  split; [|split; apply generated_resid; assumption].
  intros x. eexists. split.
  - apply objfun_ok. eapply generated_aligned. exact Hg.
  - apply objective_sum_nonneg.
Qed.

Lemma exact_data_has_zero_residuals_witness :
  elist exact1 <> [] /\ generated_from exact1 x0
  /\ objfun exact1 x0 = Ok 0
  /\ (forall x, exists v, objfun exact1 x = Ok v /\ 0 <= v)
  /\ resid exact1 true x0 = Ok 0
  /\ resid exact1 false x0 = Ok 0.
Proof.
  assert (Hne : elist exact1 <> []) by discriminate.
  split; [exact Hne|]. split; [exact exact1_generated|].
  exact (exact_data_has_zero_residuals exact1 x0 Hne exact1_generated).
Defined.

(** C5 as stated fails on the dataset with no observation (every beam fit
    failed): it is generated by the model at any parameters, its objective
    is 0, and [resid] raises instead of returning 0. *)
Lemma no_observation_resid_raises :
  generated_from initial x0
  /\ objfun initial x0 = Ok 0
  /\ resid initial true x0 = Raise ZeroDivisionError
  /\ resid initial false x0 = Raise ZeroDivisionError.
Proof. repeat split. Qed.

(** ** The claims about the alignment of the lists *)

(** C7: starting from aligned elevation, Q and U lists, every pass of
    [reject] returns, and after it, and after any number of completed
    rounds of the loop, the three lists have the same length and entry [i]
    of each of them is the entry [idx[i]] of the same original list, for
    one strictly increasing list [idx] of original indices: the entries of
    an observation are removed together and the order is kept. *)
Theorem lists_stay_aligned_after_rejection (g : globals) :
  aligned g ->
  (forall useq lim x,
      exists g', reject g useq lim x = Ok g' /\ aligned g' /\ selection_of g g')
  /\ (forall minimize k st,
         fit_rounds minimize k g = Ok st ->
         aligned (fit_globals st) /\ selection_of g (fit_globals st)).
Proof.
  intros Hal. split.
  - intros useq lim x. exists (restrict (kept g useq lim x) g).
    split; [apply reject_ok; exact Hal|].
    split; [apply restrict_aligned | apply restrict_selection].
  - intros minimize k st H. unfold fit_rounds in H.
    apply iterations_selection in H; [|exact Hal]. destruct H as [S _].
    simpl in S. split; [eapply selection_aligned|]; exact S.
Qed.

Lemma lists_stay_aligned_after_rejection_witness :
  aligned six
  /\ (exists g', reject six true (2 * sqrt 5) zero = Ok g'
                 /\ aligned g' /\ selection_of six g')
  /\ (aligned (restrict [1; 2; 3; 4]%nat (restrict [1; 2; 3; 4; 5]%nat six))
      /\ selection_of six
           (restrict [1; 2; 3; 4]%nat (restrict [1; 2; 3; 4; 5]%nat six))).
Proof.
  assert (H : aligned six) by (split; reflexivity).
  split; [exact H|].
  destruct (lists_stay_aligned_after_rejection six H) as [Hpass Hrounds].
  split; [exact (Hpass true (2 * sqrt 5) zero)|].
  apply (Hrounds (fun _ _ => zero) 1%nat
           (mkFit (restrict [1; 2; 3; 4]%nat (restrict [1; 2; 3; 4; 5]%nat six))
                  (Some (zero, sqrt 5, sqrt (36 / 5))) [(1%nat, 6%nat)])).
  unfold fit_rounds, range2. cbn [Nat.sub seq foldM].
  unfold fit_iteration. cbn [fit_globals fit_msgs].
  rewrite six_round. reflexivity.
Defined.

(** C1, as the code has it: the observation loop, beam-fit failure handler
    included, leaves all seven lists with one entry per retained
    observation, entry [i] of each list coming from the same observation
    (the lists are the columns of one table of retained observations); a
    pass of [reject] rebuilds elevation, Q and U only, together and in
    order, and leaves azimuth, opacity, UT date and observation number as
    they were. *)
Theorem seven_lists_alignment :
  (forall diam obslist g,
      gather diam obslist = Ok g ->
      aligned7 g
      /\ exists rows, rows_of diam obslist = Ok rows /\ g = lists_of rows 0)
  /\ (forall g useq lim x,
         aligned7 g ->
         exists g', reject g useq lim x = Ok g'
                    /\ aligned g' /\ selection_of g g'
                    /\ alist g' = alist g /\ wvmlist g' = wvmlist g
                    /\ utlist g' = utlist g /\ obsnumlist g' = obsnumlist g).
Proof.
  split.
  - intros diam obslist g H. split; [eapply gather_aligned7; exact H|].
    rewrite gather_rows in H.
    destruct (rows_of diam obslist) as [rows|e]; simpl in H; [|discriminate].
    exists rows. split; [reflexivity | congruence].
  - intros g useq lim x [Hal _]. exists (restrict (kept g useq lim x) g).
    split; [apply reject_ok; exact Hal|].
    split; [apply restrict_aligned|].
    split; [apply restrict_selection|]. simpl. auto.
Qed.

Lemma seven_lists_alignment_witness :
  (gather 0 [goodobs; nobeam] = Ok (mkGlobals [31] [101] [cos (-2 * radians 31)]
                                     [sin (-2 * radians 31)] [20151009%Z] [35%Z]
                                     [1 / 10] 0)
   /\ aligned7 (mkGlobals [31] [101] [cos (-2 * radians 31)]
                  [sin (-2 * radians 31)] [20151009%Z] [35%Z] [1 / 10] 0))
  /\ aligned7 six
  /\ exists g', reject six true (2 * sqrt 5) zero = Ok g'
                /\ aligned g' /\ selection_of six g'
                /\ alist g' = alist six /\ wvmlist g' = wvmlist six
                /\ utlist g' = utlist six /\ obsnumlist g' = obsnumlist six.
Proof.
  destruct seven_lists_alignment as [Hgather Hreject].
  assert (E : gather 0 [goodobs; nobeam]
              = Ok (mkGlobals [31] [101] [cos (-2 * radians 31)]
                      [sin (-2 * radians 31)] [20151009%Z] [35%Z] [1 / 10] 0)).
  { unfold gather, gather_obs, goodobs, nobeam, initial. cbn [foldM fits bind].
    replace (Rleb 0 0) with true
      by (unfold Rleb; destruct (Rle_dec 0 0); [reflexivity | lra]).
    cbn.
    replace (1 / 2 * (30 + 32)) with 31 by lra.
    replace (1 / 2 * (100 + 102)) with 101 by lra.
    replace (1 / 2 * (1 / 10 + 1 / 10)) with (1 / 10) by lra.
    rewrite !Rmult_1_l. reflexivity. }
  split; [split; [exact E | exact (proj1 (Hgather 0 _ _ E))]|].
  split; [exact six_aligned7|].
  exact (Hreject six true (2 * sqrt 5) zero six_aligned7).
Defined.

(** C1 as stated fails: a pass of [reject] that drops an observation
    leaves six azimuths beside five elevations. *)
Lemma reject_shortens_three_lists_only :
  aligned7 six
  /\ resid six true zero = Ok (sqrt 5)
  /\ exists g', reject six true (2 * sqrt 5) zero = Ok g'
                /\ length (elist g') = 5%nat /\ length (qlist g') = 5%nat
                /\ length (ulist g') = 5%nat /\ length (alist g') = 6%nat
                /\ length (wvmlist g') = 6%nat /\ length (utlist g') = 6%nat
                /\ length (obsnumlist g') = 6%nat.
Proof.
  split; [exact six_aligned7|]. split; [exact six_resid_Q|].
  exists (restrict [1; 2; 3; 4; 5]%nat six).
  split; [|repeat split].
  rewrite reject_ok by (split; reflexivity). rewrite six_kept_Q. reflexivity.
Qed.

(** ** Dropping one observation *)

Lemma skipn_cons_nth {A : Type} (d : A) (l : list A) (a : nat) :
  (a < length l)%nat -> skipn a l = nth a l d :: skipn (S a) l.
Proof.
  revert a. induction l as [|y l IH]; intros a Ha; simpl in Ha; [lia|].
  destruct a as [|a]; [reflexivity|].
  simpl. apply IH. lia.
Qed.

Lemma pick_seq {A : Type} (d : A) (l : list A) (b a : nat) :
  (a + b <= length l)%nat -> pick d (seq a b) l = firstn b (skipn a l).
Proof.
  revert a. induction b as [|b IH]; intros a H; simpl; [reflexivity|].
  rewrite (skipn_cons_nth d) by lia. simpl. f_equal.
  apply IH. lia.
Qed.

Lemma pick_app {A : Type} (d : A) (i1 i2 : list nat) (l : list A) :
  pick d (i1 ++ i2) l = pick d i1 l ++ pick d i2 l.
Proof. unfold pick. apply map_app. Qed.

Lemma pick_all_but {A : Type} (d : A) (l : list A) (k : nat) :
  (k < length l)%nat ->
  pick d (seq 0 k ++ seq (S k) (length l - S k)) l = remove_nth k l.
Proof.
  intros Hk. rewrite pick_app, !pick_seq by lia. unfold remove_nth.
  rewrite skipn_O. f_equal.
  rewrite firstn_all2; [reflexivity|]. rewrite length_skipn. lia.
Qed.

Lemma filter_true {A : Type} (f : A -> bool) (l : list A) :
  (forall a, In a l -> f a = true) -> filter f l = l.
Proof.
  induction l as [|a l IH]; intros H; simpl; [reflexivity|].
  rewrite (H a) by (left; reflexivity). f_equal.
  apply IH. intros b Hb. apply H. right. exact Hb.
Qed.

Lemma filter_all_but (f : nat -> bool) (n k : nat) :
  (k < n)%nat -> f k = false ->
  (forall i, (i < n)%nat -> i <> k -> f i = true) ->
  filter f (seq 0 n) = seq 0 k ++ seq (S k) (n - S k).
Proof.
  intros Hk Hf Hother.
  replace n with (k + S (n - S k))%nat at 1 by lia.
  rewrite seq_app, filter_app. cbn [seq filter Nat.add]. rewrite Hf.
  rewrite !filter_true; [reflexivity | |].
  - intros i Hi. apply in_seq in Hi. apply Hother; lia.
  - intros i Hi. apply in_seq in Hi. apply Hother; lia.
Qed.

Lemma length_remove_nth {A : Type} (l : list A) (k : nat) :
  (k < length l)%nat -> length (remove_nth k l) = (length l - 1)%nat.
Proof.
  intros Hk. unfold remove_nth.
  rewrite length_app, length_firstn, length_skipn. lia.
Qed.

Lemma nth_remove_nth {A : Type} (d : A) (l : list A) (k j : nat) :
  (k < length l)%nat ->
  nth j (remove_nth k l) d = nth (if (j <? k)%nat then j else S j) l d.
Proof.
  intros Hk. unfold remove_nth.
  destruct (j <? k)%nat eqn:E.
  - apply Nat.ltb_lt in E.
    rewrite app_nth1 by (rewrite length_firstn; lia).
    rewrite nth_firstn. apply Nat.ltb_lt in E. rewrite E. reflexivity.
  - apply Nat.ltb_ge in E.
    rewrite app_nth2 by (rewrite length_firstn; lia).
    rewrite length_firstn, Nat.min_l by lia.
    rewrite nth_skipn. f_equal. lia.
Qed.

Lemma drop_obs_aligned (g : globals) (k : nat) :
  aligned g -> (k < length (elist g))%nat -> aligned (drop_obs k g).
Proof.
  intros [Hq Hu] Hk. unfold aligned, drop_obs; simpl.
  rewrite !length_remove_nth by lia. lia.
Qed.

Lemma residual_drop_obs (g : globals) (useq : bool) (x : params) (k j : nat) :
  aligned g -> (k < length (elist g))%nat ->
  residual (drop_obs k g) useq x j
  = residual g useq x (if (j <? k)%nat then j else S j).
Proof.
  intros [Hq Hu] Hk. unfold residual, drop_obs; simpl.
  rewrite !nth_remove_nth by lia. reflexivity.
Qed.

(** A pass that finds observation [k], and only it, at or beyond the limit
    removes exactly that observation. *)
Lemma reject_one (g : globals) (useq : bool) (lim : R) (x : params) (k : nat) :
  aligned g -> (k < length (elist g))%nat ->
  lim <= Rabs (residual g useq x k) ->
  (forall i, (i < length (elist g))%nat -> i <> k ->
             Rabs (residual g useq x i) < lim) ->
  reject g useq lim x = Ok (drop_obs k g).
Proof.
  intros Hal Hk Hout Hin. rewrite reject_ok by exact Hal. f_equal.
  unfold kept, range.
  rewrite (filter_all_but _ _ k Hk).
  - destruct Hal as [Hq Hu]. unfold restrict, drop_obs.
    rewrite pick_all_but by lia.
    rewrite <- Hq. rewrite pick_all_but by lia.
    rewrite Hq, <- Hu. rewrite pick_all_but by lia. reflexivity.
  - apply Rltb_false. exact Hout.
  - intros i Hi Hne. apply Rltb_true. apply Hin; assumption.
Qed.

(** A pass that finds every observation below the limit changes nothing. *)
Lemma reject_none (g : globals) (useq : bool) (lim : R) (x : params) :
  aligned g ->
  (forall i, (i < length (elist g))%nat -> Rabs (residual g useq x i) < lim) ->
  reject g useq lim x = Ok g.
Proof.
  intros Hal Hin. rewrite reject_ok by exact Hal. f_equal.
  unfold kept, range. rewrite filter_true.
  - destruct Hal as [Hq Hu]. unfold restrict.
    rewrite pick_all. rewrite <- Hq. rewrite pick_all.
    rewrite Hq, <- Hu. rewrite pick_all.
    destruct g; reflexivity.
  - intros i Hi. apply in_seq in Hi. apply Rltb_true. apply Hin. lia.
Qed.

(** ** The claims about outlier rejection *)

Lemma filter_length_lt {A : Type} (f : A -> bool) (l : list A) (a : A) :
  In a l -> f a = false -> (length (filter f l) < length l)%nat.
Proof.
  induction l as [|b l IH]; intros Hin Hf; [destruct Hin|].
  assert (Hle : forall m : list A, (length (filter f m) <= length m)%nat).
  { induction m as [|c m IHm]; simpl; [lia|]. destruct (f c); simpl; lia. }
  simpl. destruct Hin as [->|Hin].
  - rewrite Hf. specialize (Hle l). lia.
  - specialize (IH Hin Hf). destruct (f b); simpl; lia.
Qed.

(** C6, as the code has it.  When one observation's absolute Q residual
    exceeds twice the Q RMS and every other observation's Q residual is
    strictly within that limit, the Q pass of the round excludes exactly
    that observation: elevation, Q and U of the others stay, in order.
    The round as a whole does the same when also every other
    observation's U residual is strictly within twice the U RMS found
    after the Q pass; otherwise, for each other observation whose U
    residual is not, the U pass of the same round removes it as well and
    the round leaves fewer observations. *)
Theorem single_Q_outlier_is_excluded (g : globals) (x : params) (k : nat)
  (qrms : R) :
  aligned g -> (k < length (elist g))%nat ->
  resid g true x = Ok qrms ->
  2 * qrms < Rabs (residual g true x k) ->
  (forall i, (i < length (elist g))%nat -> i <> k ->
             Rabs (residual g true x i) < 2 * qrms) ->
  reject g true (2 * qrms) x = Ok (drop_obs k g)
  /\ forall urms,
       resid (drop_obs k g) false x = Ok urms ->
       ((forall i, (i < length (elist g))%nat -> i <> k ->
                   Rabs (residual g false x i) < 2 * urms) ->
        reject_round g x = Ok (drop_obs k g, qrms, urms))
       /\ (forall j, (j < length (elist g))%nat -> j <> k ->
                     2 * urms <= Rabs (residual g false x j) ->
                     exists idx,
                       reject_round g x
                       = Ok (restrict idx (drop_obs k g), qrms, urms)
                       /\ StronglySorted lt idx
                       /\ ~ In (if (j <? k)%nat then j else (j - 1)%nat) idx
                       /\ (length (elist (restrict idx (drop_obs k g)))
                           < length (elist (drop_obs k g)))%nat).
Proof.
  intros Hal Hk Hq Hout Hin.
  assert (HQ : reject g true (2 * qrms) x = Ok (drop_obs k g)).
  { apply reject_one; try assumption. lra. }
  split; [exact HQ|]. intros urms Hu.
  assert (Hal' : aligned (drop_obs k g)) by (apply drop_obs_aligned; assumption).
  assert (Hlen : length (elist (drop_obs k g)) = (length (elist g) - 1)%nat).
  { unfold drop_obs; cbn [elist]. apply length_remove_nth. exact Hk. }
  split.
  - intros HinU.
    unfold reject_round. rewrite Hq. cbn [bind]. rewrite HQ. cbn [bind].
    rewrite Hu. cbn [bind].
    rewrite reject_none; [reflexivity | exact Hal' |].
    intros j Hj. rewrite residual_drop_obs by assumption.
    rewrite Hlen in Hj.
    destruct (j <? k)%nat eqn:E.
    + apply Nat.ltb_lt in E. apply HinU; lia.
    + apply Nat.ltb_ge in E. apply HinU; lia.
  - intros j Hj Hne Hbig.
    exists (kept (drop_obs k g) false (2 * urms) x).
    assert (Hres : residual (drop_obs k g) false x
                     (if (j <? k)%nat then j else (j - 1)%nat)
                   = residual g false x j).
    { rewrite residual_drop_obs by assumption.
      destruct (j <? k)%nat eqn:E.
      - rewrite E. reflexivity.
      - apply Nat.ltb_ge in E.
        replace (j - 1 <? k)%nat with false
          by (symmetry; apply Nat.ltb_ge; lia).
        f_equal. lia. }
    assert (Hnot : ~ In (if (j <? k)%nat then j else (j - 1)%nat)
                        (kept (drop_obs k g) false (2 * urms) x)).
    { intros Hkept. apply kept_iff in Hkept. destruct Hkept as [_ Hlt].
      rewrite Hres in Hlt. lra. }
    split; [|split; [apply kept_sorted | split; [exact Hnot|]]].
    + unfold reject_round. rewrite Hq. cbn [bind]. rewrite HQ. cbn [bind].
      rewrite Hu. cbn [bind].
      rewrite reject_ok by exact Hal'. reflexivity.
    + unfold restrict at 1; cbn [elist]. rewrite pick_length.
      unfold kept.
      eapply Nat.lt_le_trans;
        [apply (filter_length_lt _ _ (if (j <? k)%nat then j else (j - 1)%nat))
        | unfold range; rewrite length_seq; apply Nat.le_refl].
      * unfold range. apply in_seq. rewrite Hlen.
        destruct (j <? k)%nat eqn:E.
        -- apply Nat.ltb_lt in E. lia.
        -- apply Nat.ltb_ge in E. lia.
      * apply Rltb_false. rewrite Hres. exact Hbig.
Qed.

Lemma six'_Q_outlier : 2 * sqrt 5 < Rabs (residual six' true zero 0).
Proof.
  pose proof sqrt5_bounds. unfold six', horizon, zero.
  rewrite residual_at0 by reflexivity. simpl. abs_lra.
Qed.

Lemma six'_Q_inliers (i : nat) :
  (i < length (elist six'))%nat -> i <> 0%nat ->
  Rabs (residual six' true zero i) < 2 * sqrt 5.
Proof.
  pose proof sqrt5_bounds. intros Hi Hne. unfold six', horizon, zero in *.
  simpl in Hi.
  do 6 (destruct i as [|i]; [try congruence; rewrite residual_at0 by reflexivity;
                             simpl; abs_lra|]).
  lia.
Qed.

Lemma six'_U_inliers (i : nat) :
  (i < length (elist six'))%nat -> i <> 0%nat ->
  Rabs (residual six' false zero i) < 2 * sqrt 1.
Proof.
  rewrite sqrt_1. intros Hi Hne. unfold six', horizon, zero in *.
  simpl in Hi.
  do 6 (destruct i as [|i]; [try congruence; rewrite residual_at0 by reflexivity;
                             simpl; abs_lra|]).
  lia.
Qed.

Lemma six_Q_outlier : 2 * sqrt 5 < Rabs (residual six true zero 0).
Proof.
  pose proof sqrt5_bounds. unfold six, horizon, zero.
  rewrite residual_at0 by reflexivity. simpl. abs_lra.
Qed.

Lemma six_Q_inliers (i : nat) :
  (i < 6)%nat -> i <> 0%nat -> Rabs (residual six true zero i) < 2 * sqrt 5.
Proof.
  pose proof sqrt5_bounds. intros Hi Hne. unfold six, horizon, zero in *.
  do 6 (destruct i as [|i]; [try congruence; rewrite residual_at0 by reflexivity;
                             simpl; abs_lra|]).
  lia.
Qed.

Lemma single_Q_outlier_is_excluded_witness :
  reject six' true (2 * sqrt 5) zero = Ok (drop_obs 0 six')
  /\ reject_round six' zero = Ok (drop_obs 0 six', sqrt 5, sqrt 1)
  /\ exists idx,
       reject_round six zero
       = Ok (restrict idx (drop_obs 0 six), sqrt 5, sqrt (36 / 5))
       /\ StronglySorted lt idx
       /\ ~ In 0%nat idx
       /\ (length (elist (restrict idx (drop_obs 0 six))) < 5)%nat.
Proof.
  assert (Hal' : aligned six') by (split; reflexivity).
  assert (Hk' : (0 < length (elist six'))%nat) by (simpl; lia).
  pose proof (single_Q_outlier_is_excluded six' zero 0 (sqrt 5) Hal' Hk'
                six'_resid_Q six'_Q_outlier six'_Q_inliers) as H'.
  split; [exact (proj1 H')|].
  split; [exact (proj1 (proj2 H' _ six'_resid_U) six'_U_inliers)|].
  assert (Hal : aligned six) by (split; reflexivity).
  assert (Hk : (0 < length (elist six))%nat) by (simpl; lia).
  pose proof (single_Q_outlier_is_excluded six zero 0 (sqrt 5) Hal Hk
                six_resid_Q six_Q_outlier six_Q_inliers) as H.
  apply (proj2 (proj2 H (sqrt (36 / 5)) six_resid_U) 1%nat).
  - simpl. lia.
  - discriminate.
  - pose proof sqrt36_5_bounds. unfold six, horizon, zero.
    rewrite residual_at0 by reflexivity. simpl. abs_lra.
Defined.

(** ** A Q outlier that costs a second observation

    Observations at elevation 22.5 degrees, where [-2 * elval] is
    [- PI / 4]. *)

Lemma radians_tilt : radians (45 / 2) = PI / 8.
Proof. unfold radians. lra. Qed.

Lemma cos_tilt : cos (-2 * (PI / 8)) = 1 / sqrt 2.
Proof.
  replace (-2 * (PI / 8)) with (- (PI / 4)) by lra.
  rewrite cos_neg. exact cos_PI4.
Qed.

Lemma sin_tilt : sin (-2 * (PI / 8)) = - (1 / sqrt 2).
Proof.
  replace (-2 * (PI / 8)) with (- (PI / 4)) by lra.
  rewrite sin_neg. rewrite sin_PI4. reflexivity.
Qed.

Lemma sqrt2_neq_0 : sqrt 2 <> 0.
Proof.
  pose proof (sqrt_lt_R0 2). lra.
Qed.

Lemma model2_tilt_fit (g : globals) :
  model2 g (45 / 2) tilt_fit = (ival g * 2, ival g * -2).
Proof.
  pose proof sqrt2_neq_0. pose proof PI_neq0.
  unfold model2, tilt_fit. rewrite radians_tilt, cos_tilt, sin_tilt.
  f_equal; field; auto.
Qed.

Lemma model2_tilt_true (g : globals) :
  model2 g (45 / 2) tilt_true = (ival g * 1, ival g * -1).
Proof.
  pose proof sqrt2_neq_0. pose proof PI_neq0.
  unfold model2, tilt_true. rewrite radians_tilt, cos_tilt, sin_tilt.
  f_equal; field; auto.
Qed.

Lemma tilt_exact_generated : generated_from tilt_exact tilt_true.
Proof.
  unfold generated_from, tilt_exact, tilted. cbn [elist qlist ulist map].
  rewrite model2_tilt_true. unfold tilt_true. rewrite model2_horizon.
  cbn [fst snd ival]. split; repeat f_equal; lra.
Qed.

Lemma residual_tilt_fit (g : globals) (useq : bool) (i : nat) :
  nth i (elist g) 0 = 45 / 2 ->
  residual g useq tilt_fit i =
  if useq then ival g * 2 - nth i (qlist g) 0
  else ival g * -2 - nth i (ulist g) 0.
Proof.
  intros E. unfold residual. rewrite E, model2_tilt_fit.
  destruct useq; reflexivity.
Qed.

Ltac eval_tilt :=
  unfold tilt_spiked, tilted;
  cbn [restrict pick kept range
       elist alist qlist ulist utlist obsnumlist wvmlist ival
       map length seq nth filter fold_left];
  repeat (rewrite residual_tilt_fit by reflexivity);
  unfold tilt_fit;
  repeat (rewrite residual_at0 by reflexivity);
  cbn [restrict pick map elist alist qlist ulist utlist obsnumlist wvmlist
       ival nth].

Lemma sqrt5_3_bounds : 5 / 4 < sqrt (5 / 3) < 13 / 10.
Proof. apply sqrt_between; lra. Qed.

Lemma sqrt1_5_bounds : 2 / 5 < sqrt (1 / 5) < 1 / 2.
Proof. apply sqrt_between; lra. Qed.

Lemma tilt_resid_Q : resid tilt_spiked true tilt_fit = Ok (sqrt (5 / 3)).
Proof.
  apply resid_value; [split; reflexivity | discriminate |].
  unfold sumsq. eval_tilt. simpl INR. lra.
Qed.

Lemma tilt_kept_Q :
  kept tilt_spiked true (2 * sqrt (5 / 3)) tilt_fit = [1; 2; 3; 4; 5]%nat.
Proof.
  pose proof sqrt5_3_bounds as Hb.
  unfold kept. eval_tilt. decide_Rltb. reflexivity.
Qed.

Lemma tilt_resid_U :
  resid (restrict [1; 2; 3; 4; 5]%nat tilt_spiked) false tilt_fit
  = Ok (sqrt (1 / 5)).
Proof.
  apply resid_value; [apply restrict_aligned | discriminate |].
  unfold sumsq. eval_tilt. simpl INR. lra.
Qed.

Lemma tilt_kept_U :
  kept (restrict [1; 2; 3; 4; 5]%nat tilt_spiked) false (2 * sqrt (1 / 5))
       tilt_fit
  = [1; 2; 3; 4]%nat.
Proof.
  pose proof sqrt1_5_bounds as Hb.
  unfold kept. eval_tilt. decide_Rltb. reflexivity.
Qed.

Lemma tilt_round :
  reject_round tilt_spiked tilt_fit
  = Ok (restrict [1; 2; 3; 4]%nat (restrict [1; 2; 3; 4; 5]%nat tilt_spiked),
        sqrt (5 / 3), sqrt (1 / 5)).
Proof.
  unfold reject_round. rewrite tilt_resid_Q. cbn [bind].
  rewrite reject_ok by (split; reflexivity). cbn [bind].
  rewrite tilt_kept_Q, tilt_resid_U. cbn [bind].
  rewrite reject_ok by apply restrict_aligned. cbn [bind].
  rewrite tilt_kept_U. reflexivity.
Qed.

(** The objective on [tilt_spiked], for any parameters: [t] is the model's
    Q at elevation 22.5 degrees. *)
Lemma tilt_objfun (a b c : R) :
  objfun tilt_spiked (a, b, c)
  = Ok (let t := p (a, b, c) (PI / 8) * (1 / sqrt 2) in
        4 * (t - 2) * (t - 2) + 4 * a * a + 12).
Proof.
  rewrite objfun_ok by (split; reflexivity).
  f_equal. unfold tilt_spiked, tilted.
  cbn [elist qlist ulist ival map objective_sum].
  rewrite radians_tilt, radians_0, cos_tilt, sin_tilt.
  replace (-2 * 0) with 0 by lra. rewrite cos_0, sin_0.
  cbv zeta. unfold p. ring.
Qed.

Lemma tilt_Q_outlier :
  2 * sqrt (5 / 3) < Rabs (residual tilt_spiked true tilt_fit 0).
Proof.
  pose proof sqrt5_3_bounds. eval_tilt. abs_lra.
Qed.

Lemma tilt_Q_inliers (i : nat) :
  (i < 6)%nat -> i <> 0%nat ->
  Rabs (residual tilt_spiked true tilt_fit i) < 2 * sqrt (5 / 3).
Proof.
  pose proof sqrt5_3_bounds. intros Hi Hne.
  do 6 (destruct i as [|i]; [try congruence; eval_tilt; abs_lra|]).
  lia.
Qed.

(** C6 as stated fails.  [tilt_exact] is generated by the model without
    noise; [tilt_spiked] is [tilt_exact] with 4 added to the Q value of
    the first observation and nothing else changed; [tilt_fit] is a
    least-squares solution for it.  The first observation alone is beyond
    twice the Q RMS and the Q pass removes it alone, but the round also
    excludes the second observation, whose U residual is beyond twice the
    U RMS: four observations are left, not five. *)
Lemma round_excludes_an_unspoilt_observation :
  generated_from tilt_exact tilt_true
  /\ (elist tilt_spiked = elist tilt_exact
      /\ ulist tilt_spiked = ulist tilt_exact
      /\ qlist tilt_spiked
         = (nth 0 (qlist tilt_exact) 0 + 4) :: tl (qlist tilt_exact))
  /\ objfun tilt_spiked tilt_fit = Ok 12
  /\ (forall a b c, exists v, objfun tilt_spiked (a, b, c) = Ok v /\ 12 <= v)
  /\ resid tilt_spiked true tilt_fit = Ok (sqrt (5 / 3))
  /\ 2 * sqrt (5 / 3) < Rabs (residual tilt_spiked true tilt_fit 0)
  /\ (forall i, (i < 6)%nat -> i <> 0%nat ->
                Rabs (residual tilt_spiked true tilt_fit i) < 2 * sqrt (5 / 3))
  /\ reject tilt_spiked true (2 * sqrt (5 / 3)) tilt_fit
     = Ok (drop_obs 0 tilt_spiked)
  /\ length (elist (drop_obs 0 tilt_spiked)) = 5%nat
  /\ exists g2 qrms urms,
       reject_round tilt_spiked tilt_fit = Ok (g2, qrms, urms)
       /\ elist g2 = [0; 0; 0; 0]
       /\ qlist g2 = [0; 0; 0; 0]
       /\ ulist g2 = [0; 0; 0; 0].
Proof.
  split; [exact tilt_exact_generated|].
  split; [repeat split|].
  split.
  { assert (E : p (0, 16 * sqrt 2 / PI, 0) (PI / 8) * (1 / sqrt 2) = 2).
    { pose proof sqrt2_neq_0. pose proof PI_neq0. unfold p. field. auto. }
    unfold tilt_fit. rewrite tilt_objfun. f_equal. cbv zeta.
    rewrite E. lra. }
  split.
  { intros a b c. eexists. split; [apply tilt_objfun|].
    cbv zeta. generalize (p (a, b, c) (PI / 8) * (1 / sqrt 2)). intros t.
    pose proof (Rle_0_sqr (t - 2)) as Ht. pose proof (Rle_0_sqr a) as Ha.
    unfold Rsqr in Ht, Ha. lra. }
  split; [exact tilt_resid_Q|].
  split; [exact tilt_Q_outlier|].
  split; [exact tilt_Q_inliers|].
  split.
  { rewrite reject_ok by (split; reflexivity). rewrite tilt_kept_Q. reflexivity. }
  split; [reflexivity|].
  eexists _, _, _. split; [exact tilt_round|].
  repeat split.
Qed.

Lemma exact1_kept_exact : kept exact1 true (2 * 0) x0 = [].
Proof.
  unfold kept. eval_lists. eval_residuals. decide_Rltb. reflexivity.
Qed.

Lemma exact1_round (a b c : R) :
  reject_round exact1 (a, b, c) = Raise ZeroDivisionError
  \/ exists g2 qrms urms,
       reject_round exact1 (a, b, c) = Ok (g2, qrms, urms) /\ elist g2 = [].
Proof.
  unfold reject_round. rewrite exact1_resid_Q. cbn [bind].
  rewrite reject_ok by (split; reflexivity). cbn [bind].
  rewrite exact1_kept_Q. destruct (Req_dec_T a (1 / 100)) as [E|N].
  - left. reflexivity.
  - right.
    assert (HU : resid (restrict [0%nat] exact1) false (a, b, c) = Ok (sqrt 0)).
    { apply resid_value; [apply restrict_aligned | discriminate |].
      unfold sumsq. eval_lists. eval_residuals. simpl INR. lra. }
    rewrite HU, sqrt_0. cbn [bind].
    rewrite reject_ok by apply restrict_aligned. cbn [bind].
    assert (HK : kept (restrict [0%nat] exact1) false (2 * 0) (a, b, c) = []).
    { unfold kept. eval_lists. eval_residuals. decide_Rltb. reflexivity. }
    rewrite HK. eexists _, _, _. split; reflexivity.
Qed.

Lemma fit_iteration_empty (minimize : minimizer) (i : nat) (st : fitstate) :
  elist (fit_globals st) = [] ->
  fit_iteration minimize i st = Raise ZeroDivisionError.
Proof.
  intros E. unfold fit_iteration. rewrite reject_round_empty by exact E.
  reflexivity.
Qed.

Lemma fit_loop_empty (minimize : minimizer) (g : globals) :
  elist g = [] -> fit_loop minimize g = Raise ZeroDivisionError.
Proof.
  intros E. unfold fit_loop, range2. cbn [Nat.sub seq foldM].
  rewrite fit_iteration_empty by exact E. reflexivity.
Qed.

Lemma exact1_fit_loop (minimize : minimizer) :
  fit_loop minimize exact1 = Raise ZeroDivisionError.
Proof.
  unfold fit_loop, range2. cbn [Nat.sub seq foldM].
  unfold fit_iteration at 1. cbn [fit_globals fit_msgs].
  destruct (minimize (objfun exact1) x0) as [[a b] c].
  destruct (exact1_round a b c) as [H | [g2 [qrms [urms [H E]]]]];
    rewrite H; cbn [bind]; [reflexivity|].
  rewrite fit_iteration_empty by exact E. reflexivity.
Qed.

Lemma gather_nobeam :
  gather 0 [nobeam] = Ok initial.
Proof.
  unfold gather, gather_obs, nobeam, initial. cbn [foldM fits bind].
  replace (Rleb 0 0) with true
    by (unfold Rleb; destruct (Rle_dec 0 0); [reflexivity | lra]).
  reflexivity.
Qed.

Lemma filter_false {A : Type} (f : A -> bool) (l : list A) :
  (forall a, In a l -> f a = false) -> filter f l = [].
Proof.
  induction l as [|a l IH]; intros H; simpl; [reflexivity|].
  rewrite (H a) by (left; reflexivity).
  apply IH. intros b Hb. apply H. right. exact Hb.
Qed.

(** With every residual 0 the limit is 0 and nothing is below it. *)
Lemma generated_kept (g : globals) (x : params) (useq : bool) :
  generated_from g x -> kept g useq (2 * 0) x = [].
Proof.
  intros Hg. unfold kept. apply filter_false.
  intros i Hi. apply in_range in Hi. apply Rltb_false.
  rewrite generated_residual by assumption. abs_lra.
Qed.

Lemma generated_reject (g : globals) (x : params) (useq : bool) :
  generated_from g x -> reject g useq (2 * 0) x = Ok (restrict [] g).
Proof.
  intros Hg. rewrite reject_ok by (eapply generated_aligned; exact Hg).
  rewrite generated_kept by exact Hg. reflexivity.
Qed.

Lemma generated_round (g : globals) (x : params) :
  elist g <> [] -> generated_from g x ->
  reject_round g x = Raise ZeroDivisionError.
Proof.
  intros Hne Hg. unfold reject_round.
  rewrite generated_resid by assumption. cbn [bind].
  rewrite generated_reject by exact Hg. reflexivity.
Qed.

Lemma generated_fit_loop (g : globals) (x : params) :
  elist g <> [] -> generated_from g x ->
  fit_loop (constantly x) g = Raise ZeroDivisionError.
Proof.
  intros Hne Hg. unfold fit_loop, range2. cbn [Nat.sub seq foldM].
  unfold fit_iteration. cbn [fit_globals fit_msgs]. unfold constantly.
  rewrite generated_round by assumption. reflexivity.
Qed.

(** C3, the code at the limit: on a dataset of at least one observation
    that the fitted parameters [x] reproduce exactly, the Q RMS is 0, no
    observation's absolute residual exceeds twice the RMS, and the Q pass
    drops every observation all the same, because it keeps
    [fabs(dqu) < lim] only; the round then fails in the next [resid]. *)
Theorem reject_drops_residual_equal_to_limit (g : globals) (x : params) :
  elist g <> [] -> generated_from g x ->
  resid g true x = Ok 0
  /\ (forall i, (i < length (elist g))%nat ->
                Rabs (residual g true x i) <= 2 * 0)
  /\ reject g true (2 * 0) x = Ok (restrict [] g)
  /\ elist (restrict [] g) = []
  /\ reject_round g x = Raise ZeroDivisionError.
Proof.
  intros Hne Hg.
  split; [apply generated_resid; assumption|].
  split.
  - intros i Hi. rewrite generated_residual by assumption. abs_lra.
  - split; [apply generated_reject; exact Hg|].
    split; [reflexivity | apply generated_round; assumption].
Qed.

Lemma reject_drops_residual_equal_to_limit_witness :
  (elist exact1 <> [] /\ generated_from exact1 x0)
  /\ resid exact1 true x0 = Ok 0
  /\ (forall i, (i < length (elist exact1))%nat ->
                Rabs (residual exact1 true x0 i) <= 2 * 0)
  /\ reject exact1 true (2 * 0) x0 = Ok (restrict [] exact1)
  /\ elist (restrict [] exact1) = []
  /\ reject_round exact1 x0 = Raise ZeroDivisionError.
Proof.
  assert (Hne : elist exact1 <> []) by discriminate.
  split; [split; [exact Hne | exact exact1_generated]|].
  exact (reject_drops_residual_equal_to_limit exact1 x0 Hne exact1_generated).
Defined.

(** C8, the code on data that run out: the loop does not complete its
    three rounds when no observation is left.  With every beam fit failed
    the lists are empty and the first [resid] raises; with the single
    observation [exact1] the first round drops it (in the Q pass when the
    fit is exact, in the U pass otherwise) and the next [resid] raises,
    whatever [minimize] returns; and on any dataset that the minimiser
    fits exactly the first Q pass drops everything and the round raises. *)
Theorem fit_loop_raises_when_no_observation_is_left (minimize : minimizer) :
  gather 0 [nobeam] = Ok initial
  /\ fit_loop minimize (set_ival initial 1) = Raise ZeroDivisionError
  /\ elist exact1 = [0]
  /\ fit_loop minimize exact1 = Raise ZeroDivisionError
  /\ (forall g x, elist g <> [] -> generated_from g x ->
                  fit_loop (constantly x) g = Raise ZeroDivisionError).
Proof.
  split; [exact gather_nobeam|].
  split; [apply fit_loop_empty; reflexivity|].
  split; [reflexivity|].
  split; [apply exact1_fit_loop | exact generated_fit_loop].
Qed.

Lemma fit_loop_raises_when_no_observation_is_left_witness :
  (elist exact1 <> [] /\ generated_from exact1 x0)
  /\ fit_loop (constantly x0) exact1 = Raise ZeroDivisionError.
Proof.
  assert (Hne : elist exact1 <> []) by discriminate.
  split; [split; [exact Hne | exact exact1_generated]|].
  exact (proj2 (proj2 (proj2 (proj2
           (fit_loop_raises_when_no_observation_is_left (constantly x0)))))
           exact1 x0 Hne exact1_generated).
Defined.

(** C10: on aligned lists [resid] raises [ZeroDivisionError] exactly when
    no observation is retained; nothing in the loop prevents it: a pass of
    [reject] can remove every remaining observation (here the only one,
    fitted exactly), after which the objective is evaluated on the empty
    lists (giving 0) and the next [resid] raises, so that the loop itself
    raises. *)
Theorem resid_divides_by_zero_on_empty_lists :
  (forall g useq x,
      aligned g -> (resid g useq x = Raise ZeroDivisionError <-> elist g = []))
  /\ (elist exact1 <> []
      /\ resid exact1 true x0 = Ok 0
      /\ reject exact1 true (2 * 0) x0 = Ok (restrict [] exact1)
      /\ objfun (restrict [] exact1) x0 = Ok 0
      /\ resid (restrict [] exact1) false x0 = Raise ZeroDivisionError
      /\ reject_round exact1 x0 = Raise ZeroDivisionError)
  /\ (forall minimize, fit_loop minimize exact1 = Raise ZeroDivisionError).
Proof.
  split; [|split].
  - intros g useq x Hal. split.
    + intros H. destruct (elist g) as [|e es] eqn:E; [reflexivity|].
      rewrite resid_ok in H; [discriminate | exact Hal | congruence].
    + apply resid_empty.
  - split; [discriminate|].
    assert (HR : resid exact1 true x0 = Ok 0)
      by (apply generated_resid; [discriminate | exact exact1_generated]).
    assert (HJ : reject exact1 true (2 * 0) x0 = Ok (restrict [] exact1)).
    { rewrite reject_ok by (split; reflexivity).
      rewrite exact1_kept_exact. reflexivity. }
    split; [exact HR|]. split; [exact HJ|].
    split; [reflexivity|]. split; [reflexivity|].
    unfold reject_round. rewrite HR. cbn [bind]. rewrite HJ. reflexivity.
  - exact exact1_fit_loop.
Qed.

Lemma resid_divides_by_zero_on_empty_lists_witness :
  aligned initial
  /\ (resid initial true x0 = Raise ZeroDivisionError <-> elist initial = []).
Proof.
  assert (H : aligned initial) by (split; reflexivity).
  split; [exact H|].
  exact (proj1 resid_divides_by_zero_on_empty_lists initial true x0 H).
Defined.

(** ** The claims about the top-level handlers *)

Import Toplevel.

Lemma run_app (steps rest : list (result event)) :
  run (steps ++ rest) =
  match run steps with
  | (tr, None) => let '(tr', r) := run rest in (tr ++ tr', r)
  | (tr, Some e) => (tr, Some e)
  end.
Proof.
  induction steps as [|[ev|e] steps IH]; simpl.
  - destruct (run rest); reflexivity.
  - rewrite IH. destruct (run steps) as [tr [e|]].
    + reflexivity.
    + destruct (run rest). reflexivity.
  - reflexivity.
Qed.

Lemma try_except_completes (steps : list (result event))
  (on_star : string -> trace) (on_other tr : trace) :
  run steps = (tr, None) ->
  try_except (steps ++ [Ok Cleanup]) on_star on_other = (tr ++ [Cleanup], None).
Proof.
  intros H. unfold try_except. rewrite run_app, H. reflexivity.
Qed.

Lemma try_except_star (steps : list (result event))
  (on_star : string -> trace) (on_other tr : trace) (msg : string) :
  run steps = (tr, Some (StarUtilError msg)) ->
  try_except (steps ++ [Ok Cleanup]) on_star on_other = (tr ++ on_star msg, None).
Proof.
  intros H. unfold try_except. rewrite run_app, H. reflexivity.
Qed.

Lemma try_except_other (steps : list (result event))
  (on_star : string -> trace) (on_other tr : trace) (e : exn) :
  (forall msg, e <> StarUtilError msg) ->
  run steps = (tr, Some e) ->
  try_except (steps ++ [Ok Cleanup]) on_star on_other = (tr ++ on_other, Some e).
Proof.
  intros Hne H. unfold try_except. rewrite run_app, H.
  destruct e; try reflexivity. exfalso. eapply Hne. reflexivity.
Qed.

Lemma cleanups_app (t1 t2 : trace) :
  cleanups (t1 ++ t2) = (cleanups t1 + cleanups t2)%nat.
Proof. unfold cleanups. rewrite filter_app, length_app. reflexivity. Qed.

(** C2, as the code has it.  In pol2ip, pol2stack and configmeld a body
    that completes ends with [cleanup()]; a [StarUtilError] has its message
    printed, then [cleanup()], and is not re-raised; any other exception
    (keyboard interrupt included) is followed by [cleanup()] and re-raised:
    in each case [cleanup()] is called once more than the body called it. In
    tounimap only the completed body calls [cleanup()]: both handlers print
    that the intermediate files are retained, and call no [cleanup()]. *)
Theorem toplevel_handlers (tempdir : string) (steps : list (result event))
  (tr : trace) :
  (run steps = (tr, None) ->
   forall s, main s tempdir steps = (tr ++ [Cleanup], None))
  /\ (forall msg,
        run steps = (tr, Some (StarUtilError msg)) ->
        pol2ip steps = (tr ++ [Print msg; Cleanup], None)
        /\ pol2stack steps = (tr ++ [Print msg; Cleanup], None)
        /\ configmeld steps = (tr ++ [Print msg; Cleanup], None)
        /\ tounimap tempdir steps
           = (tr ++ [Print msg; Print (retained_msg tempdir)], None))
  /\ (forall e,
        (forall msg, e <> StarUtilError msg) ->
        run steps = (tr, Some e) ->
        pol2ip steps = (tr ++ [Cleanup], Some e)
        /\ pol2stack steps = (tr ++ [Cleanup], Some e)
        /\ configmeld steps = (tr ++ [Cleanup], Some e)
        /\ tounimap tempdir steps
           = (tr ++ [Print (retained_msg tempdir)], Some e))
  /\ (forall s, s <> TounimapPy ->
                cleanups (fst (main s tempdir steps))
                = S (cleanups (fst (run steps)))).
Proof.
  split; [|split; [|split]].
  - intros H s. destruct s; apply try_except_completes; exact H.
  - intros msg H. unfold pol2ip, pol2stack, configmeld, tounimap.
    rewrite !(try_except_star _ _ _ _ _ H). repeat split.
  - intros e Hne H. unfold pol2ip, pol2stack, configmeld, tounimap.
    rewrite !(try_except_other _ _ _ _ _ Hne H). repeat split.
  - intros s Hs.
    assert (E : main s tempdir steps
                = try_except (steps ++ [Ok Cleanup])
                             (fun err => [Print err; Cleanup]) [Cleanup])
      by (destruct s; try reflexivity; congruence).
    rewrite E. unfold try_except. rewrite run_app.
    destruct (run steps) as [t [e|]]; simpl.
    + destruct e; simpl; rewrite cleanups_app; unfold cleanups at 2;
        simpl; lia.
    + rewrite cleanups_app. unfold cleanups at 2. simpl. lia.
Qed.

Lemma toplevel_handlers_witness :
  (run [Ok (Invoke "makemap"); Raise KeyboardInterrupt; Ok (Invoke "polvec")]
   = ([Invoke "makemap"], Some KeyboardInterrupt)
   /\ (forall msg, KeyboardInterrupt <> StarUtilError msg))
  /\ pol2ip [Ok (Invoke "makemap"); Raise KeyboardInterrupt; Ok (Invoke "polvec")]
     = ([Invoke "makemap"] ++ [Cleanup], Some KeyboardInterrupt)
  /\ pol2stack [Ok (Invoke "makemap"); Raise KeyboardInterrupt; Ok (Invoke "polvec")]
     = ([Invoke "makemap"] ++ [Cleanup], Some KeyboardInterrupt)
  /\ configmeld [Ok (Invoke "makemap"); Raise KeyboardInterrupt; Ok (Invoke "polvec")]
     = ([Invoke "makemap"] ++ [Cleanup], Some KeyboardInterrupt)
  /\ tounimap "tmp"
       [Ok (Invoke "makemap"); Raise KeyboardInterrupt; Ok (Invoke "polvec")]
     = ([Invoke "makemap"] ++ [Print (retained_msg "tmp")], Some KeyboardInterrupt).
Proof.
  assert (Hne : forall msg, KeyboardInterrupt <> StarUtilError msg)
    by (intros msg; discriminate).
  split; [split; [reflexivity | exact Hne]|].
  exact (proj1 (proj2 (proj2
           (toplevel_handlers "tmp"
              [Ok (Invoke "makemap"); Raise KeyboardInterrupt; Ok (Invoke "polvec")]
              [Invoke "makemap"])))
           KeyboardInterrupt Hne eq_refl).
Defined.

(** C2 as stated fails for tounimap: after a failed step it prints the
    error and that the files are retained, and never calls [cleanup()]. *)
Lemma tounimap_failure_skips_cleanup :
  tounimap "tmp" [Ok (Invoke "makemap"); Raise (StarUtilError "makemap failed")]
  = ([Invoke "makemap"; Print "makemap failed"; Print (retained_msg "tmp")], None)
  /\ cleanups
       (fst (tounimap "tmp"
               [Ok (Invoke "makemap"); Raise (StarUtilError "makemap failed")]))
     = 0%nat
  /\ tounimap "tmp" [Ok (Invoke "makemap"); Raise KeyboardInterrupt]
     = ([Invoke "makemap"; Print (retained_msg "tmp")], Some KeyboardInterrupt)
  /\ cleanups
       (fst (tounimap "tmp" [Ok (Invoke "makemap"); Raise KeyboardInterrupt]))
     = 0%nat.
Proof. repeat split. Qed.

(** ** The claim about configmeld's wavebands *)

Import Configmeld.

Lemma opt_eqb_refl (w : option string) : opt_eqb w w = true.
Proof. destruct w; simpl; [apply String.eqb_refl | reflexivity]. Qed.

(** C9: when both configs are NDFs, one with a 450 um and one with an
    850 um subarray code, each keeps its own waveband, in the selection
    passed to configecho and in the messages (after a warning that they
    differ); when neither config is an NDF, the WAVEBAND parameter is the
    waveband of both. *)
Theorem waveband_selection (config1 config2 WAVEBAND : string) (p1 p2 : probe) :
  (forall s1 s2,
      find_subarray p1 = (true, Some s1) -> substring 1 1 s1 = "4"%string ->
      find_subarray p2 = (true, Some s2) -> substring 1 1 s2 = "8"%string ->
      wavebands config1 config2 WAVEBAND p1 p2
      = Ok (mkSelection true true (Some "450"%string) (Some "850"%string)
              "'850=0,450=1'" "'850=1,450=0'"
              [(nl ++ "  Supplied NDFs are for different wavebands")%string;
               (nl ++ "  Showing 450 um values from " ++ config1)%string;
               (nl ++ "  Showing 850 um values from " ++ config2)%string]))
  /\ (forall s1 s2,
         find_subarray p1 = (true, Some s1) -> substring 1 1 s1 = "8"%string ->
         find_subarray p2 = (true, Some s2) -> substring 1 1 s2 = "4"%string ->
         wavebands config1 config2 WAVEBAND p1 p2
         = Ok (mkSelection true true (Some "850"%string) (Some "450"%string)
                 "'850=1,450=0'" "'850=0,450=1'"
                 [(nl ++ "  Supplied NDFs are for different wavebands")%string;
                  (nl ++ "  Showing 850 um values from " ++ config1)%string;
                  (nl ++ "  Showing 450 um values from " ++ config2)%string]))
  /\ (fst (find_subarray p1) = false -> fst (find_subarray p2) = false ->
      wavebands config1 config2 WAVEBAND p1 p2
      = Ok (mkSelection false false (Some WAVEBAND) (Some WAVEBAND)
              (select (Some WAVEBAND)) (select (Some WAVEBAND))
              [(nl ++ "  Showing " ++ WAVEBAND ++ " um values")%string])).
Proof.
  split; [|split].
  - intros s1 s2 H1 E1 H2 E2. unfold wavebands. rewrite H1, H2.
    unfold waveband_of. rewrite E1, E2. reflexivity.
  - intros s1 s2 H1 E1 H2 E2. unfold wavebands. rewrite H1, H2.
    unfold waveband_of. rewrite E1, E2. reflexivity.
  - intros H1 H2. unfold wavebands.
    destruct (find_subarray p1) as [n1 sa1]. destruct (find_subarray p2) as [n2 sa2].
    simpl in H1, H2. subst n1 n2. cbn [waveband_of bind merge is_none negb andb].
    unfold report. rewrite opt_eqb_refl. reflexivity.
Qed.

Lemma waveband_selection_witness :
  (find_subarray ndf450 = (true, Some "s4a"%string)
   /\ find_subarray ndf850 = (true, Some "s8"%string)
   /\ wavebands "a.sdf" "b.sdf" "850" ndf450 ndf850
      = Ok (mkSelection true true (Some "450"%string) (Some "850"%string)
              "'850=0,450=1'" "'850=1,450=0'"
              [(nl ++ "  Supplied NDFs are for different wavebands")%string;
               (nl ++ "  Showing 450 um values from a.sdf")%string;
               (nl ++ "  Showing 850 um values from b.sdf")%string]))
  /\ (fst (find_subarray plain) = false
      /\ wavebands "^a.lis" "^b.lis" "450" plain plain
         = Ok (mkSelection false false (Some "450"%string) (Some "450"%string)
                 "'850=0,450=1'" "'850=0,450=1'"
                 [(nl ++ "  Showing 450 um values")%string])).
Proof.
  split.
  - split; [reflexivity|]. split; [reflexivity|].
    exact (proj1 (waveband_selection "a.sdf" "b.sdf" "850" ndf450 ndf850)
             "s4a"%string "s8"%string eq_refl eq_refl eq_refl eq_refl).
  - split; [reflexivity|].
    exact (proj2 (proj2 (waveband_selection "^a.lis" "^b.lis" "450" plain plain))
             eq_refl eq_refl).
Defined.

(** ** Further properties of the fit loop *)

Lemma pair2_round : reject_round pair2 zero = Ok (pair2, sqrt 1, sqrt 1).
Proof.
  assert (Hal : aligned pair2) by (split; reflexivity).
  assert (HQ : resid pair2 true zero = Ok (sqrt 1)).
  { apply resid_value; [exact Hal | discriminate |].
    unfold sumsq, pair2. eval_lists. eval_residuals. simpl INR. lra. }
  assert (HU : resid pair2 false zero = Ok (sqrt 1)).
  { apply resid_value; [exact Hal | discriminate |].
    unfold sumsq, pair2. eval_lists. eval_residuals. simpl INR. lra. }
  assert (Hin : forall useq i, (i < length (elist pair2))%nat ->
                               Rabs (residual pair2 useq zero i) < 2 * sqrt 1).
  { intros useq i Hi. rewrite sqrt_1. unfold pair2, horizon, zero in *.
    simpl in Hi.
    do 2 (destruct i as [|i];
          [rewrite residual_at0 by reflexivity; destruct useq; simpl; abs_lra|]).
    lia. }
  unfold reject_round. rewrite HQ. cbn [bind].
  rewrite reject_none by (try exact Hal; apply Hin). cbn [bind].
  rewrite HU. cbn [bind].
  rewrite reject_none by (try exact Hal; apply Hin). reflexivity.
Qed.

Lemma pair2_fit_loop :
  fit_loop (constantly zero) pair2
  = Ok (mkFit pair2 (Some (zero, sqrt 1, sqrt 1))
          [(1, 2); (2, 2); (3, 2)]%nat).
Proof.
  unfold fit_loop, range2. cbn [Nat.sub seq foldM].
  unfold fit_iteration, constantly. cbn [fit_globals fit_msgs].
  rewrite pair2_round. cbn [bind fit_globals fit_msgs].
  rewrite pair2_round. cbn [bind fit_globals fit_msgs].
  rewrite pair2_round. reflexivity.
Qed.

(** X1: the loop has no exit but the end of [range(0,3)] and an exception: it
    is three iterations in sequence, and whenever it returns it has
    announced the iterations 1, 2 and 3, bound [res.x], [qrms] and [urms],
    and kept a selection of the observations it started from. *)
Theorem fit_loop_returns_after_three_iterations (minimize : minimizer)
  (g : globals) :
  fit_loop minimize g
  = (s1 <- fit_iteration minimize 0 (mkFit g None []) ;;
     s2 <- fit_iteration minimize 1 s1 ;;
     s3 <- fit_iteration minimize 2 s2 ;;
     Ok s3)
  /\ (forall st,
         aligned g -> fit_loop minimize g = Ok st ->
         map fst (fit_msgs st) = [1; 2; 3]%nat
         /\ (exists x qrms urms, fit_res st = Some (x, qrms, urms))
         /\ selection_of g (fit_globals st)).
Proof.
  split; [reflexivity|].
  intros st Hal H. unfold fit_loop in H.
  pose proof (iterations_selection minimize _ (mkFit g None []) st Hal H)
    as [Hsel Hmsgs].
  split; [exact Hmsgs|]. split; [|exact Hsel].
  unfold range2 in H. cbn [Nat.sub seq foldM] in H.
  destruct (fit_iteration minimize 0 _) as [s1|]; [|discriminate].
  destruct (fit_iteration minimize 1 s1) as [s2|]; [|discriminate].
  unfold fit_iteration in H.
  destruct (reject_round _ _) as [[[g2 qrms] urms]|]; [|discriminate].
  simpl in H. inversion H; subst. simpl. eauto.
Qed.

Lemma fit_loop_returns_after_three_iterations_witness :
  aligned pair2
  /\ fit_loop (constantly zero) pair2
     = Ok (mkFit pair2 (Some (zero, sqrt 1, sqrt 1)) [(1, 2); (2, 2); (3, 2)]%nat)
  /\ map fst [(1, 2); (2, 2); (3, 2)]%nat = [1; 2; 3]%nat
  /\ (exists x qrms urms,
         Some (zero, sqrt 1, sqrt 1) = Some (x, qrms, urms))
  /\ selection_of pair2 pair2.
Proof.
  assert (Hal : aligned pair2) by (split; reflexivity).
  split; [exact Hal|]. split; [exact pair2_fit_loop|].
  exact (proj2 (fit_loop_returns_after_three_iterations (constantly zero) pair2)
           _ Hal pair2_fit_loop).
Defined.

Lemma fold_sum_acc (f : nat -> R) (l : list nat) (acc : R) :
  fold_left (fun res i => res + f i) l acc
  = acc + fold_left (fun res i => res + f i) l 0.
Proof.
  revert acc. induction l as [|a l IH]; intros acc; simpl; [lra|].
  rewrite IH, (IH (0 + f a)). lra.
Qed.







(** X3: what a pass keeps, for any limit: an observation stays exactly when
    its absolute residual is strictly below the limit. *)
Theorem reject_keeps_residuals_below_limit (g : globals) (useq : bool)
  (lim : R) (x : params) :
  aligned g ->
  exists idx,
    reject g useq lim x = Ok (restrict idx g)
    /\ StronglySorted lt idx
    /\ forall i, In i idx <->
                 (i < length (elist g))%nat /\ Rabs (residual g useq x i) < lim.
Proof.
  intros Hal. exists (kept g useq lim x).
  split; [apply reject_ok; exact Hal|].
  split; [apply kept_sorted | apply kept_iff].
Qed.

Lemma reject_keeps_residuals_below_limit_witness :
  aligned six
  /\ exists idx,
       reject six true (2 * sqrt 5) zero = Ok (restrict idx six)
       /\ StronglySorted lt idx
       /\ forall i, In i idx <->
                    (i < length (elist six))%nat
                    /\ Rabs (residual six true zero i) < 2 * sqrt 5.
Proof.
  assert (Hal : aligned six) by (split; reflexivity).
  split; [exact Hal|].
  exact (reject_keeps_residuals_below_limit six true (2 * sqrt 5) zero Hal).
Defined.

(** ** More about the objective, the residuals and the passes *)

Lemma objfun_prefix_ok (g : globals) (x : params) (l : list nat) :
  (forall i, In i l -> (i < length (elist g))%nat /\ (i < length (qlist g))%nat
                       /\ (i < length (ulist g))%nat) ->
  forall acc,
    foldM (fun i res =>
             '(qfp, ufp) <- model g i x ;;
             q <- getitem (qlist g) i ;;
             let dq := qfp - q in
             u <- getitem (ulist g) i ;;
             let du := ufp - u in
             Ok (res + (dq * dq + du * du))) l acc
    = Ok (fold_left (fun res i => res + sqdiff g x (nth i (elist g) 0)
                                         (nth i (qlist g) 0) (nth i (ulist g) 0))
                    l acc).
Proof.
  intros H.
  apply (foldM_ok _ (fun i res => res + sqdiff g x (nth i (elist g) 0)
                                   (nth i (qlist g) 0) (nth i (ulist g) 0))).
  intros i res Hi. destruct (H i Hi) as [He [Hq Hu]].
  rewrite model_ok by exact He. simpl.
  unfold sqdiff. destruct (model2 g (nth i (elist g) 0) x) as [qfp ufp].
  rewrite (getitem_nth 0) by exact Hq. simpl.
  rewrite (getitem_nth 0) by exact Hu. reflexivity.
Qed.

Lemma fold_sqdiff_nonneg (g : globals) (x : params) (l : list nat) (acc : R) :
  0 <= acc ->
  0 <= fold_left (fun res i => res + sqdiff g x (nth i (elist g) 0)
                                  (nth i (qlist g) 0) (nth i (ulist g) 0)) l acc.
Proof.
  revert acc. induction l as [|i l IH]; intros acc Hacc; simpl; [exact Hacc|].
  apply IH.
  pose proof (sqdiff_nonneg g x (nth i (elist g) 0) (nth i (qlist g) 0)
                (nth i (ulist g) 0)). lra.
Qed.

(** X4: [objfun] returns a (non-negative) value exactly when [qlist] and
    [ulist] are at least as long as [elist] (entries beyond are ignored);
    when one of them is shorter it raises [IndexError]. *)
Theorem objfun_raises_IndexError_on_short_lists (g : globals) (x : params) :
  ((length (elist g) <= length (qlist g))%nat ->
   (length (elist g) <= length (ulist g))%nat ->
   exists v, objfun g x = Ok v /\ 0 <= v)
  /\ ((length (qlist g) < length (elist g))%nat
      \/ (length (ulist g) < length (elist g))%nat ->
      objfun g x = Raise IndexError).
Proof.
  split.
  - intros Hq Hu. unfold objfun. rewrite objfun_prefix_ok.
    + eexists. split; [reflexivity|]. apply fold_sqdiff_nonneg. lra.
    + intros i Hi. apply in_range in Hi. lia.
  - intros Hshort.
    set (k := Nat.min (length (qlist g)) (length (ulist g))).
    assert (Hk : (k < length (elist g))%nat) by (unfold k; lia).
    unfold objfun, range.
    replace (seq 0 (length (elist g)))
      with (seq 0 (k + S (length (elist g) - S k))) by (f_equal; lia).
    rewrite seq_app, foldM_app. rewrite objfun_prefix_ok.
    + cbn [bind seq foldM Nat.add]. rewrite model_ok by exact Hk. cbn [bind].
      destruct (model2 g (nth k (elist g) 0) x) as [qfp ufp].
      destruct (Nat.le_gt_cases (length (qlist g)) k) as [Hqk|Hqk].
      * rewrite getitem_out by exact Hqk. reflexivity.
      * rewrite (getitem_nth 0) by exact Hqk. cbn [bind].
        rewrite getitem_out by (unfold k in *; lia). reflexivity.
    + intros i Hi. apply in_seq in Hi. unfold k in *. lia.
Qed.

Lemma objfun_raises_IndexError_on_short_lists_witness :
  ((length (qlist short_q) < length (elist short_q))%nat
   /\ objfun short_q zero = Raise IndexError)
  /\ exists v, objfun long_qu zero = Ok v /\ 0 <= v.
Proof.
  split.
  - assert (H : (length (qlist short_q) < length (elist short_q))%nat)
      by (simpl; lia).
    split; [exact H|].
    exact (proj2 (objfun_raises_IndexError_on_short_lists short_q zero)
             (or_introl H)).
  - apply (proj1 (objfun_raises_IndexError_on_short_lists long_qu zero));
      simpl; lia.
Defined.

Lemma fold_sum_plus (f h : nat -> R) (l : list nat) :
  fold_left (fun res i => res + (f i + h i)) l 0
  = fold_left (fun res i => res + f i) l 0 + fold_left (fun res i => res + h i) l 0.
Proof.
  induction l as [|a l IH]; simpl; [lra|].
  rewrite (fold_sum_acc (fun i => f i + h i)), (fold_sum_acc f), (fold_sum_acc h).
  rewrite IH. lra.
Qed.

Lemma fold_sum_ext (f h : nat -> R) (l : list nat) (acc : R) :
  (forall i, f i = h i) ->
  fold_left (fun res i => res + f i) l acc
  = fold_left (fun res i => res + h i) l acc.
Proof.
  intros E. revert acc. induction l as [|a l IH]; intros acc; simpl.
  - reflexivity.
  - rewrite E. apply IH.
Qed.

Lemma sqdiff_residuals (g : globals) (x : params) (i : nat) :
  sqdiff g x (nth i (elist g) 0) (nth i (qlist g) 0) (nth i (ulist g) 0)
  = residual g true x i * residual g true x i
    + residual g false x i * residual g false x i.
Proof.
  unfold sqdiff, residual.
  destruct (model2 g (nth i (elist g) 0) x) as [qfp ufp]. reflexivity.
Qed.

(** X5: on a non-empty aligned dataset the objective is the number of
    observations times the sum of the squared Q and U RMS residuals:
    [objfun(x) = n * (resid(True,x)^2 + resid(False,x)^2)]. *)
Theorem objfun_is_n_times_squared_rms (g : globals) (x : params) :
  aligned g -> elist g <> [] ->
  exists qrms urms,
    resid g true x = Ok qrms /\ resid g false x = Ok urms
    /\ 0 <= qrms /\ 0 <= urms
    /\ objfun g x
       = Ok (INR (length (elist g)) * (qrms * qrms + urms * urms)).
Proof.
  intros Hal Hne.
  exists (sqrt (sumsq g true x / INR (length (elist g)))),
         (sqrt (sumsq g false x / INR (length (elist g)))).
  split; [apply resid_ok; assumption|].
  split; [apply resid_ok; assumption|].
  split; [apply sqrt_pos|]. split; [apply sqrt_pos|].
  rewrite objfun_loop_ok by exact Hal. f_equal.
  assert (Hn : 0 < INR (length (elist g))).
  { apply lt_0_INR. destruct (elist g); [congruence | simpl; lia]. }
  assert (Hm : forall useq, 0 <= sumsq g useq x / INR (length (elist g))).
  { intros useq. apply Rmult_le_pos; [apply sumsq_nonneg|].
    left. apply Rinv_0_lt_compat. exact Hn. }
  rewrite !sqrt_sqrt by apply Hm.
  transitivity (sumsq g true x + sumsq g false x); [|field; lra].
  unfold sumsq.
  rewrite <- (fold_sum_plus
                (fun i => residual g true x i * residual g true x i)
                (fun i => residual g false x i * residual g false x i)).
  apply (fold_sum_ext
           (fun i => sqdiff g x (nth i (elist g) 0) (nth i (qlist g) 0)
                       (nth i (ulist g) 0))).
  intros i. apply sqdiff_residuals.
Qed.

Lemma objfun_is_n_times_squared_rms_witness :
  (aligned six /\ elist six <> [])
  /\ exists qrms urms,
       resid six true zero = Ok qrms /\ resid six false zero = Ok urms
       /\ 0 <= qrms /\ 0 <= urms
       /\ objfun six zero
          = Ok (INR (length (elist six)) * (qrms * qrms + urms * urms)).
Proof.
  assert (Hal : aligned six) by (split; reflexivity).
  assert (Hne : elist six <> []) by discriminate.
  split; [split; [exact Hal | exact Hne]|].
  exact (objfun_is_n_times_squared_rms six zero Hal Hne).
Defined.

Lemma residual_restrict (g : globals) (useq : bool) (x : params)
  (idx : list nat) (j : nat) :
  (j < length idx)%nat ->
  residual (restrict idx g) useq x j = residual g useq x (nth j idx 0%nat).
Proof.
  intros Hj. unfold residual, restrict, model2; cbn [elist qlist ulist ival].
  unfold pick. rewrite !(nth_map_in _ _ _ 0%nat) by exact Hj. reflexivity.
Qed.

Lemma filter_shift (f : nat -> bool) (k n : nat) :
  filter f (seq (S k) n) = map S (filter (fun j => f (S j)) (seq k n)).
Proof.
  revert k. induction n as [|n IH]; intros k; simpl; [reflexivity|].
  rewrite IH. destruct (f (S k)); reflexivity.
Qed.

Lemma pick_filter_nth {A : Type} (d : A) (c : A -> bool) (l : list A) :
  pick d (filter (fun j => c (nth j l d)) (seq 0 (length l))) l = filter c l.
Proof.
  induction l as [|a l IH]; [reflexivity|].
  cbn [length seq filter nth]. rewrite filter_shift.
  assert (Etail : pick d (map S (filter (fun j => c (nth (S j) (a :: l) d))
                                        (seq 0 (length l)))) (a :: l)
                  = filter c l).
  { unfold pick. rewrite map_map. cbn [nth]. exact IH. }
  destruct (c a).
  - unfold pick in *. cbn [map nth]. f_equal. exact Etail.
  - exact Etail.
Qed.

Lemma filter_filter_and {A : Type} (f h : A -> bool) (l : list A) :
  filter h (filter f l) = filter (fun a => f a && h a) l.
Proof.
  induction l as [|a l IH]; simpl; [reflexivity|].
  destruct (f a); simpl; [destruct (h a); rewrite IH; reflexivity | exact IH].
Qed.

Lemma restrict_restrict (g : globals) (idx1 idx2 : list nat) :
  Forall (fun j => (j < length idx1)%nat) idx2 ->
  restrict idx2 (restrict idx1 g) = restrict (pick 0%nat idx2 idx1) g.
Proof.
  intros H. unfold restrict; cbn [elist qlist ulist alist utlist obsnumlist
                                  wvmlist ival].
  rewrite !pick_pick by exact H. reflexivity.
Qed.

(** Two passes in a row keep the observations that are below both
    limits. *)
Lemma reject_twice (g : globals) (x : params) (u1 u2 : bool) (l1 l2 : R) :
  aligned g ->
  bind (reject g u1 l1 x) (fun g1 => reject g1 u2 l2 x)
  = Ok (restrict
          (filter (fun i => Rltb (Rabs (residual g u1 x i)) l1
                            && Rltb (Rabs (residual g u2 x i)) l2)
                  (range (length (elist g)))) g).
Proof.
  intros Hal. rewrite reject_ok by exact Hal. cbn [bind].
  rewrite reject_ok by apply restrict_aligned. f_equal.
  set (K1 := kept g u1 l1 x).
  assert (EK : kept (restrict K1 g) u2 l2 x
               = filter (fun j => Rltb (Rabs (residual g u2 x (nth j K1 0%nat))) l2)
                        (seq 0 (length K1))).
  { unfold kept at 1, range. cbn [restrict elist]. rewrite pick_length.
    apply filter_ext_in. intros j Hj. apply in_seq in Hj.
    rewrite residual_restrict by lia. reflexivity. }
  rewrite restrict_restrict.
  - rewrite EK.
    rewrite (pick_filter_nth 0%nat
               (fun i => Rltb (Rabs (residual g u2 x i)) l2) K1).
    unfold K1, kept. rewrite filter_filter_and. reflexivity.
  - rewrite EK. apply Forall_forall. intros j Hj.
    apply filter_In in Hj. destruct Hj as [Hj _]. apply in_seq in Hj. lia.
Qed.

(** X6: on aligned lists two passes of [reject] with given limits keep
    exactly the observations whose residuals are below both limits, in
    their order: the order of the two passes does not matter, and a pass
    repeated with the same limit changes nothing more. *)
Theorem reject_passes_compose (g : globals) (x : params) (u1 u2 : bool)
  (l1 l2 : R) :
  aligned g ->
  (exists idx,
      bind (reject g u1 l1 x) (fun g1 => reject g1 u2 l2 x) = Ok (restrict idx g)
      /\ StronglySorted lt idx
      /\ forall i, In i idx <->
                   (i < length (elist g))%nat
                   /\ Rabs (residual g u1 x i) < l1
                   /\ Rabs (residual g u2 x i) < l2)
  /\ bind (reject g u1 l1 x) (fun g1 => reject g1 u2 l2 x)
     = bind (reject g u2 l2 x) (fun g1 => reject g1 u1 l1 x)
  /\ bind (reject g u1 l1 x) (fun g1 => reject g1 u1 l1 x) = reject g u1 l1 x.
Proof.
  intros Hal. split; [|split].
  - eexists. split; [apply reject_twice; exact Hal|].
    split; [apply sorted_filter, sorted_seq|].
    intros i. rewrite filter_In, in_range, andb_true_iff, !Rltb_true. tauto.
  - rewrite !reject_twice by exact Hal. do 2 f_equal.
    apply filter_ext. intros i. apply andb_comm.
  - rewrite reject_twice, reject_ok by exact Hal. do 2 f_equal.
    unfold kept. apply filter_ext. intros i. apply andb_diag.
Qed.

Lemma reject_passes_compose_witness :
  aligned six
  /\ bind (reject six true 4 zero) (fun g1 => reject g1 false 5 zero)
     = bind (reject six false 5 zero) (fun g1 => reject g1 true 4 zero)
  /\ bind (reject six true 4 zero) (fun g1 => reject g1 true 4 zero)
     = reject six true 4 zero.
Proof.
  assert (Hal : aligned six) by (split; reflexivity).
  split; [exact Hal|].
  exact (proj2 (reject_passes_compose six zero true false 4 5 Hal)).
Defined.

Lemma sorted_length_bound (n a : nat) (l : list nat) :
  StronglySorted lt (a :: l) -> Forall (fun i => (i < n)%nat) (a :: l) ->
  (length (a :: l) + a <= n)%nat.
Proof.
  revert a. induction l as [|b l IH]; intros a Hs Hr.
  - inversion Hr; subst. simpl. lia.
  - inversion Hs as [|? ? Hs' Ha]; subst. inversion Hr as [|? ? _ Hr']; subst.
    specialize (IH b Hs' Hr').
    inversion Ha; subst. simpl in *. lia.
Qed.

Lemma selection_length (g0 g : globals) :
  selection_of g0 g -> (length (elist g) <= length (elist g0))%nat.
Proof.
  intros [idx [Hs [Hr [E _]]]]. rewrite E, pick_length.
  destruct idx as [|a l]; [simpl; lia|].
  pose proof (sorted_length_bound _ a l Hs Hr). lia.
Qed.

(** X7: rejection never adds observations: when the loop returns from
    aligned lists, the numbers of data points announced for iterations 1,
    2 and 3 start at the number of observations and never increase, and
    the lists left at the end are no longer than the last of them. *)
Theorem fit_loop_counts_never_increase (minimize : minimizer) (g : globals)
  (st : fitstate) :
  aligned g -> fit_loop minimize g = Ok st ->
  exists n2 n3,
    fit_msgs st = [(1, length (elist g)); (2, n2); (3, n3)]%nat
    /\ (n3 <= n2 <= length (elist g))%nat
    /\ (length (elist (fit_globals st)) <= n3)%nat.
Proof.
  intros Hal H. unfold fit_loop, range2 in H. cbn [Nat.sub seq foldM] in H.
  destruct (fit_iteration minimize 0 _) as [s1|] eqn:E1; [|discriminate].
  destruct (fit_iteration minimize 1 s1) as [s2|] eqn:E2; [|discriminate].
  destruct (fit_iteration minimize 2 s2) as [s3|] eqn:E3; [|discriminate].
  inversion H; subst s3. clear H.
  apply fit_iteration_selection in E1; [|exact Hal]. destruct E1 as [S1 M1].
  pose proof (selection_aligned _ _ S1) as A1.
  apply fit_iteration_selection in E2; [|exact A1]. destruct E2 as [S2 M2].
  pose proof (selection_aligned _ _ S2) as A2.
  apply fit_iteration_selection in E3; [|exact A2]. destruct E3 as [S3 M3].
  simpl in S1, M1.
  exists (length (elist (fit_globals s1))), (length (elist (fit_globals s2))).
  split; [rewrite M3, M2, M1; reflexivity|].
  pose proof (selection_length _ _ S1). pose proof (selection_length _ _ S2).
  pose proof (selection_length _ _ S3). lia.
Qed.

Lemma fit_loop_counts_never_increase_witness :
  aligned pair2
  /\ exists n2 n3,
       [(1, 2); (2, 2); (3, 2)]%nat
       = [(1, length (elist pair2)); (2, n2); (3, n3)]%nat
       /\ (n3 <= n2 <= length (elist pair2))%nat
       /\ (length (elist pair2) <= n3)%nat.
Proof.
  assert (Hal : aligned pair2) by (split; reflexivity).
  split; [exact Hal|].
  exact (fit_loop_counts_never_increase (constantly zero) pair2 _ Hal
           pair2_fit_loop).
Defined.

(** ** pol2ip: pixel sizes, restart and the output table *)

Import Pol2ipMain.

Lemma Reqb_true (a b : R) : Reqb a b = true <-> a = b.
Proof. unfold Reqb. destruct (Req_dec_T a b); split; intros; easy. Qed.

Lemma Reqb_false (a b : R) : Reqb a b = false <-> a <> b.
Proof. unfold Reqb. destruct (Req_dec_T a b); split; intros; easy. Qed.

Lemma Reqb_refl (a : R) : Reqb a a = true.
Proof. apply Reqb_true. reflexivity. Qed.

Lemma pixsize_obs_some (q u a : R) (r : option R) :
  pixsize_obs (q, u) (Some a) = Ok r <-> r = Some a /\ q = a /\ u = a.
Proof.
  unfold pixsize_obs, differs.
  destruct (Reqb q a) eqn:Eq; simpl.
  - apply Reqb_true in Eq. destruct (Reqb u a) eqn:Eu; simpl.
    + apply Reqb_true in Eu. split.
      * intros H. inversion H. auto.
      * intros [-> _]. reflexivity.
    + apply Reqb_false in Eu. split; [discriminate | tauto].
  - apply Reqb_false in Eq. split; [discriminate | tauto].
Qed.

Lemma pixsize_obs_raises (pix : R * R) (a0 : option R) (e : exn) :
  pixsize_obs pix a0 = Raise e -> exists msg, e = StarUtilError msg.
Proof.
  destruct pix as [q u]. unfold pixsize_obs, differs.
  destruct a0 as [a|]; cbn [bind].
  - destruct (Reqb q a); cbn [negb bind].
    + destruct (Reqb u a); cbn [negb]; intros H; inversion H. eauto.
    + intros H. inversion H. eauto.
  - destruct (Reqb u q); cbn [negb]; intros H; inversion H. eauto.
Qed.

Lemma pixsize_fold_some (l : list (R * R)) (a : R) (r : option R) :
  foldM pixsize_obs l (Some a) = Ok r
  <-> r = Some a /\ Forall (fun pix => fst pix = a /\ snd pix = a) l.
Proof.
  induction l as [|[q u] l IH]; cbn [foldM].
  - split.
    + intros H. inversion H. auto.
    + intros [-> _]. reflexivity.
  - destruct (pixsize_obs (q, u) (Some a)) as [r1|e] eqn:E.
    + apply pixsize_obs_some in E. destruct E as [-> [-> ->]].
      rewrite IH. split.
      * intros [-> H]. split; [reflexivity|]. constructor; auto.
      * intros [-> H]. inversion H; subst. auto.
    + split; [discriminate|].
      intros [_ H]. inversion H as [|? ? [Hq Hu] _]. simpl in Hq, Hu.
      rewrite Hq, Hu in E.
      assert (Hok : pixsize_obs (a, a) (Some a) = Ok (Some a))
        by (apply pixsize_obs_some; auto).
      congruence.
Qed.

Lemma pixsize_fold_raises (l : list (R * R)) (a0 : option R) (e : exn) :
  foldM pixsize_obs l a0 = Raise e -> exists msg, e = StarUtilError msg.
Proof.
  revert a0. induction l as [|pix l IH]; intros a0; cbn [foldM];
    [discriminate|].
  destruct (pixsize_obs pix a0) as [a1|e1] eqn:E.
  - apply IH.
  - intros H. inversion H; subst. eapply pixsize_obs_raises. exact E.
Qed.

(** X8: pol2ip gets as far as the fit only when there is at least one
    observation and the Q map and the U map of every observation, and the
    resampled IREF map, all have the same pixel size; anything else, an
    empty observation list included, ends in a [UsageError]. *)
Theorem pixsize_check_accepts_equal_pixel_sizes (obspix : list (R * R))
  (irefpix : R) :
  (forall r, pixsize_check obspix irefpix = Ok r
             <-> r = Some irefpix /\ obspix <> []
                 /\ Forall (fun pix => fst pix = irefpix /\ snd pix = irefpix)
                           obspix)
  /\ (forall e, pixsize_check obspix irefpix = Raise e ->
                exists msg, e = StarUtilError msg)
  /\ pixsize_check [] irefpix
     = Raise (StarUtilError "IREF map had pixel size {0} - was expecting {1}").
Proof.
  split; [|split; [|reflexivity]].
  - intros r. unfold pixsize_check.
    destruct obspix as [|[q u] l].
    + simpl. split; [discriminate | intros [_ [H _]]; congruence].
    + cbn [foldM].
      destruct (pixsize_obs (q, u) None) as [a1|e] eqn:E.
      * unfold pixsize_obs, differs in E. cbn [bind] in E.
        destruct (Reqb u q) eqn:D; cbn [negb] in E; [|discriminate].
        inversion E; subst a1. clear E.
        apply Reqb_true in D. subst u.
        destruct (foldM pixsize_obs l (Some q)) as [r1|e] eqn:F; cbn [bind].
        -- apply pixsize_fold_some in F. destruct F as [-> F].
           unfold differs. destruct (Reqb irefpix q) eqn:Ei; simpl.
           ++ apply Reqb_true in Ei. subst q. split.
              ** intros H. inversion H. split; [reflexivity|].
                 split; [discriminate|]. constructor; auto.
              ** intros [-> _]. reflexivity.
           ++ apply Reqb_false in Ei. split; [discriminate|].
              intros [_ [_ H]]. apply Forall_cons_iff in H.
              destruct H as [[Hq _] _]. simpl in Hq. congruence.
        -- split; [discriminate|].
           intros [_ [_ H]]. apply Forall_cons_iff in H.
           destruct H as [[Hq _] Hl]. simpl in Hq. subst q.
           assert (Hok : foldM pixsize_obs l (Some irefpix) = Ok (Some irefpix))
             by (apply pixsize_fold_some; auto).
           congruence.
      * cbn [bind]. split; [discriminate|].
        intros [_ [_ H]]. apply Forall_cons_iff in H.
        destruct H as [[Hq Hu] _]. simpl in Hq, Hu. subst q u.
        unfold pixsize_obs, differs in E. cbn [bind] in E.
        rewrite Reqb_refl in E. discriminate.
  - intros e. unfold pixsize_check.
    destruct (foldM pixsize_obs obspix None) as [a0|e0] eqn:F; cbn [bind].
    + destruct (differs irefpix a0); intros H; inversion H. eauto.
    + intros H. inversion H; subst. eapply pixsize_fold_raises. exact F.
Qed.

Lemma lookup_saved (diam : R) (old : option R) :
  lookup (load_params (save_params diam old)) "pixsize"
  = if truthy old then old else None.
Proof.
  unfold save_params. destruct old as [v|]; [|reflexivity].
  destruct (truthy (Some v)); reflexivity.
Qed.

(** X9: across a restart the maps are made again exactly when the pixel
    size asked for has changed (a value written to PARAMS being read back
    as the same number): with the PARAMS that a run with pixel size [old]
    wrote, [newpixsize] is false when neither run gave a pixel size,
    or both gave the same one, and true otherwise; without PARAMS it is
    true exactly when a pixel size is given now; without RESTART it is
    always false. *)
Theorem newpixsize_after_save (diam : R) (old new : option R) :
  (newpixsize true (Some (save_params diam old)) new = false
   <-> (truthy old = false /\ truthy new = false)
       \/ (exists v, old = Some v /\ new = Some v /\ v <> 0))
  /\ newpixsize true None new = truthy new
  /\ (forall parfile, newpixsize false parfile new = false)
  /\ (forall mapfile_exists,
         remake mapfile_exists (newpixsize true (Some (save_params diam old)) new)
         = false
         <-> mapfile_exists = true
             /\ newpixsize true (Some (save_params diam old)) new = false).
Proof.
  split; [|split; [|split]].
  - unfold newpixsize. rewrite lookup_saved.
    destruct old as [o|]; destruct new as [n|]; unfold truthy.
    + destruct (Reqb o 0) eqn:Eo; cbn [negb].
      * destruct (Reqb n 0) eqn:En; cbn [negb]; split; try discriminate; auto.
        intros [[_ H]|[v [Ho [Hn Hv]]]]; [discriminate|].
        inversion Ho; inversion Hn; subst. apply Reqb_true in Eo. contradiction.
      * apply Reqb_false in Eo.
        destruct (Reqb n 0) eqn:En; cbn [negb orb].
        -- split; [discriminate|].
           intros [[H _]|[v [Ho [Hn Hv]]]]; [discriminate|].
           inversion Ho; inversion Hn; subst. apply Reqb_true in En. contradiction.
        -- destruct (Reqb o n) eqn:Eon; cbn [negb].
           ++ apply Reqb_true in Eon. subst n. split; [|reflexivity].
              intros _. right. exists o. auto.
           ++ apply Reqb_false in Eon. split; [discriminate|].
              intros [[H _]|[v [Ho [Hn Hv]]]]; [discriminate|].
              inversion Ho; inversion Hn; subst. contradiction.
    + destruct (Reqb o 0) eqn:Eo; cbn [negb orb].
      * split; auto.
      * split; [discriminate|].
        intros [[H _]|[v [_ [Hn _]]]]; discriminate.
    + destruct (Reqb n 0) eqn:En; cbn [negb].
      * split; auto.
      * split; [discriminate|].
        intros [[_ H]|[v [Ho _]]]; discriminate.
    + split; auto.
  - unfold newpixsize. destruct (truthy new); reflexivity.
  - reflexivity.
  - intros m. unfold remake. destruct m; simpl.
    + split; [intros H; auto | intros [_ H]; exact H].
    + split; [discriminate | intros [H _]; discriminate].
Qed.

Lemma py_in_true (a : R) (l : list R) : py_in a l = true <-> In a l.
Proof.
  unfold py_in. rewrite existsb_exists. split.
  - intros [b [Hb E]]. apply Reqb_true in E. subst. exact Hb.
  - intros H. exists a. split; [exact H | apply Reqb_refl].
Qed.

Lemma in_pick {A : Type} (d : A) (idx : list nat) (l : list A) (i : nat) :
  In i idx -> In (nth i l d) (pick d idx l).
Proof. intros H. unfold pick. apply (in_map (fun j => nth j l d)). exact H. Qed.

(** X10: the "rej" column looks each value up in the current lists.  For
    lists [g] that hold the observations [idx] of the recorded lists [g0]:
    a retained observation is never flagged as rejected; and when the
    recorded elevations are pairwise different the flag is exact, 0 for
    the retained observations and 1 for the rejected ones. *)
Theorem rej_flags_rejected_observations (g0 g : globals) (idx : list nat) :
  aligned g0 ->
  Forall (fun i => (i < length (elist g0))%nat) idx ->
  elist g = pick 0 idx (elist g0) ->
  qlist g = pick 0 idx (qlist g0) ->
  ulist g = pick 0 idx (ulist g0) ->
  (forall i, In i idx -> rej g0 g i = Ok 0%nat)
  /\ (NoDup (elist g0) ->
      forall i, (i < length (elist g0))%nat ->
                rej g0 g i = Ok (if existsb (Nat.eqb i) idx then 0 else 1)%nat).
Proof.
  intros [Hq Hu] Hr Ee Eq Eu.
  assert (Hkept : forall i, In i idx -> rej g0 g i = Ok 0%nat).
  { intros i Hi. rewrite Forall_forall in Hr. pose proof (Hr i Hi) as Hn.
    unfold rej. rewrite (getitem_nth 0) by exact Hn. cbn [bind].
    replace (py_in (nth i (elist g0) 0) (elist g)) with true
      by (symmetry; apply py_in_true; rewrite Ee; apply in_pick; exact Hi).
    rewrite (getitem_nth 0) by lia. cbn [bind].
    replace (py_in (nth i (qlist g0) 0) (qlist g)) with true
      by (symmetry; apply py_in_true; rewrite Eq; apply in_pick; exact Hi).
    rewrite (getitem_nth 0) by lia. cbn [bind].
    replace (py_in (nth i (ulist g0) 0) (ulist g)) with true
      by (symmetry; apply py_in_true; rewrite Eu; apply in_pick; exact Hi).
    reflexivity. }
  split; [exact Hkept|].
  intros Hnd i Hn.
  destruct (existsb (Nat.eqb i) idx) eqn:Ex.
  - apply existsb_exists in Ex. destruct Ex as [j [Hj E]].
    apply Nat.eqb_eq in E. subst j. apply Hkept. exact Hj.
  - unfold rej. rewrite (getitem_nth 0) by exact Hn. cbn [bind].
    replace (py_in (nth i (elist g0) 0) (elist g)) with false; [reflexivity|].
    symmetry. apply not_true_is_false. intros Hin. apply py_in_true in Hin.
    rewrite Ee in Hin. unfold pick in Hin. apply in_map_iff in Hin.
    destruct Hin as [j [Ej Hj]].
    rewrite Forall_forall in Hr. pose proof (Hr j Hj) as Hjn.
    assert (j = i) by (eapply (proj1 (NoDup_nth (elist g0) 0) Hnd); eassumption).
    subst j.
    assert (existsb (Nat.eqb i) idx = true)
      by (apply existsb_exists; exists i; split; [exact Hj | apply Nat.eqb_refl]).
    congruence.
Qed.

Lemma three_nodup : NoDup (elist three).
Proof.
  unfold three; cbn [elist].
  repeat constructor; simpl; intros H;
    repeat (destruct H as [H|H]; [lra|]); exact H.
Qed.

Lemma rej_flags_rejected_observations_witness :
  (aligned three
   /\ Forall (fun i => (i < length (elist three))%nat) [0; 2]%nat
   /\ NoDup (elist three))
  /\ rej three (restrict [0; 2]%nat three) 0 = Ok 0%nat
  /\ rej three (restrict [0; 2]%nat three) 1 = Ok 1%nat
  /\ rej three (restrict [0; 2]%nat three) 2 = Ok 0%nat.
Proof.
  assert (Hal : aligned three) by (split; reflexivity).
  assert (Hr : Forall (fun i => (i < length (elist three))%nat) [0; 2]%nat)
    by (repeat constructor; simpl; lia).
  split; [split; [exact Hal | split; [exact Hr | exact three_nodup]]|].
  pose proof (rej_flags_rejected_observations three
                (restrict [0; 2]%nat three) [0; 2]%nat Hal Hr
                eq_refl eq_refl eq_refl) as [_ H].
  specialize (H three_nodup).
  split; [|split].
  - apply (H 0%nat). simpl. lia.
  - apply (H 1%nat). simpl. lia.
  - apply (H 2%nat). simpl. lia.
Defined.

Lemma model2_modulus (g : globals) (el : R) (x : params) :
  fst (model2 g el x) * fst (model2 g el x)
  + snd (model2 g el x) * snd (model2 g el x)
  = Rsqr (ival g * p x (radians el)).
Proof.
  destruct x as [[a b] c]. unfold model2, p, Rsqr. cbn [fst snd].
  pose proof (sin2_cos2 (-2 * radians el)) as H. unfold Rsqr in H.
  replace (radians el ^ 2) with (radians el * radians el) by ring.
  set (s := sin (-2 * radians el)) in *. set (k := cos (-2 * radians el)) in *.
  set (m := ival g * (a + b * radians el + c * (radians el * radians el))).
  replace (ival g * (a + b * radians el + c * radians el * radians el)) with m
    by (unfold m; ring).
  transitivity (m * m * (s * s + k * k)); [ring | rewrite H; ring].
Qed.

(** X11: the fitted polarised intensity of the table does not depend on
    the rotation: [pifit] is the absolute value of [ival * (A + B*el +
    C*el^2)] (elevation in radians), so that [pfit] is the absolute value
    of the polynomial when the total intensity is positive; when the total
    intensity is 0, [pfit] raises [ZeroDivisionError]. *)
Theorem pifit_is_modulus_of_polynomial (g : globals) (el : R) (x : params) :
  pifit g el x = Rabs (ival g * p x (radians el))
  /\ (0 < ival g -> pfit g el x = Ok (Rabs (p x (radians el))))
  /\ (ival g = 0 -> pfit g el x = Raise ZeroDivisionError).
Proof.
  assert (E : pifit g el x = Rabs (ival g * p x (radians el))).
  { unfold pifit. pose proof (model2_modulus g el x) as H.
    destruct (model2 g el x) as [qfp ufp]. cbn [fst snd] in H.
    rewrite H. apply sqrt_Rsqr_abs. }
  split; [exact E|]. split.
  - intros Hpos. unfold pfit, py_fdiv.
    replace (Reqb (ival g) 0) with false
      by (symmetry; apply Reqb_false; lra).
    f_equal. rewrite E, Rabs_mult, (Rabs_right (ival g)) by lra.
    field. lra.
  - intros H0. unfold pfit, py_fdiv. rewrite H0, Reqb_refl. reflexivity.
Qed.

Lemma pifit_is_modulus_of_polynomial_witness :
  0 < ival six
  /\ pfit six 31 x0 = Ok (Rabs (p x0 (radians 31))).
Proof.
  assert (H : 0 < ival six) by (simpl; lra).
  split; [exact H|].
  exact (proj1 (proj2 (pifit_is_modulus_of_polynomial six 31 x0)) H).
Defined.

Lemma radians_in_range (el : R) : 0 < el < 180 -> 0 < radians el < PI.
Proof.
  intros [H0 H1]. unfold radians. pose proof PI_RGT_0 as Hpi. split.
  - apply Rmult_lt_0_compat; lra.
  - replace PI with (180 * (PI / 180)) at 2 by field.
    apply Rmult_lt_compat_r; lra.
Qed.

(** X12: for an elevation strictly between 0 and 180 degrees and an
    opacity of at least 0.00435 the "tran" column is a transmission: it
    is defined, positive and at most 1.  At elevation 0 the expression
    divides by [sin 0] and raises [ZeroDivisionError]. *)
Theorem tran_is_a_transmission (tau el : R) :
  (0 < el < 180 -> 435 / 100000 <= tau ->
   exists t, tran tau el = Ok t /\ 0 < t <= 1)
  /\ tran tau 0 = Raise ZeroDivisionError.
Proof.
  split.
  - intros Hel Htau. apply radians_in_range in Hel.
    assert (Hs : 0 < sin (radians el)) by (apply sin_gt_0; lra).
    unfold tran, py_fdiv.
    replace (Reqb (sin (radians el)) 0) with false
      by (symmetry; apply Reqb_false; lra).
    cbn [bind]. eexists. split; [reflexivity|].
    split; [apply exp_pos|].
    assert (He : - (46 / 10) * (tau - 435 / 100000) / sin (radians el) <= 0).
    { unfold Rdiv.
      pose proof (Rinv_0_lt_compat _ Hs) as Hinv.
      assert (Hn : - (46 / 10) * (tau - 435 / 100000) <= 0) by lra.
      nra. }
    destruct He as [He|He].
    + left. rewrite <- exp_0. apply exp_increasing. exact He.
    + right. rewrite He. apply exp_0.
  - unfold tran, py_fdiv. rewrite radians_0, sin_0, Reqb_refl. reflexivity.
Qed.

Lemma tran_is_a_transmission_witness :
  (0 < 31 < 180 /\ 435 / 100000 <= 1 / 10)
  /\ exists t, tran (1 / 10) 31 = Ok t /\ 0 < t <= 1.
Proof.
  assert (H1 : 0 < 31 < 180) by lra.
  assert (H2 : 435 / 100000 <= 1 / 10) by lra.
  split; [split; [exact H1 | exact H2]|].
  exact (proj1 (tran_is_a_transmission (1 / 10) 31) H1 H2).
Defined.

(** ** configmeld: cleanup and the wavebands in general *)

Lemma existsb_eqb_in (path : string) (fs : list string) :
  existsb (String.eqb path) fs = true <-> In path fs.
Proof.
  rewrite existsb_exists. split.
  - intros [f [Hf E]]. apply String.eqb_eq in E. subst. exact Hf.
  - intros H. exists path. split; [exact H | apply String.eqb_refl].
Qed.

Lemma in_without (path f : string) (fs : list string) :
  In f (filter (fun f' => negb (String.eqb path f')) fs)
  <-> In f fs /\ f <> path.
Proof.
  rewrite filter_In, negb_true_iff. split.
  - intros [H E]. split; [exact H|]. intros ->.
    rewrite String.eqb_refl in E. discriminate.
  - intros [H N]. split; [exact H|].
    apply String.eqb_neq. congruence.
Qed.

Lemma os_remove_ok (path : string) (fs fs' : list string) :
  ConfigmeldCleanup.os_remove path fs = Ok fs'
  <-> In path fs /\ fs' = filter (fun f => negb (String.eqb path f)) fs.
Proof.
  unfold ConfigmeldCleanup.os_remove.
  destruct (existsb (String.eqb path) fs) eqn:E.
  - apply existsb_eqb_in in E. split.
    + intros H. inversion H. auto.
    + intros [_ ->]. reflexivity.
  - split; [discriminate|]. intros [H _].
    apply existsb_eqb_in in H. congruence.
Qed.

Lemma os_remove_raises (path : string) (fs : list string) :
  ~ In path fs ->
  ConfigmeldCleanup.os_remove path fs = Raise (OtherError "OSError").
Proof.
  intros H. unfold ConfigmeldCleanup.os_remove.
  destruct (existsb (String.eqb path) fs) eqn:E; [|reflexivity].
  apply existsb_eqb_in in E. contradiction.
Qed.

(** X13: configmeld's [cleanup] never raises, but it stops at the first
    file it cannot remove: [ParSys.cleanup()] runs exactly when config1.tmp
    and config2.tmp both exist; when config1.tmp is missing nothing at all
    is done (config2.tmp stays); and no other file is ever touched. *)
Theorem configmeld_cleanup_stops_at_missing_file (w : ConfigmeldCleanup.world) :
  (~ In "config1.tmp"%string (ConfigmeldCleanup.files w) ->
   ConfigmeldCleanup.cleanup w = w)
  /\ (ConfigmeldCleanup.parsys_cleaned (ConfigmeldCleanup.cleanup w) = true
      <-> ConfigmeldCleanup.parsys_cleaned w = true
          \/ (In "config1.tmp"%string (ConfigmeldCleanup.files w)
              /\ In "config2.tmp"%string (ConfigmeldCleanup.files w)))
  /\ (In "config1.tmp"%string (ConfigmeldCleanup.files w) ->
      ~ In "config1.tmp"%string
           (ConfigmeldCleanup.files (ConfigmeldCleanup.cleanup w)))
  /\ (forall f, f <> "config1.tmp"%string -> f <> "config2.tmp"%string ->
                (In f (ConfigmeldCleanup.files (ConfigmeldCleanup.cleanup w))
                 <-> In f (ConfigmeldCleanup.files w))).
Proof.
  unfold ConfigmeldCleanup.cleanup.
  destruct (ConfigmeldCleanup.os_remove "config1.tmp" (ConfigmeldCleanup.files w))
    as [f1|e] eqn:E1.
  - apply os_remove_ok in E1. destruct E1 as [H1 ->].
    destruct (ConfigmeldCleanup.os_remove "config2.tmp" _) as [f2|e] eqn:E2.
    + apply os_remove_ok in E2. destruct E2 as [H2 ->].
      apply in_without in H2. destruct H2 as [H2 _].
      cbn [ConfigmeldCleanup.files ConfigmeldCleanup.parsys_cleaned].
      split; [intros N; contradiction|].
      split; [split; auto|].
      split.
      * intros _ H. apply in_without in H. destruct H as [H _].
        apply in_without in H. destruct H as [_ H]. congruence.
      * intros f N1 N2. rewrite !in_without. tauto.
    + cbn [ConfigmeldCleanup.files ConfigmeldCleanup.parsys_cleaned].
      assert (N2 : ~ In "config2.tmp"%string (ConfigmeldCleanup.files w)).
      { intros H. assert (Hin : In "config2.tmp"%string
                                  (filter (fun f' => negb (String.eqb "config1.tmp" f'))
                                          (ConfigmeldCleanup.files w)))
          by (apply in_without; split; [exact H | discriminate]).
        pose proof (proj2 (os_remove_ok "config2.tmp" _ _) (conj Hin eq_refl)).
        congruence. }
      split; [intros N; contradiction|].
      split; [split; [auto | intros [H|[_ H]]; [exact H | contradiction]]|].
      split.
      * intros _ H. apply in_without in H. destruct H as [_ H]. congruence.
      * intros f N1 _. rewrite in_without. tauto.
  - assert (N1 : ~ In "config1.tmp"%string (ConfigmeldCleanup.files w)).
    { intros H.
      pose proof (proj2 (os_remove_ok "config1.tmp" _ _) (conj H eq_refl)).
      congruence. }
    split; [reflexivity|].
    split; [split; [auto | intros [H|[H _]]; [exact H | contradiction]]|].
    split; [intros H; contradiction | intros f _ _; reflexivity].
Qed.

Lemma configmeld_cleanup_stops_at_missing_file_witness :
  ~ In "config1.tmp"%string
       (ConfigmeldCleanup.files
          (ConfigmeldCleanup.mkWorld ["config2.tmp"; "adam_1234"]%string false))
  /\ ConfigmeldCleanup.cleanup
       (ConfigmeldCleanup.mkWorld ["config2.tmp"; "adam_1234"]%string false)
     = ConfigmeldCleanup.mkWorld ["config2.tmp"; "adam_1234"]%string false.
Proof.
  assert (H : ~ In "config1.tmp"%string
                   (ConfigmeldCleanup.files
                      (ConfigmeldCleanup.mkWorld
                         ["config2.tmp"; "adam_1234"]%string false))).
  { simpl. intros [H|[H|H]]; try discriminate; exact H. }
  split; [exact H|].
  exact (proj1 (configmeld_cleanup_stops_at_missing_file _) H).
Defined.

Lemma waveband_of_ok (config : string) (isndf : bool) (subarray : option string)
  (w : option string) (m : list string) :
  waveband_of config isndf subarray = Ok (w, m) ->
  (w = None /\ (isndf = false \/ subarray = None))
  \/ (isndf = true /\ exists s, subarray = Some s
                                /\ ((substring 1 1 s = "4"%string
                                     /\ w = Some "450"%string)
                                    \/ (substring 1 1 s = "8"%string
                                        /\ w = Some "850"%string))).
Proof.
  unfold waveband_of. destruct isndf.
  - destruct subarray as [s|].
    + destruct (String.eqb (substring 1 1 s) "4") eqn:E4.
      * apply String.eqb_eq in E4. intros H. inversion H. right. eauto 8.
      * destruct (String.eqb (substring 1 1 s) "8") eqn:E8; [|discriminate].
        apply String.eqb_eq in E8. intros H. inversion H. right. eauto 8.
    + intros H. inversion H. auto.
  - intros H. inversion H. auto.
Qed.

Lemma waveband_of_raises (config : string) (isndf : bool)
  (subarray : option string) (e : exn) :
  waveband_of config isndf subarray = Raise e <->
  exists s, isndf = true /\ subarray = Some s
            /\ substring 1 1 s <> "4"%string /\ substring 1 1 s <> "8"%string
            /\ e = StarUtilError
                     ("Unexpected value '" ++ s
                      ++ "' found for SUBARRAY FITS Header in " ++ config ++ ".").
Proof.
  unfold waveband_of. split.
  - destruct isndf; [|discriminate]. destruct subarray as [s|]; [|discriminate].
    destruct (String.eqb (substring 1 1 s) "4") eqn:E4; [discriminate|].
    destruct (String.eqb (substring 1 1 s) "8") eqn:E8; [discriminate|].
    apply String.eqb_neq in E4, E8. intros H. inversion H. eauto 8.
  - intros [s [-> [-> [N4 [N8 ->]]]]].
    apply String.eqb_neq in N4, N8. rewrite N4, N8. reflexivity.
Qed.

(** X14: whenever configmeld gets past the choice of wavebands, both
    wavebands are defined and each selection passed to configecho is the
    one of its own waveband: ['850=0,450=1'] for "450", ['850=1,450=0']
    for anything else. *)
Theorem wavebands_are_defined (config1 config2 WAVEBAND : string)
  (p1 p2 : probe) (sel : selection) :
  wavebands config1 config2 WAVEBAND p1 p2 = Ok sel ->
  exists a b,
    waveband1 sel = Some a /\ waveband2 sel = Some b
    /\ select1 sel = (if String.eqb a "450" then "'850=0,450=1'"
                      else "'850=1,450=0'")%string
    /\ select2 sel = (if String.eqb b "450" then "'850=0,450=1'"
                      else "'850=1,450=0'")%string
    /\ isndf1 sel = fst (find_subarray p1)
    /\ isndf2 sel = fst (find_subarray p2).
Proof.
  unfold wavebands.
  destruct (find_subarray p1) as [n1 s1]. destruct (find_subarray p2) as [n2 s2].
  destruct (waveband_of config1 n1 s1) as [[w1 m1]|e]; cbn [bind]; [|discriminate].
  destruct (waveband_of config2 n2 s2) as [[w2 m2]|e]; cbn [bind]; [|discriminate].
  destruct w1 as [a|]; destruct w2 as [b|]; unfold merge;
    cbn [is_none negb andb].
  - destruct (negb (opt_eqb (Some a) (Some b)));
      intros H; inversion H; cbn; eauto 10.
  - intros H; inversion H; cbn; eauto 10.
  - intros H; inversion H; cbn; eauto 10.
  - intros H; inversion H; cbn; eauto 10.
Qed.

Lemma wavebands_are_defined_witness :
  wavebands "a.sdf" "^b.lis" "850" ndf450 plain
  = Ok (mkSelection true false (Some "450"%string) (Some "450"%string)
          "'850=0,450=1'" "'850=0,450=1'"
          [(nl ++ "  Showing 450 um values")%string])
  /\ exists a b,
       Some "450"%string = Some a /\ Some "450"%string = Some b
       /\ "'850=0,450=1'"%string
          = (if String.eqb a "450" then "'850=0,450=1'" else "'850=1,450=0'")%string
       /\ "'850=0,450=1'"%string
          = (if String.eqb b "450" then "'850=0,450=1'" else "'850=1,450=0'")%string
       /\ true = fst (find_subarray ndf450)
       /\ false = fst (find_subarray plain).
Proof.
  assert (E : wavebands "a.sdf" "^b.lis" "850" ndf450 plain
              = Ok (mkSelection true false (Some "450"%string) (Some "450"%string)
                      "'850=0,450=1'" "'850=0,450=1'"
                      [(nl ++ "  Showing 450 um values")%string]))
    by reflexivity.
  split; [exact E|].
  exact (wavebands_are_defined "a.sdf" "^b.lis" "850" ndf450 plain _ E).
Defined.

(** X15: the WAVEBAND parameter is a fallback only.  When the subarray of
    at least one config is known, the outcome is the same whatever
    WAVEBAND holds; when it is known for neither (a plain config, or an
    NDF without SUBARRAY header and subarray in its provenance), both
    wavebands are WAVEBAND. *)
Theorem WAVEBAND_is_used_as_fallback_only (config1 config2 : string)
  (p1 p2 : probe) :
  ((exists s, snd (find_subarray p1) = Some s)
   \/ (exists s, snd (find_subarray p2) = Some s) ->
   forall W W', wavebands config1 config2 W p1 p2
                = wavebands config1 config2 W' p1 p2)
  /\ (snd (find_subarray p1) = None -> snd (find_subarray p2) = None ->
      forall W, exists m,
        wavebands config1 config2 W p1 p2
        = Ok (mkSelection (fst (find_subarray p1)) (fst (find_subarray p2))
                (Some W) (Some W) (select (Some W)) (select (Some W)) m)).
Proof.
  unfold wavebands.
  destruct (find_subarray p1) as [n1 s1] eqn:F1.
  destruct (find_subarray p2) as [n2 s2] eqn:F2. cbn [fst snd].
  assert (Hn1 : forall s, s1 = Some s -> n1 = true).
  { intros s ->. unfold find_subarray in F1.
    destruct (fits_header p1) as [[h|]|]; [inversion F1; auto| |discriminate].
    destruct (provshow p1) as [t|]; [|discriminate].
    destruct (_ || _); [inversion F1; auto|].
    destruct (_ || _); [inversion F1; auto | discriminate]. }
  assert (Hn2 : forall s, s2 = Some s -> n2 = true).
  { intros s ->. unfold find_subarray in F2.
    destruct (fits_header p2) as [[h|]|]; [inversion F2; auto| |discriminate].
    destruct (provshow p2) as [t|]; [|discriminate].
    destruct (_ || _); [inversion F2; auto|].
    destruct (_ || _); [inversion F2; auto | discriminate]. }
  split.
  - intros Hknown W W'.
    destruct (waveband_of config1 n1 s1) as [[w1 m1]|e] eqn:E1; cbn [bind];
      [|reflexivity].
    destruct (waveband_of config2 n2 s2) as [[w2 m2]|e] eqn:E2; cbn [bind];
      [|reflexivity].
    apply waveband_of_ok in E1, E2.
    destruct w1 as [a|]; destruct w2 as [b|]; try reflexivity.
    exfalso.
    destruct E1 as [[_ E1]|[_ [s [_ [[_ E1]|[_ E1]]]]]]; try discriminate.
    destruct E2 as [[_ E2]|[_ [s [_ [[_ E2]|[_ E2]]]]]]; try discriminate.
    destruct Hknown as [[s Hs]|[s Hs]].
    + pose proof (Hn1 s Hs). destruct E1; congruence.
    + pose proof (Hn2 s Hs). destruct E2; congruence.
  - intros -> -> W.
    assert (E1 : exists m, waveband_of config1 n1 None = Ok (None, m))
      by (unfold waveband_of; destruct n1; eauto).
    assert (E2 : exists m, waveband_of config2 n2 None = Ok (None, m))
      by (unfold waveband_of; destruct n2; eauto).
    destruct E1 as [m1 ->]. destruct E2 as [m2 ->]. cbn. eauto.
Qed.

Lemma WAVEBAND_is_used_as_fallback_only_witness :
  (exists s, snd (find_subarray ndf850) = Some s)
  /\ wavebands "a.sdf" "^b.lis" "450" ndf850 plain
     = wavebands "a.sdf" "^b.lis" "850" ndf850 plain.
Proof.
  assert (H : exists s, snd (find_subarray ndf850) = Some s)
    by (exists "s8"%string; reflexivity).
  split; [exact H|].
  exact (proj1 (WAVEBAND_is_used_as_fallback_only "a.sdf" "^b.lis" ndf850 plain)
           (or_introl H) "450"%string "850"%string).
Defined.

(** X16: the choice of wavebands fails exactly when the subarray found
    for one of the configs has a second character other than "4" and "8";
    the failure is an [InvalidParameterError] (a [StarUtilError]) that
    names the subarray and the config, the first config being examined
    first. *)
Theorem wavebands_raises_on_unexpected_subarray (config1 config2 WAVEBAND : string)
  (p1 p2 : probe) :
  (forall e, wavebands config1 config2 WAVEBAND p1 p2 = Raise e ->
             exists s config,
               ((config = config1 /\ snd (find_subarray p1) = Some s)
                \/ (config = config2 /\ snd (find_subarray p2) = Some s))
               /\ substring 1 1 s <> "4"%string /\ substring 1 1 s <> "8"%string
               /\ e = StarUtilError
                        ("Unexpected value '" ++ s
                         ++ "' found for SUBARRAY FITS Header in " ++ config
                         ++ "."))
  /\ (forall s, find_subarray p1 = (true, Some s) ->
                substring 1 1 s <> "4"%string -> substring 1 1 s <> "8"%string ->
                wavebands config1 config2 WAVEBAND p1 p2
                = Raise (StarUtilError
                           ("Unexpected value '" ++ s
                            ++ "' found for SUBARRAY FITS Header in " ++ config1
                            ++ "."))).
Proof.
  split.
  - intros e. unfold wavebands.
    destruct (find_subarray p1) as [n1 s1]. destruct (find_subarray p2) as [n2 s2].
    cbn [snd].
    destruct (waveband_of config1 n1 s1) as [[w1 m1]|e1] eqn:E1; cbn [bind].
    + destruct (waveband_of config2 n2 s2) as [[w2 m2]|e2] eqn:E2; cbn [bind].
      * destruct (merge w1 w2 WAVEBAND) as [[a b] m]. discriminate.
      * intros H. inversion H; subst e2.
        apply waveband_of_raises in E2.
        destruct E2 as [s [_ [-> [N4 [N8 ->]]]]]. exists s, config2. auto.
    + intros H. inversion H; subst e1.
      apply waveband_of_raises in E1.
      destruct E1 as [s [_ [-> [N4 [N8 ->]]]]]. exists s, config1. auto.
  - intros s F N4 N8. unfold wavebands. rewrite F.
    replace (waveband_of config1 true (Some s))
      with (@Raise (option string * list string)
              (StarUtilError
                 ("Unexpected value '" ++ s
                  ++ "' found for SUBARRAY FITS Header in " ++ config1 ++ ".")));
      [reflexivity|].
    symmetry. apply waveband_of_raises. eauto 8.
Qed.

Lemma wavebands_raises_on_unexpected_subarray_witness :
  (find_subarray ndf_other = (true, Some "h13"%string)
   /\ substring 1 1 "h13" <> "4"%string /\ substring 1 1 "h13" <> "8"%string)
  /\ wavebands "a.sdf" "b.sdf" "850" ndf_other ndf450
     = Raise (StarUtilError
                "Unexpected value 'h13' found for SUBARRAY FITS Header in a.sdf.").
Proof.
  assert (N4 : substring 1 1 "h13" <> "4"%string) by discriminate.
  assert (N8 : substring 1 1 "h13" <> "8"%string) by discriminate.
  split; [split; [reflexivity | split; [exact N4 | exact N8]]|].
  exact (proj2 (wavebands_raises_on_unexpected_subarray "a.sdf" "b.sdf" "850"
                  ndf_other ndf450) "h13"%string eq_refl N4 N8).
Defined.

(** ** pol2stack: units, POL2 in the beam and calibration *)

Lemma check_sdf_ok (sdf : string * string) :
  Pol2stack.check_sdf sdf tt = Ok tt
  <-> Pol2stack.remove_spaces (snd sdf) = "pW"%string.
Proof.
  destruct sdf as [name units]. unfold Pol2stack.check_sdf. cbn [snd].
  destruct (String.eqb (Pol2stack.remove_spaces units) "pW") eqn:E; cbn [negb].
  - apply String.eqb_eq in E. tauto.
  - apply String.eqb_neq in E. split; [discriminate | contradiction].
Qed.

Lemma check_list_ok (l : list (string * string)) :
  foldM Pol2stack.check_sdf l tt = Ok tt
  <-> Forall (fun sdf => Pol2stack.remove_spaces (snd sdf) = "pW"%string) l.
Proof.
  induction l as [|sdf l IH]; cbn [foldM].
  - split; [constructor | reflexivity].
  - destruct (Pol2stack.check_sdf sdf tt) as [[]|e] eqn:E.
    + apply check_sdf_ok in E. rewrite IH. split.
      * intros H. constructor; assumption.
      * intros H. inversion H; assumption.
    + split; [discriminate|]. intros H. inversion H as [|? ? Hs _]; subst.
      apply check_sdf_ok in Hs. congruence.
Qed.

Lemma check_list_raises (l : list (string * string)) (e : exn) :
  foldM Pol2stack.check_sdf l tt = Raise e -> exists msg, e = StarUtilError msg.
Proof.
  induction l as [|[name units] l IH]; cbn [foldM]; [discriminate|].
  unfold Pol2stack.check_sdf at 1.
  destruct (negb (String.eqb (Pol2stack.remove_spaces units) "pW")).
  - intros H. inversion H. eauto.
  - exact IH.
Qed.

(** X17: the units check of pol2stack passes exactly when the UNITS of
    every Q, U and I map, with its spaces taken out, is "pW" (so "p W"
    passes and "mJy/beam" does not); any failure is an
    [InvalidParameterError]. *)
Theorem check_units_accepts_pW_only (qin uin iin : list (string * string)) :
  (Pol2stack.check_units qin uin iin = Ok tt
   <-> Forall (fun sdf => Pol2stack.remove_spaces (snd sdf) = "pW"%string)
              (qin ++ uin ++ iin))
  /\ (forall e, Pol2stack.check_units qin uin iin = Raise e ->
                exists msg, e = StarUtilError msg).
Proof.
  unfold Pol2stack.check_units. cbn [foldM].
  destruct (foldM Pol2stack.check_sdf qin tt) as [[]|eq] eqn:Eq.
  - destruct (foldM Pol2stack.check_sdf uin tt) as [[]|eu] eqn:Eu.
    + destruct (foldM Pol2stack.check_sdf iin tt) as [[]|ei] eqn:Ei.
      * apply check_list_ok in Eq, Eu, Ei. split; [|discriminate].
        split; [intros _ | reflexivity].
        apply Forall_app. split; [exact Eq|]. apply Forall_app. auto.
      * split.
        -- split; [discriminate|]. intros H.
           apply Forall_app in H. destruct H as [_ H].
           apply Forall_app in H. destruct H as [_ H].
           apply check_list_ok in H. congruence.
        -- intros e H. inversion H; subst. eapply check_list_raises. exact Ei.
    + split.
      * split; [discriminate|]. intros H.
        apply Forall_app in H. destruct H as [_ H].
        apply Forall_app in H. destruct H as [H _].
        apply check_list_ok in H. congruence.
      * intros e H. inversion H; subst. eapply check_list_raises. exact Eu.
  - split.
    + split; [discriminate|]. intros H.
      apply Forall_app in H. destruct H as [H _].
      apply check_list_ok in H. congruence.
    + intros e H. inversion H; subst. eapply check_list_raises. exact Eq.
Qed.

Lemma ipol2_loop_some (l : list string) (b b' : bool) :
  Pol2stack.ipol2_loop l (Some b) = Some b'
  <-> b' = b /\ Forall (fun s => Configmeld.contains s "pol" = b) l.
Proof.
  induction l as [|s l IH]; cbn [Pol2stack.ipol2_loop].
  - split.
    + intros H. inversion H. auto.
    + intros [-> _]. reflexivity.
  - destruct (Configmeld.contains s "pol") eqn:C; destruct b.
    + rewrite IH. split.
      * intros [-> H]. auto.
      * intros [-> H]. inversion H; auto.
    + split; [discriminate|]. intros [_ H]. inversion H; congruence.
    + split; [discriminate|]. intros [_ H]. inversion H; congruence.
    + rewrite IH. split.
      * intros [-> H]. auto.
      * intros [-> H]. inversion H; auto.
Qed.

(** X18: given the INBEAM header of every I map as a string, pol2stack
    takes the I maps as POL2 data ([True]) exactly when there is at least
    one I map and the INBEAM header of every one contains "pol", as
    non-POL2 data ([False]) exactly when there is at least one and none
    does; a mixture, and also an empty list of I maps,
    ends in the "Mixture of POL2 and non-POL2 I maps" error. *)
Theorem ipol2_needs_uniform_I_maps (inbeams : list string) (b : bool) :
  (Pol2stack.ipol2_of inbeams = Ok b
   <-> inbeams <> []
       /\ Forall (fun s => Configmeld.contains s "pol" = b) inbeams)
  /\ Pol2stack.ipol2_of []
     = Raise (StarUtilError
                "Mixture of POL2 and non-POL2 I maps supplied - all I maps must be the same.")
  /\ (forall e, Pol2stack.ipol2_of inbeams = Raise e ->
                e = StarUtilError
                      "Mixture of POL2 and non-POL2 I maps supplied - all I maps must be the same.").
Proof.
  split; [|split; [reflexivity|]].
  - unfold Pol2stack.ipol2_of. destruct inbeams as [|s l].
    + cbn. split; [discriminate | intros [H _]; congruence].
    + cbn [Pol2stack.ipol2_loop].
      assert (Hloop : forall c, Configmeld.contains s "pol" = c ->
                match Pol2stack.ipol2_loop l (Some c) with
                | Some b0 => Ok b0
                | None => Raise (StarUtilError
                     "Mixture of POL2 and non-POL2 I maps supplied - all I maps must be the same.")
                end = Ok b
                <-> s :: l <> []
                    /\ Forall (fun s => Configmeld.contains s "pol" = b) (s :: l)).
      { intros c Hc.
        destruct (Pol2stack.ipol2_loop l (Some c)) as [b0|] eqn:L.
        - apply ipol2_loop_some in L. destruct L as [-> L]. split.
          + intros H. inversion H as [Hb]. split; [discriminate|].
            apply Forall_cons_iff. rewrite <- Hb. auto.
          + intros [_ H]. apply Forall_cons_iff in H. destruct H as [H _].
            congruence.
        - split; [discriminate|]. intros [_ H].
          apply Forall_cons_iff in H. destruct H as [Hs Hl].
          assert (Ebc : c = b) by congruence. rewrite Ebc in L.
          assert (Pol2stack.ipol2_loop l (Some b) = Some b)
            by (apply ipol2_loop_some; split; [reflexivity | exact Hl]).
          congruence. }
      destruct (Configmeld.contains s "pol") eqn:C; apply Hloop; reflexivity.
  - intros e. unfold Pol2stack.ipol2_of.
    destruct (Pol2stack.ipol2_loop inbeams None); [discriminate|].
    intros H. inversion H. reflexivity.
Qed.

Lemma fcf_ok (filter : Z) (ipol2 : bool) (qu i : R) :
  Pol2stack.fcf filter ipol2 = Ok (qu, i) ->
  (filter = 450%Z /\ qu = 962 /\ i = (if ipol2 then 962 else 491))
  \/ (filter = 850%Z /\ qu = 725 /\ i = (if ipol2 then 725 else 537)).
Proof.
  unfold Pol2stack.fcf.
  destruct (filter =? 450)%Z eqn:E4.
  - apply Z.eqb_eq in E4. intros H. inversion H. auto.
  - destruct (filter =? 850)%Z eqn:E8; [|discriminate].
    apply Z.eqb_eq in E8. intros H. inversion H. auto.
Qed.

(** X19: when the calibration of pol2stack succeeds, the FILTER is 450 or
    850 (a missing FILTER header counting as 850) and the I mosaic is
    scaled, relative to Q and U, by the same factor whether the output is
    in Jy/beam or in pW: 1 when the I maps are POL2 data, 491/962 at 450 um
    and 537/725 at 850 um when they are not.  The division by [fcf_qu]
    never fails: every failure is an [InvalidParameterError]. *)
Theorem calibration_scales_I_relative_to_QU (header : option Z)
  (inbeams : list string) (jy : bool) :
  (forall r,
      Pol2stack.calibration header inbeams jy = Ok r ->
      exists ipol2,
        Pol2stack.ipol2_of inbeams = Ok ipol2
        /\ (Pol2stack.filter_of header = 450%Z
            \/ Pol2stack.filter_of header = 850%Z)
        /\ match r with
           | (Some q, Some u, Some i) =>
               jy = true /\ q = u
               /\ i / q = (if ipol2 then 1
                           else if (Pol2stack.filter_of header =? 450)%Z
                                then 491 / 962 else 537 / 725)
           | (None, None, Some i) =>
               jy = false
               /\ i = (if ipol2 then 1
                       else if (Pol2stack.filter_of header =? 450)%Z
                            then 491 / 962 else 537 / 725)
           | _ => False
           end)
  /\ (forall e, Pol2stack.calibration header inbeams jy = Raise e ->
                exists msg, e = StarUtilError msg)
  /\ Pol2stack.filter_of None = 850%Z.
Proof.
  split; [|split; [|reflexivity]].
  - intros r. unfold Pol2stack.calibration.
    destruct (Pol2stack.ipol2_of inbeams) as [ipol2|e]; cbn [bind]; [|discriminate].
    destruct (Pol2stack.fcf (Pol2stack.filter_of header) ipol2) as [[qu i]|e] eqn:F;
      cbn [bind]; [|discriminate].
    apply fcf_ok in F. unfold Pol2stack.scalars, py_fdiv.
    assert (Hqu : qu <> 0) by (destruct F as [[_ [-> _]]|[_ [-> _]]]; lra).
    replace (Reqb qu 0) with false by (symmetry; apply Reqb_false; exact Hqu).
    cbn [bind]. exists ipol2. split; [reflexivity|].
    split; [destruct F as [[F _]|[F _]]; auto|].
    destruct jy; inversion H; subst; clear H.
    + split; [reflexivity|]. split; [reflexivity|].
      destruct F as [[-> [-> ->]]|[-> [-> ->]]]; destruct ipol2; cbn; field.
    + split; [reflexivity|].
      destruct F as [[-> [-> ->]]|[-> [-> ->]]]; destruct ipol2; cbn; field.
  - intros e. unfold Pol2stack.calibration.
    destruct (Pol2stack.ipol2_of inbeams) as [ipol2|e1] eqn:I; cbn [bind].
    + destruct (Pol2stack.fcf (Pol2stack.filter_of header) ipol2) as [[qu i]|e2] eqn:F;
        cbn [bind].
      * apply fcf_ok in F. unfold Pol2stack.scalars, py_fdiv.
        assert (Hqu : qu <> 0) by (destruct F as [[_ [-> _]]|[_ [-> _]]]; lra).
        replace (Reqb qu 0) with false by (symmetry; apply Reqb_false; exact Hqu).
        destruct jy; discriminate.
      * intros H. inversion H; subst. unfold Pol2stack.fcf in F.
        destruct (_ =? 450)%Z; [discriminate|].
        destruct (_ =? 850)%Z; [discriminate|]. inversion F. eauto.
    + intros H. inversion H; subst. unfold Pol2stack.ipol2_of in I.
      destruct (Pol2stack.ipol2_loop inbeams None); [discriminate|].
      inversion I. eauto.
Qed.

Lemma calibration_scales_I_relative_to_QU_witness :
  Pol2stack.calibration (Some 450%Z) ["scuba2"%string] true
  = Ok (Some 962, Some 962, Some 491)
  /\ exists ipol2,
       Pol2stack.ipol2_of ["scuba2"%string] = Ok ipol2
       /\ (Pol2stack.filter_of (Some 450%Z) = 450%Z
           \/ Pol2stack.filter_of (Some 450%Z) = 850%Z)
       /\ (true = true /\ 962 = 962
           /\ 491 / 962 = (if ipol2 then 1
                           else if (Pol2stack.filter_of (Some 450%Z) =? 450)%Z
                                then 491 / 962 else 537 / 725)).
Proof.
  assert (E : Pol2stack.calibration (Some 450%Z) ["scuba2"%string] true
              = Ok (Some 962, Some 962, Some 491)) by reflexivity.
  split; [exact E|].
  exact (proj1 (calibration_scales_I_relative_to_QU (Some 450%Z)
                  ["scuba2"%string] true) _ E).
Defined.

(** ** tounimap: file names and headers *)

Lemma string_length_app (a b : string) :
  String.length (a ++ b) = (String.length a + String.length b)%nat.
Proof. induction a as [|c a IH]; simpl; [reflexivity | rewrite IH; reflexivity]. Qed.

Lemma substring_prefix (a b : string) :
  substring 0 (String.length a) (a ++ b) = a.
Proof.
  induction a as [|c a IH]; simpl.
  - destruct b; reflexivity.
  - rewrite IH. reflexivity.
Qed.

Lemma string_app_inv_head (a b c : string) :
  (a ++ b)%string = (a ++ c)%string -> b = c.
Proof.
  induction a as [|x a IH]; simpl; intros H; [exact H|].
  inversion H. apply IH. assumption.
Qed.

(** X20: [path[:-16]] undoes the "_con_res_cln.sdf" that sc2concat and
    makemap append: for every base name the base recovered from the
    cleaned file is that base, so that the file names built from it
    (cleaned data, latitude, longitude, output) belong to the same chunk
    and the cleaned file removed at the end is the one that was found; a
    path of 16 characters or fewer gives the empty base. *)
Theorem base_of_cleaned_name (base : string) :
  Tounimap.base_of (Tounimap.cleaned base) = base
  /\ Tounimap.cleaned (Tounimap.base_of (Tounimap.cleaned base))
     = Tounimap.cleaned base
  /\ Tounimap.outdata (Tounimap.base_of (Tounimap.cleaned base))
     = (base ++ "_unimap.fit")%string
  /\ (forall path, (String.length path <= 16)%nat ->
                   Tounimap.base_of path = ""%string).
Proof.
  assert (E : Tounimap.base_of (Tounimap.cleaned base) = base).
  { unfold Tounimap.base_of, Tounimap.drop_end, Tounimap.cleaned.
    rewrite string_length_app.
    replace (String.length base + String.length "_con_res_cln.sdf" - 16)%nat
      with (String.length base) by (simpl; lia).
    apply substring_prefix. }
  split; [exact E|]. rewrite E. split; [reflexivity|]. split; [reflexivity|].
  intros path H. unfold Tounimap.base_of, Tounimap.drop_end.
  replace (String.length path - 16)%nat with 0%nat by lia.
  destruct path; reflexivity.
Qed.

Lemma has_key_filter (h : Tounimap.header) (k k' : string) :
  k' <> k ->
  Tounimap.has_key
    (filter (fun card => negb (String.eqb k (fst card))) h) k'
  = Tounimap.has_key h k'.
Proof.
  intros N. unfold Tounimap.has_key.
  induction h as [|[key v] h IH]; [reflexivity|].
  cbn [filter fst]. destruct (String.eqb k key) eqn:E; cbn [negb existsb fst].
  - apply String.eqb_eq in E. subst key.
    replace (String.eqb k' k) with false
      by (symmetry; apply String.eqb_neq; exact N).
    exact IH.
  - rewrite IH. reflexivity.
Qed.

Lemma striphdr_gen (ks : list string) :
  NoDup ks ->
  forall h h',
    foldM Tounimap.delitem ks h = Ok h'
    <-> (forall k, In k ks -> Tounimap.has_key h k = true)
        /\ h' = filter (fun card => negb (existsb (String.eqb (fst card)) ks)) h.
Proof.
  induction 1 as [|k ks Hk Hnd IH]; intros h h'; cbn [foldM].
  - split.
    + intros H. inversion H. split; [intros k []|].
      symmetry. apply filter_true. reflexivity.
    + intros [_ ->]. f_equal. symmetry. apply filter_true. reflexivity.
  - unfold Tounimap.delitem at 1.
    destruct (Tounimap.has_key h k) eqn:K.
    + rewrite IH. split.
      * intros [Hall ->]. split.
        -- intros k' [<-|Hin]; [exact K|].
           rewrite <- (has_key_filter h k k'); [apply Hall; exact Hin|].
           intros ->. contradiction.
        -- rewrite filter_filter_and. apply filter_ext. intros [key v].
           cbn [fst existsb]. rewrite negb_orb.
           rewrite (String.eqb_sym key k). reflexivity.
      * intros [Hall ->]. split.
        -- intros k' Hin. rewrite has_key_filter; [apply Hall; right; exact Hin|].
           intros ->. contradiction.
        -- rewrite filter_filter_and. apply filter_ext. intros [key v].
           cbn [fst existsb]. rewrite negb_orb.
           rewrite (String.eqb_sym key k). reflexivity.
    + split; [discriminate|]. intros [Hall _].
      rewrite Hall in K by (left; reflexivity). discriminate.
Qed.

Lemma unwanted_nodup : NoDup Tounimap.unwanted.
Proof.
  unfold Tounimap.unwanted.
  repeat constructor; simpl; intros H;
    repeat (destruct H as [H|H]; [discriminate|]); exact H.
Qed.

(** X21: [striphdr] takes the eight keywords HDUCLAS1, HDUCLAS2, HDSTYPE,
    BLANK, BZERO, BSCALE, LBOUND1 and LBOUND2 out of a header and nothing
    else: it returns on every header that has all eight, and whenever it
    returns the header is left with every other card, in the original
    order, and with none of the eight.  (Both hold whether or not the
    deletion of a missing keyword is an error.) *)
Theorem striphdr_removes_the_eight_keywords (h : Tounimap.header) :
  ((forall k, In k Tounimap.unwanted -> Tounimap.has_key h k = true) ->
   Tounimap.striphdr h
   = Ok (filter (fun card =>
                   negb (existsb (String.eqb (fst card)) Tounimap.unwanted)) h))
  /\ (forall h', Tounimap.striphdr h = Ok h' ->
                 h' = filter (fun card =>
                                negb (existsb (String.eqb (fst card))
                                              Tounimap.unwanted)) h
                 /\ forall k, In k Tounimap.unwanted ->
                              Tounimap.has_key h' k = false).
Proof.
  split.
  - intros H. apply (striphdr_gen _ unwanted_nodup). split; [exact H | reflexivity].
  - intros h' H.
    apply (striphdr_gen _ unwanted_nodup) in H. destruct H as [_ ->].
    split; [reflexivity|]. intros k Hk.
    unfold Tounimap.has_key. apply not_true_is_false. intros Hex.
    apply existsb_exists in Hex. destruct Hex as [[key v] [Hin E]].
    apply filter_In in Hin. destruct Hin as [_ Hf]. cbn [fst] in *.
    apply String.eqb_eq in E. subst key.
    apply negb_true_iff in Hf.
    assert (existsb (String.eqb k) Tounimap.unwanted = true)
      by (apply existsb_exists; exists k; split;
          [exact Hk | apply String.eqb_refl]).
    congruence.
Qed.

Lemma striphdr_removes_the_eight_keywords_witness :
  Tounimap.striphdr full_header = Ok [("SIMPLE", "T"); ("NAXIS", "2")]%string.
Proof.
  apply (proj1 (striphdr_removes_the_eight_keywords full_header)).
  intros k Hk. unfold Tounimap.unwanted in Hk. simpl in Hk.
  repeat (destruct Hk as [<-|Hk]; [reflexivity|]). destruct Hk.
Defined.

Lemma myremove_filter (path : string) (fs : list string) :
  Tounimap.myremove path fs = filter (fun f => negb (String.eqb path f)) fs.
Proof.
  unfold Tounimap.myremove.
  destruct (existsb (String.eqb path) fs) eqn:E; [reflexivity|].
  symmetry. apply filter_true. intros f Hf.
  apply negb_true_iff. apply not_true_is_false. intros Heq.
  apply String.eqb_eq in Heq. subst f.
  assert (existsb (String.eqb path) fs = true)
    by (apply existsb_exists; exists path; split;
        [exact Hf | apply String.eqb_refl]).
  congruence.
Qed.

Lemma in_removed (path f : string) (fs : list string) :
  In f (filter (fun f => negb (String.eqb path f)) fs) <-> In f fs /\ f <> path.
Proof.
  rewrite filter_In. split; intros [H N]; (split; [exact H|]).
  - intros ->. rewrite String.eqb_refl in N. discriminate.
  - apply negb_true_iff. apply String.eqb_neq. congruence.
Qed.

Lemma chunk_names_differ (base : string) :
  Tounimap.lat base <> Tounimap.cleaned base
  /\ Tounimap.lon base <> Tounimap.cleaned base
  /\ Tounimap.lon base <> Tounimap.lat base.
Proof.
  unfold Tounimap.lat, Tounimap.lon, Tounimap.cleaned.
  repeat split; intros H; apply string_app_inv_head in H; discriminate.
Qed.

(** X22: the files of one chunk.  The tolerant erasure at the start of
    tounimap, run on the cleaned file of a chunk, never fails and leaves
    exactly the files that are none of the chunk's cleaned, latitude and
    longitude files.  The three [os.remove] at the end of a chunk succeed
    exactly when all three files exist, and then leave the same files as the
    tolerant erasure; when one is missing they raise [OSError]. *)
Theorem chunk_files_are_removed_together (base : string) (fs : list string) :
  (forall f, In f (Tounimap.erase_previous (Tounimap.cleaned base) fs)
             <-> In f fs /\ f <> Tounimap.cleaned base
                 /\ f <> Tounimap.lat base /\ f <> Tounimap.lon base)
  /\ (forall r, Tounimap.remove_chunk base fs = Ok r
                <-> (In (Tounimap.cleaned base) fs /\ In (Tounimap.lat base) fs
                     /\ In (Tounimap.lon base) fs)
                    /\ r = Tounimap.erase_previous (Tounimap.cleaned base) fs)
  /\ (forall e, Tounimap.remove_chunk base fs = Raise e
                -> e = OtherError "OSError").
Proof.
  destruct (chunk_names_differ base) as [Nlc [Noc Nol]].
  assert (Eb : Tounimap.base_of (Tounimap.cleaned base) = base).
  { unfold Tounimap.base_of, Tounimap.drop_end, Tounimap.cleaned.
    rewrite string_length_app.
    replace (String.length base + String.length "_con_res_cln.sdf" - 16)%nat
      with (String.length base) by (simpl; lia).
    apply substring_prefix. }
  assert (Ee : Tounimap.erase_previous (Tounimap.cleaned base) fs
               = filter (fun f => negb (String.eqb (Tounimap.lon base) f))
                   (filter (fun f => negb (String.eqb (Tounimap.lat base) f))
                      (filter (fun f => negb (String.eqb (Tounimap.cleaned base) f))
                         fs))).
  { unfold Tounimap.erase_previous. cbv zeta. rewrite Eb.
    rewrite !myremove_filter. reflexivity. }
  split; [|split].
  - intros f. rewrite Ee. rewrite !in_removed. tauto.
  - intros r. rewrite Ee. unfold Tounimap.remove_chunk. split.
    + intros H.
      destruct (ConfigmeldCleanup.os_remove (Tounimap.cleaned base) fs)
        as [f1|e1] eqn:E1; cbn [bind] in H; [|discriminate].
      destruct (ConfigmeldCleanup.os_remove (Tounimap.lat base) f1)
        as [f2|e2] eqn:E2; cbn [bind] in H; [|discriminate].
      apply os_remove_ok in E1. destruct E1 as [I1 ->].
      apply os_remove_ok in E2. destruct E2 as [I2 ->].
      apply os_remove_ok in H. destruct H as [I3 ->].
      apply in_removed in I2. apply in_removed in I3.
      rewrite in_removed in I3. tauto.
    + intros [[I1 [I2 I3]] ->].
      rewrite (proj2 (os_remove_ok (Tounimap.cleaned base) fs _)
                 (conj I1 eq_refl)). cbn [bind].
      rewrite (proj2 (os_remove_ok (Tounimap.lat base) _ _)
                 (conj (proj2 (in_removed _ _ _) (conj I2 Nlc)) eq_refl)).
      cbn [bind].
      apply os_remove_ok. split; [|reflexivity].
      apply in_removed. split; [|exact Nol].
      apply in_removed. split; [exact I3 | exact Noc].
  - intros e H. unfold Tounimap.remove_chunk in H.
    unfold ConfigmeldCleanup.os_remove in H.
    repeat match type of H with
           | context [if ?b then _ else _] => destruct b; cbn [bind] in H
           end; inversion H; reflexivity.
Qed.

Lemma chunk_files_are_removed_together_witness :
  Tounimap.remove_chunk "s8a"
    ["s8a_lon.sdf"; "keep.sdf"; "s8a_con_res_cln.sdf"; "s8a_lat.sdf"]%string
  = Ok ["keep.sdf"%string]
  /\ (Tounimap.remove_chunk "s8a" ["s8a_con_res_cln.sdf"; "s8a_lat.sdf"]%string
      = Raise (OtherError "OSError")).
Proof.
  split.
  - exact (proj2 (proj1 (proj2 (chunk_files_are_removed_together "s8a"
              ["s8a_lon.sdf"; "keep.sdf"; "s8a_con_res_cln.sdf";
               "s8a_lat.sdf"]%string)) _)
             (conj (conj (or_intror (or_intror (or_introl eq_refl)))
                      (conj (or_intror (or_intror (or_intror (or_introl eq_refl))))
                         (or_introl eq_refl)))
                eq_refl)).
  - reflexivity.
Defined.
